(** * adb-backup-scripts: the resumable backup script [main.py]

    A shallow embedding of [src/main.py] and the properties of its
    sync decision logic, transfer executor, progress store and
    orchestrator loop.

    Modelling conventions.
    - Python [str] values are modelled as [string] (ASCII text); [int] as
      [N]; the local filesystem as a finite map from path strings to
      entries; the progress dictionary as a [gmap string json].
    - Everything outside the script (the [adb] subprocesses, the clock) is
      an oracle indexed by the number of external interactions made so
      far, so the environment may answer differently at every call.
    - Python exceptions are values of [exn]; a computation returns a
      [result] together with the world it leaves behind, so that effects
      performed before a [raise] are kept, as in Python.
    - The local tree is a flat map from paths, as the script writes them,
      to entries: paths are compared as strings, so [.] and [..]
      components, repeated slashes and symbolic links are not resolved;
      only [os.makedirs] looks at the parent of a path.  The progress
      file and the file listing are kept apart from the tree.
    - A write fails as a whole when the file cannot be opened, or after
      the file was opened and truncated, which leaves it cut short.
    - Logging and the progress bar only produce output and are left out.
    - Asynchronous signals ([KeyboardInterrupt]) are outside the model. *)

From Stdlib Require Import ZArith NArith QArith Ascii String List Lia Bool.
From stdpp Require Import base option gmap strings list fin_maps.

Local Open Scope string_scope.
Local Open Scope N_scope.

(** ** Python string primitives used by the script *)

Module PyStr.

Definition slash : ascii := "/"%char.
Definition newline : ascii := "010"%char.

(** ASCII characters for which [str.isspace] holds. *)
Definition isspace (c : ascii) : bool :=
    let n := N_of_ascii c in
    ((9 <=? n) && (n <=? 13)) || ((28 <=? n) && (n <=? 32)).

Definition isdigit_char (c : ascii) : bool :=
    let n := N_of_ascii c in (48 <=? n) && (n <=? 57).

Fixpoint lstrip_by (p : ascii -> bool) (s : string) : string :=
    match s with
    | String c s' => if p c then lstrip_by p s' else s
    | EmptyString => EmptyString
    end.

Fixpoint rstrip_by (p : ascii -> bool) (s : string) : string :=
    match s with
    | String c s' =>
        match rstrip_by p s' with
        | EmptyString => if p c then EmptyString else String c EmptyString
        | r => String c r
        end
    | EmptyString => EmptyString
    end.

(** [s.lstrip('/')], [s.rstrip('/')] and [s.strip()]. *)
Definition lstrip_slash : string -> string := lstrip_by (Ascii.eqb slash).
Definition rstrip_slash : string -> string := rstrip_by (Ascii.eqb slash).
Definition strip (s : string) : string := rstrip_by isspace (lstrip_by isspace s).

Definition is_empty (s : string) : bool :=
    match s with EmptyString => true | _ => false end.

Fixpoint all_chars (p : ascii -> bool) (s : string) : bool :=
    match s with
    | String c s' => p c && all_chars p s'
    | EmptyString => true
    end.

(** [s.isdigit()]: non-empty and made of digits only. *)
Definition isdigit (s : string) : bool := negb (is_empty s) && all_chars isdigit_char s.

Fixpoint int_acc (acc : N) (s : string) : N :=
    match s with
    | String c s' => int_acc (10 * acc + (N_of_ascii c - 48)) s'
    | EmptyString => acc
    end.

(** [sys.int_info.default_max_str_digits]: the longest numeral [int]
    converts (CPython 3.11 and later). *)
Definition max_str_digits : nat := 4300.

(** [int(s)] on a string of digits: the value, or [None] where [int]
    raises [ValueError] because the numeral has too many digits. *)
Definition int (s : string) : option N :=
    if (String.length s <=? max_str_digits)%nat then Some (int_acc 0 s) else None.

(** [needle in hay]. *)
Fixpoint contains (needle hay : string) : bool :=
    String.prefix needle hay ||
    match hay with
    | String _ hay' => contains needle hay'
    | EmptyString => false
    end.

(** [s.split(sep)] for a one-character separator. *)
Fixpoint split (sep : ascii) (s : string) : list string :=
  match s with
  | EmptyString => [EmptyString]
  | String c s' =>
      if Ascii.eqb c sep then EmptyString :: split sep s'
      else match split sep s' with
           | w :: ws => String c w :: ws
           | [] => [String c EmptyString]
           end
  end.

(** The ASCII line boundaries of [str.splitlines]:
    LF, VT, FF, CR, FS, GS, RS (and CR LF as a single boundary). *)
Definition is_linebreak (c : ascii) : bool :=
  let n := N_of_ascii c in
  ((10 <=? n) && (n <=? 13)) || ((28 <=? n) && (n <=? 30)).

Fixpoint segments (s : string) : list string :=
  match s with
  | EmptyString => [EmptyString]
  | String c s' =>
      if is_linebreak c then
        match s' with
        | String c' s'' =>
            if (N_of_ascii c =? 13) && (N_of_ascii c' =? 10)
            then EmptyString :: segments s''
            else EmptyString :: segments s'
        | EmptyString => EmptyString :: segments s'
        end
      else match segments s' with
           | w :: ws => String c w :: ws
           | [] => [String c EmptyString]
           end
  end.

(** [s.splitlines()]: no empty last line after a final boundary. *)
Definition splitlines (s : string) : list string :=
  let segs := segments s in
  match last segs with
  | Some EmptyString => removelast segs
  | _ => segs
  end.

End PyStr.

(** ** [os.path] on a POSIX host *)

Module OsPath.
Import PyStr.

Fixpoint endswith_slash (s : string) : bool :=
    match s with
    | String c EmptyString => Ascii.eqb c slash
    | String _ s' => endswith_slash s'
    | EmptyString => false
    end.

Definition startswith_slash (s : string) : bool :=
    match s with
    | String c _ => Ascii.eqb c slash
    | EmptyString => false
    end.

(** [posixpath.join(a, b)]. *)
Definition join (a b : string) : string :=
    if startswith_slash b then b
    else if is_empty a || endswith_slash a then a +:+ b
    else a +:+ "/" +:+ b.

(** The part of [p] up to and including its last slash: [p[:p.rfind('/')+1]]. *)
Fixpoint head_of (p : string) : string :=
    match p with
    | String c p' =>
        match head_of p' with
        | EmptyString => if Ascii.eqb c slash then String c EmptyString else EmptyString
        | h => String c h
        end
    | EmptyString => EmptyString
    end.

(** [posixpath.dirname(p)]. *)
Definition dirname (p : string) : string :=
    let head := head_of p in
    if negb (is_empty head) && negb (is_empty (lstrip_slash head))
    then rstrip_slash head
    else head.

(** The part of [p] after its last slash: [p[p.rfind('/')+1:]]. *)
Fixpoint tail_of (p : string) : string :=
    match p with
    | String c p' =>
        match head_of p' with
        | EmptyString => if Ascii.eqb c slash then p' else p
        | _ => tail_of p'
        end
    | EmptyString => EmptyString
    end.

(** [posixpath.split(p)]: the head is that of [dirname]. *)
Definition split (p : string) : string * string := (dirname p, tail_of p).

End OsPath.

(** ** Module constants *)

Definition PROGRESS_FILE : string := "progress.json".
Definition FILE_LIST : string := "file_list.txt".
Definition ANDROID_ROOT : string := "/sdcard/".
Definition LOCAL_BACKUP_DIR : string := "android_backup".

(** ** Path conversion (lines 83 and 233-234) *)

(** [rel_path = android_path.lstrip('/')];
    [local_path = os.path.join(LOCAL_BACKUP_DIR, rel_path)]. *)
Definition rel_path_of (android_path : string) : string :=
  PyStr.lstrip_slash android_path.

Definition local_path_of (android_path : string) : string :=
  OsPath.join LOCAL_BACKUP_DIR (rel_path_of android_path).

(** [local_dir] of [create_local_directory_structure]. *)
Definition local_dir_of (file_path : string) : string :=
  OsPath.join LOCAL_BACKUP_DIR (OsPath.dirname (PyStr.lstrip_slash file_path)).

(** The derivation the design document describes: strip the remote root
    prefix [ANDROID_ROOT] and reparent the remainder under the local root. *)
Definition strip_root (android_path : string) : string :=
  if String.prefix ANDROID_ROOT android_path
  then String.substring (String.length ANDROID_ROOT)
                        (String.length android_path - String.length ANDROID_ROOT)
                        android_path
  else android_path.

Definition spec_local_path (android_path : string) : string :=
  OsPath.join LOCAL_BACKUP_DIR (strip_root android_path).

(** ** Data model *)

(** Values produced by [json.load]. *)
#[warnings="-register-all"]
Inductive json : Type :=
| JNull
| JBool (b : bool)
| JNum (x : Q)
| JStr (s : string)
| JArr (items : list json)
| JObj (members : gmap string json).

(** What [load_progress] can hand to the rest of the run: the values on
    which [len] is defined.  A well-formed store is a [PDict]; a progress
    file holding a JSON array or string is returned as it is. *)
Inductive progress_t : Type :=
| PDict (m : gmap string json)
| PList (items : list json)
| PStr (s : string).

Definition dump (p : progress_t) : json :=
  match p with
  | PDict m => JObj m
  | PList l => JArr l
  | PStr s => JStr s
  end.

(** The record written at lines 255-259. *)
Definition ProgressRecord (timestamp : Q) (local_path : string) : json :=
  JObj (<["completed" := JBool true]>
        (<["timestamp" := JNum timestamp]>
         (<["local_path" := JStr local_path]> ∅))).

Inductive exn : Type :=
| FileNotFoundError
| FileExistsError
| IsADirectoryError
| NotADirectoryError
| PermissionError
| OSError
| JSONDecodeError
| TypeError
| ValueError
| TimeoutExpired.

Inductive result (A : Type) : Type :=
| Ok (a : A)
| Raise (e : exn).
Arguments Ok {A} a.
Arguments Raise {A} e.

(** Local filesystem entries; [st_size] is what [os.path.getsize] reads. *)
Inductive entry : Type :=
| RegFile (st_size : N)
| Directory (st_size : N).

(** State of the file [progress.json]. *)
Inductive snapshot : Type :=
| Absent
| Unreadable
| Malformed
| Valid (doc : json).

(** The [adb] command lines the script spawns. *)
Inductive call : Type :=
| AdbDevices
| AdbFind (path : string)
| AdbStat (file_path : string)
| AdbPull (android_path local_path : string).

(** What [subprocess.run] observes. *)
Inductive proc : Type :=
| Completed (returncode : Z) (stdout : string)
| Expired
| SpawnFailed.

(** What [file_list.txt] holds: the lines written by a completed write, or
    what is left of a write that failed after the file was opened. *)
Inductive listing : Type :=
| Lines (files : list string)
| CutShort.

(** The working directory and the history of the run.
    [fs] holds the entries of the local tree, keyed by their paths as the
    script writes them; the two files the script keeps beside the mirror,
    [progress.json] and [file_list.txt], are not entries of [fs]: their
    states are [pfile] and [flist].
    [denied] holds the paths at which the script's own calls to unlink,
    create or write fail (a directory without write permission, a file
    held by another process, a full disk); what the [adb] subprocess
    writes is part of the environment.  A write to a path of [denied]
    fails when the file is opened, which leaves the file as it was,
    unless the path is also in [torn]: then the file is opened, and so
    truncated, before the write fails.  [trace] lists the subprocesses
    spawned so far, newest first. *)
Record World : Type := mkWorld {
  fs : gmap string entry;
  denied : gset string;
  torn : gset string;
  pfile : snapshot;
  flist : option listing;
  trace : list call
}.

(** The environment: how the subprocess spawned as interaction number [n]
    behaves, what [adb pull] leaves at the local path (the size of the
    file it wrote, if it wrote one), and the clock. *)
Record Env : Type := mkEnv {
  adb_devices : nat -> proc;
  adb_find : nat -> string -> proc;
  adb_stat : nat -> string -> proc;
  adb_pull : nat -> string -> string -> proc * option N;
  time_time : nat -> Q
}.

Definition set_fs (f : gmap string entry) (w : World) : World :=
  mkWorld f (denied w) (torn w) (pfile w) (flist w) (trace w).
Definition set_pfile (s : snapshot) (w : World) : World :=
  mkWorld (fs w) (denied w) (torn w) s (flist w) (trace w).
Definition set_flist (l : listing) (w : World) : World :=
  mkWorld (fs w) (denied w) (torn w) (pfile w) (Some l) (trace w).
Definition log_call (c : call) (w : World) : World :=
  mkWorld (fs w) (denied w) (torn w) (pfile w) (flist w) (c :: trace w).

(** ** Computations: state passing with exceptions *)

Definition M (A : Type) : Type := World -> result A * World.

Definition ret {A} (a : A) : M A := fun w => (Ok a, w).
Definition raise {A} (e : exn) : M A := fun w => (Raise e, w).
Definition bind {A B} (m : M A) (k : A -> M B) : M B :=
  fun w => match m w with
           | (Ok a, w') => k a w'
           | (Raise e, w') => (Raise e, w')
           end.
(** [try: m  except ...: h e]; a handler re-raises what it does not catch. *)
Definition try_except {A} (m : M A) (h : exn -> M A) : M A :=
  fun w => match m w with
           | (Ok a, w') => (Ok a, w')
           | (Raise e, w') => h e w'
           end.

Notation "'let*' x ':=' m 'in' k" := (bind m (fun x => k))
  (at level 10, x name, m at level 100, k at level 200, only parsing).
Notation "'let*' ' pat ':=' m 'in' k" := (bind m (fun x => match x with pat => k end))
  (at level 10, pat pattern, m at level 100, k at level 200, only parsing).

(** ** The primitives the script calls *)

Section Script.

Variable env : Env.

(** [subprocess.run(cmd, ..., timeout=...)]: the spawn is recorded, then
    the process completes, exceeds its timeout or cannot be started. *)
Definition subprocess_run (c : call) (behaviour : nat -> proc) : M (Z * string) :=
  fun w =>
    let w' := log_call c w in
    match behaviour (length (trace w)) with
    | Completed rc out => (Ok (rc, out), w')
    | Expired => (Raise TimeoutExpired, w')
    | SpawnFailed => (Raise FileNotFoundError, w')
    end.

(** [subprocess.run(['adb', 'pull', ...])]: as above, and the subprocess
    may have written (part of) the file before it ended. *)
Definition run_adb_pull (android_path local_path : string) : M (Z * string) :=
  fun w =>
    let '(p, written) := adb_pull env (length (trace w)) android_path local_path in
    let w' := match written with
              | Some sz => set_fs (<[local_path := RegFile sz]> (fs w)) w
              | None => w
              end in
    subprocess_run (AdbPull android_path local_path) (fun _ => p) w'.

Definition os_path_exists (p : string) : M bool :=
  fun w => (Ok (bool_decide (is_Some (fs w !! p))), w).

Definition os_path_getsize (p : string) : M N :=
  fun w => match fs w !! p with
           | Some (RegFile sz) | Some (Directory sz) => (Ok sz, w)
           | None => (Raise FileNotFoundError, w)
           end.

Definition os_remove (p : string) : M unit :=
  fun w => match fs w !! p with
           | Some (RegFile _) =>
               if bool_decide (p ∈ denied w) then (Raise PermissionError, w)
               else (Ok tt, set_fs (delete p (fs w)) w)
           | Some (Directory _) => (Raise IsADirectoryError, w)
           | None => (Raise FileNotFoundError, w)
           end.

(** The entry a directory path names: the operating system ignores
    trailing slashes ([mkdir("a/")] makes [a]). *)
Definition os_entry_key (p : string) : string :=
  if negb (PyStr.is_empty p) && PyStr.is_empty (PyStr.lstrip_slash p)
  then "/"
  else PyStr.rstrip_slash p.

(** The directory in which the entry [key] lives, when there is one: the
    working directory and the root [/] always exist. *)
Definition parent_entry (key : string) (w : World) : option entry :=
  let parent := OsPath.dirname key in
  if PyStr.is_empty (PyStr.lstrip_slash parent) then Some (Directory 4096)
  else fs w !! parent.

(** [os.mkdir(p)]: the path must be free and its parent a directory; the
    empty path names nothing. *)
Definition os_mkdir (p : string) : M unit :=
  fun w =>
    let key := os_entry_key p in
    if PyStr.is_empty key then (Raise FileNotFoundError, w)
    else
      match fs w !! key with
      | Some _ => (Raise FileExistsError, w)
      | None =>
          match parent_entry key w with
          | None => (Raise FileNotFoundError, w)
          | Some (RegFile _) => (Raise NotADirectoryError, w)
          | Some (Directory _) =>
              if bool_decide (key ∈ denied w) then (Raise PermissionError, w)
              else (Ok tt, set_fs (<[key := Directory 4096]> (fs w)) w)
          end
      end.

Definition os_path_isdir (p : string) : M bool :=
  fun w => (Ok (negb (PyStr.is_empty (os_entry_key p)) &&
                match fs w !! os_entry_key p with
                | Some (Directory _) => true
                | _ => false
                end), w).

(** The last statement of [os.makedirs]:
    [try: mkdir(name)  except OSError: if not path.isdir(name): raise]. *)
Definition mkdir_exist_ok (name : string) : M unit :=
  try_except (os_mkdir name)
    (fun e => let* isdir := os_path_isdir name in
              if isdir then ret tt else raise e).

(** [os.makedirs(name, exist_ok=True)], as the standard library defines
    it: the missing parent is made first, by a recursive call in which a
    [FileExistsError] is passed over.  [fuel] bounds the recursion; every
    call is on a shorter path, so the length of [name] is enough. *)
Definition makedirs_split (name : string) : string * string :=
  let '(head, tail) := OsPath.split name in
  if PyStr.is_empty tail then OsPath.split head else (head, tail).

Fixpoint makedirs (fuel : nat) (name : string) : M unit :=
  let '(head, tail) := makedirs_split name in
  let* ascend :=
    (if negb (PyStr.is_empty head) && negb (PyStr.is_empty tail)
     then let* present := os_path_exists head in ret (negb present)
     else ret false) in
  if ascend then
    match fuel with
    | O => mkdir_exist_ok name
    | S fuel' =>
        let* _ := try_except (makedirs fuel' head)
                    (fun e => match e with
                              | FileExistsError => ret tt
                              | _ => raise e
                              end) in
        if String.eqb tail "." then ret tt else mkdir_exist_ok name
    end
  else mkdir_exist_ok name.

Definition os_makedirs (p : string) : M unit := makedirs (String.length p) p.

(** [with open(PROGRESS_FILE, 'r') as f: json.load(f)]. *)
Definition read_progress_file : M json :=
  fun w => match pfile w with
           | Absent => (Raise FileNotFoundError, w)
           | Unreadable => (Raise PermissionError, w)
           | Malformed => (Raise JSONDecodeError, w)
           | Valid doc => (Ok doc, w)
           end.

(** [with open(PROGRESS_FILE, 'w') as f: json.dump(progress, f)].
    When the write fails after [open] has truncated the file, what is left
    is a proper prefix of the document, which [json.load] rejects. *)
Definition write_progress_file (progress : progress_t) : M unit :=
  fun w => if bool_decide (PROGRESS_FILE ∈ denied w) then
             if bool_decide (PROGRESS_FILE ∈ torn w)
             then (Raise OSError, set_pfile Malformed w)
             else (Raise PermissionError, w)
           else (Ok tt, set_pfile (Valid (dump progress)) w).

(** [with open(FILE_LIST, 'w') as f: ...]. *)
Definition write_file_list (files : list string) : M unit :=
  fun w => if bool_decide (FILE_LIST ∈ denied w) then
             if bool_decide (FILE_LIST ∈ torn w)
             then (Raise OSError, set_flist CutShort w)
             else (Raise PermissionError, w)
           else (Ok tt, set_flist (Lines files) w).

(** The value [json.load] returned, once [len(progress)] in the log message
    of line 103 has been evaluated: [len] is defined on objects, arrays and
    strings and raises [TypeError] on [null], booleans and numbers. *)
Definition py_len (doc : json) : M progress_t :=
  match doc with
  | JObj m => ret (PDict m)
  | JArr l => ret (PList l)
  | JStr s => ret (PStr s)
  | JNull | JBool _ | JNum _ => raise TypeError
  end.

Definition is_JStr (key : string) (doc : json) : bool :=
  match doc with
  | JStr s => String.eqb s key
  | _ => false
  end.

(** [android_path in progress]. *)
Definition py_in (android_path : string) (progress : progress_t) : bool :=
  match progress with
  | PDict m => bool_decide (is_Some (m !! android_path))
  | PList l => existsb (is_JStr android_path) l
  | PStr s => PyStr.contains android_path s
  end.

(** [progress[android_path] = record]. *)
Definition py_setitem (progress : progress_t) (android_path : string) (record : json)
  : result progress_t :=
  match progress with
  | PDict m => Ok (PDict (<[android_path := record]> m))
  | PList _ | PStr _ => Raise TypeError
  end.

(** ** The functions of [main.py] *)

Definition check_adb_connection : M bool :=
  try_except
    (let* '(returncode, stdout) := subprocess_run AdbDevices (adb_devices env) in
     if negb (returncode =? 0)%Z then ret false
     else
       let lines := PyStr.split PyStr.newline (PyStr.strip stdout) in
       if (length lines <=? 1)%nat || negb (PyStr.contains "device" stdout)
       then ret false
       else ret true)
    (fun e => ret false).

Definition get_all_files_from_device (path : string) : M (list string) :=
  try_except
    (let* '(returncode, stdout) := subprocess_run (AdbFind path) (fun n => adb_find env n path) in
     if negb (returncode =? 0)%Z then ret []
     else
       let files :=
         map PyStr.strip
             (filter (fun line => negb (PyStr.is_empty (PyStr.strip line)) = true)
                     (PyStr.splitlines stdout)) in
       let* _ := write_file_list files in
       ret files)
    (fun e => ret []).

Fixpoint create_dirs (files : list string) (created_dirs : gset string) : M (gset string) :=
  match files with
  | [] => ret created_dirs
  | file_path :: rest =>
      let local_dir := local_dir_of file_path in
      if bool_decide (local_dir ∈ created_dirs) then create_dirs rest created_dirs
      else
        let* created := try_except
                     (let* _ := os_makedirs local_dir in
                      ret ({[local_dir]} ∪ created_dirs))
                     (fun e => ret created_dirs) in
        create_dirs rest created
  end.

Definition create_local_directory_structure (files : list string) : M unit :=
  let* _ := create_dirs files ∅ in ret tt.

Definition load_progress : M progress_t :=
  let* present := (fun w => (Ok (negb (match pfile w with Absent => true | _ => false end)), w)) in
  if negb present then ret (PDict ∅)
  else
    try_except
      (let* doc := read_progress_file in
       py_len doc)
      (fun e => ret (PDict ∅)).

Definition save_progress (progress : progress_t) : M unit :=
  try_except (write_progress_file progress) (fun e => ret tt).

Definition get_file_size_on_device (file_path : string) : M (option N) :=
  try_except
    (let* '(returncode, stdout) := subprocess_run (AdbStat file_path) (fun n => adb_stat env n file_path) in
     if (returncode =? 0)%Z && PyStr.isdigit (PyStr.strip stdout)
     then match PyStr.int (PyStr.strip stdout) with
          | Some size => ret (Some size)
          | None => raise ValueError
          end
     else ret None)
    (fun e => ret None).

(** The body of the [try] block of [file_needs_backup] (lines 140-150):
    [Some false] stands for [return False], [None] for falling through. *)
Definition size_check (android_path local_path : string) : M (option bool) :=
  let* local_size := os_path_getsize local_path in
  let* device_size := get_file_size_on_device android_path in
  if bool_decide (Some local_size = device_size)
  then ret (Some false)
  else
    let* _ := os_remove local_path in
    ret None.

Definition file_needs_backup (android_path local_path : string) (progress : progress_t)
  : M bool :=
  let* guard := (if py_in android_path progress
                 then os_path_exists local_path
                 else ret false) in
  let* early := (if guard
                 then try_except (size_check android_path local_path)
                                 (fun e => ret None)
                 else ret None) in
  match early with
  | Some b => ret b
  | None => ret true
  end.

Definition pull_file (android_path local_path : string) : M bool :=
  try_except
    (let* '(returncode, _) := run_adb_pull android_path local_path in
     if negb (returncode =? 0)%Z then ret false
     else
       let* exists_locally := os_path_exists local_path in
       if negb exists_locally then ret false
       else ret true)
    (fun e =>
       match e with
       | TimeoutExpired =>
           let* exists_locally := os_path_exists local_path in
           let* _ := (if exists_locally
                      then try_except (os_remove local_path) (fun _ => ret tt)
                      else ret tt) in
           ret false
       | _ => ret false
       end).

(** ** The orchestrator *)

(** The local variables of [main] that the loop updates. *)
Record Locals : Type := mkLocals {
  progress : progress_t;
  processed_files : nat;
  successful_files : nat;
  skipped_files : nat;
  failed_files : nat
}.

(** How one iteration of the [for] loop ends. *)
Inductive step : Type :=
| Next
| Break
| Raised (e : exn).

(** How the [try: for ...] statement ends. *)
Inductive loop_exit : Type :=
| Exhausted
| Broke
| Caught (e : exn).

(** How [main] ends: the two early [return]s, an exception that leaves
    [main], or the final statistics. *)
Inductive outcome : Type :=
| ExitNoConnection
| ExitNoFiles
| Uncaught (e : exn)
| Summary (total_files : nat) (exit : loop_exit) (l : Locals).

(** Run [m] inside the loop body: an exception leaves the body with the
    locals as they are. *)
Definition within {A} (m : M A) (l : Locals) (w : World)
    (k : A -> World -> step * Locals * World) : step * Locals * World :=
  match m w with
  | (Ok a, w') => k a w'
  | (Raise e, w') => (Raised e, l, w')
  end.

Definition connection_check_due (l : Locals) : bool :=
  (processed_files l mod 10 =? 0)%nat && (0 <? processed_files l)%nat.

Definition count_skipped (l : Locals) : Locals :=
  mkLocals (progress l) (S (processed_files l)) (successful_files l)
           (S (skipped_files l)) (failed_files l).
Definition count_successful (p : progress_t) (l : Locals) : Locals :=
  mkLocals p (S (processed_files l)) (S (successful_files l))
           (skipped_files l) (failed_files l).
Definition count_failed (l : Locals) : Locals :=
  mkLocals (progress l) (S (processed_files l)) (successful_files l)
           (skipped_files l) (S (failed_files l)).
Definition with_progress (p : progress_t) (l : Locals) : Locals :=
  mkLocals p (processed_files l) (successful_files l) (skipped_files l) (failed_files l).

(** Lines 236-240: the liveness check at the head of the body; [false]
    leads to [break]. *)
Definition periodic_check (l : Locals) : M bool :=
  if connection_check_due l then check_adb_connection else ret true.

(** Lines 232-268: one iteration. *)
Definition loop_body (android_path : string) (l : Locals) (w : World)
  : step * Locals * World :=
  let local_path := local_path_of android_path in
  within (periodic_check l) l w
    (fun alive w1 =>
       if negb alive then (Break, l, w1)
       else
         within (file_needs_backup android_path local_path (progress l)) l w1
           (fun needed w2 =>
              if negb needed then (Next, count_skipped l, w2)
              else
                within (pull_file android_path local_path) l w2
                  (fun success w3 =>
                     if success then
                       let record :=
                         ProgressRecord (time_time env (length (trace w3))) local_path in
                       match py_setitem (progress l) android_path record with
                       | Raise e => (Raised e, l, w3)
                       | Ok progress' =>
                           within (save_progress progress') (with_progress progress' l) w3
                             (fun _ w4 => (Next, count_successful progress' l, w4))
                       end
                     else (Next, count_failed l, w3)))).

(** Lines 230-275: the loop inside its [try]. *)
Fixpoint run_loop (files : list string) (l : Locals) (w : World)
  : loop_exit * Locals * World :=
  match files with
  | [] => (Exhausted, l, w)
  | android_path :: rest =>
      match loop_body android_path l w with
      | (Next, l', w') => run_loop rest l' w'
      | (Break, l', w') => (Broke, l', w')
      | (Raised e, l', w') => (Caught e, l', w')
      end
  end.

Definition initial_locals (p : progress_t) : Locals := mkLocals p 0 0 0 0.

(** Run [m] at the top level of [main]: an exception leaves [main]. *)
Definition toplevel {A} (m : M A) (w : World)
    (k : A -> World -> outcome * World) : outcome * World :=
  match m w with
  | (Ok a, w') => k a w'
  | (Raise e, w') => (Uncaught e, w')
  end.

Definition main (w : World) : outcome * World :=
  toplevel check_adb_connection w (fun connected w1 =>
    if negb connected then (ExitNoConnection, w1)
    else
      toplevel (os_makedirs LOCAL_BACKUP_DIR) w1 (fun _ w2 =>
        toplevel (get_all_files_from_device ANDROID_ROOT) w2 (fun android_files w3 =>
          match android_files with
          | [] => (ExitNoFiles, w3)
          | _ =>
              toplevel (create_local_directory_structure android_files) w3 (fun _ w4 =>
                toplevel load_progress w4 (fun progress0 w5 =>
                  let total_files := length android_files in
                  let '(exit, l, w6) :=
                    run_loop android_files (initial_locals progress0) w5 in
                  (Summary total_files exit l, w6)))
          end))).

End Script.

Definition entry_size (e : entry) : N :=
  match e with
  | RegFile sz | Directory sz => sz
  end.

(** ** Concrete environments and worlds used in the examples below *)

Definition devices_attached : proc :=
  Completed 0 "List of devices attached
emulator-5554 device
".

(** A device that answers every command: it lists [listing], reports
    [size] for every file and delivers files of [pulled] bytes. *)
Definition steady_env (listing size : string) (pulled : N) : Env :=
  mkEnv (fun _ => devices_attached)
        (fun _ _ => Completed 0 listing)
        (fun _ _ => Completed 0 size)
        (fun _ _ _ => (Completed 0 "", Some pulled))
        (fun n => inject_Z (Z.of_nat n)).

Definition empty_world : World := mkWorld ∅ ∅ ∅ Absent None [].

(** A mirror holding a 3-byte copy of [/sdcard/a] that the operating
    system refuses to unlink, and a store that records [/sdcard/a]. *)
Definition stale_locked_world : World :=
  mkWorld {[ "android_backup/sdcard/a" := RegFile 3 ]}
          {[ "android_backup/sdcard/a" ]} ∅ Absent None [].

Definition recorded_a : progress_t :=
  PDict {[ "/sdcard/a" := ProgressRecord 0 "android_backup/sdcard/a" ]}.

(** The same mirror with a file that can be unlinked. *)
Definition stale_world : World :=
  mkWorld {[ "android_backup/sdcard/a" := RegFile 3 ]} ∅ ∅ Absent None [].

(** A device on which every [adb pull] exceeds its timeout, leaving
    [partial] at the local path. *)
Definition stalled_pull_env (partial : option N) : Env :=
  mkEnv (fun _ => devices_attached)
        (fun _ _ => Completed 0 "/sdcard/a")
        (fun _ _ => Completed 0 "5")
        (fun _ _ _ => (Expired, partial))
        (fun n => inject_Z (Z.of_nat n)).

(** The world in which [adb pull] has just run. *)
Definition after_pull (env : Env) (android_path local_path : string) (w : World) : World :=
  log_call (AdbPull android_path local_path)
    (match snd (adb_pull env (length (trace w)) android_path local_path) with
     | Some sz => set_fs (<[local_path := RegFile sz]> (fs w)) w
     | None => w
     end).

(** ** The paths through one iteration

    [iterates env android_path l w r]: the iteration for [android_path]
    started with locals [l] in world [w] ends as [r].  One constructor per
    path through lines 232-268. *)
Inductive iterates (env : Env) (android_path : string) (l : Locals) (w : World)
  : step * Locals * World -> Prop :=
| it_break w1 :
    periodic_check env l w = (Ok false, w1) ->
    iterates env android_path l w (Break, l, w1)
| it_skip w1 w2 :
    periodic_check env l w = (Ok true, w1) ->
    file_needs_backup env android_path (local_path_of android_path) (progress l) w1
      = (Ok false, w2) ->
    iterates env android_path l w (Next, count_skipped l, w2)
| it_failed w1 w2 w3 :
    periodic_check env l w = (Ok true, w1) ->
    file_needs_backup env android_path (local_path_of android_path) (progress l) w1
      = (Ok true, w2) ->
    pull_file env android_path (local_path_of android_path) w2 = (Ok false, w3) ->
    iterates env android_path l w (Next, count_failed l, w3)
| it_successful w1 w2 w3 progress' :
    periodic_check env l w = (Ok true, w1) ->
    file_needs_backup env android_path (local_path_of android_path) (progress l) w1
      = (Ok true, w2) ->
    pull_file env android_path (local_path_of android_path) w2 = (Ok true, w3) ->
    py_setitem (progress l) android_path
      (ProgressRecord (time_time env (length (trace w3))) (local_path_of android_path))
      = Ok progress' ->
    iterates env android_path l w
      (Next, count_successful progress' l, snd (save_progress progress' w3))
| it_raised w1 w2 w3 e :
    periodic_check env l w = (Ok true, w1) ->
    file_needs_backup env android_path (local_path_of android_path) (progress l) w1
      = (Ok true, w2) ->
    pull_file env android_path (local_path_of android_path) w2 = (Ok true, w3) ->
    py_setitem (progress l) android_path
      (ProgressRecord (time_time env (length (trace w3))) (local_path_of android_path))
      = Raise e ->
    iterates env android_path l w (Raised e, l, w3).

(** The configurations at the head of the loop: [boundary env files l w rest l' w']
    holds when the loop started on [files] with [l] in [w] reaches the head
    of an iteration (or the end of the list) with [rest] still to do. *)
Inductive boundary (env : Env) (files : list string) (l : Locals) (w : World)
  : list string -> Locals -> World -> Prop :=
| boundary_start : boundary env files l w files l w
| boundary_next android_path rest l1 w1 l2 w2 :
    boundary env files l w (android_path :: rest) l1 w1 ->
    loop_body env android_path l1 w1 = (Next, l2, w2) ->
    boundary env files l w rest l2 w2.

(** The counters of the final statistics add up. *)
Definition counters_consistent (total_files : nat) (l : Locals) : Prop :=
  (successful_files l + skipped_files l + failed_files l = processed_files l)%nat /\
  (processed_files l <= total_files)%nat.

(** A progress file that may not be opened for writing. *)
Definition write_protected_world : World :=
  mkWorld ∅ {[ PROGRESS_FILE ]} ∅ Absent None [].

(** Two worlds that differ at most in the local tree and the trace. *)
Definition same_store (w w' : World) : Prop :=
  denied w' = denied w /\ pfile w' = pfile w /\ flist w' = flist w /\ torn w' = torn w.

(** The files counted so far in one of the three ways. *)
Definition accounted (l : Locals) : nat :=
  (successful_files l + skipped_files l + failed_files l)%nat.

(** The subprocesses an iteration may spawn after its liveness check. *)
Definition transfer_call (android_path : string) (c : call) : Prop :=
  c = AdbStat android_path \/ c = AdbPull android_path (local_path_of android_path).

(** A working directory in which [android_backup] is a regular file. *)
Definition blocked_root_world : World :=
  mkWorld {[ LOCAL_BACKUP_DIR := RegFile 0 ]} ∅ ∅ Absent None [].

(** A computation that neither reads nor writes the progress file. *)
Definition ignores_pfile {A} (m : M A) : Prop :=
  forall s w, m (set_pfile s w) = (fst (m w), set_pfile s (snd (m w))).

(** Two results of a run that agree on everything except, possibly, the
    snapshot left on disk: the second world is the first with snapshot [s]. *)
Definition same_but_snapshot {A} (s : snapshot) (r r' : A * World) : Prop :=
  fst r' = fst r /\ (snd r' = snd r \/ snd r' = set_pfile s (snd r)).

(** ** The setting of the idempotence property

    A device that does not change between two runs: every connection check
    succeeds, the enumeration yields [files] (all under the remote root),
    the size query for a listed file yields [rsize], and a pull of a listed
    file completes and delivers a file of that size. *)
Record steady_device (env : Env) (files : list string) (rsize : string -> N) : Prop :=
  mk_steady_device {
    steady_connected : forall w, fst (check_adb_connection env w) = Ok true;
    steady_listing :
      forall w, FILE_LIST ∉ denied w ->
                fst (get_all_files_from_device env ANDROID_ROOT w) = Ok files;
    steady_sizes :
      forall w p, p ∈ files ->
                  fst (get_file_size_on_device env p w) = Ok (Some (rsize p));
    steady_pulls :
      forall n p local_path, p ∈ files ->
        exists out, adb_pull env n p local_path = (Completed 0 out, Some (rsize p));
    steady_under_root : forall p, p ∈ files -> exists r, p = ANDROID_ROOT +:+ r;
    steady_nonempty : files <> []
  }.

(** A working directory in which the run can keep its books: the progress
    file and the listing may be written, the snapshot (if any) loads as a
    dictionary, and the mirror root can be created. *)
Record usable_workdir (w : World) : Prop :=
  mk_usable_workdir {
    usable_progress : PROGRESS_FILE ∉ denied w;
    usable_listing : FILE_LIST ∉ denied w;
    usable_snapshot : exists m0, fst (load_progress w) = Ok (PDict m0);
    usable_root : fst (os_makedirs LOCAL_BACKUP_DIR w) = Ok tt
  }.

Definition no_pull (c : call) : Prop := forall a b, c <> AdbPull a b.

(** What the first run establishes for the files in [done]: they are
    recorded in a dictionary that is also what the snapshot on disk loads
    to, and each has a local entry of the remote size. *)
Definition mirrored (rsize : string -> N) (dset : gset string) (done : list string)
    (l : Locals) (w : World) : Prop :=
  (exists m, progress l = PDict m /\ forall p, p ∈ done -> is_Some (m !! p)) /\
  load_progress w = (Ok (progress l), w) /\
  (forall p, p ∈ done ->
     exists e, fs w !! local_path_of p = Some e /\ entry_size e = rsize p) /\
  denied w = dset /\
  (exists sz, fs w !! LOCAL_BACKUP_DIR = Some (Directory sz)).

(** What [load_progress] returns for each state of the progress file. *)
Definition loaded (s : snapshot) : progress_t :=
  match s with
  | Valid (JObj m) => PDict m
  | Valid (JArr l) => PList l
  | Valid (JStr s) => PStr s
  | _ => PDict ∅
  end.

(** ** What the device prints

    The first line of the output of [adb devices], and the decimal numeral
    that [stat -c %s] prints for a size. *)
Definition devices_header : string := "List of devices attached
".

Definition digit_char (d : N) : ascii := ascii_of_N (48 + d).

Fixpoint decimal_fuel (fuel : nat) (n : N) (acc : string) : string :=
  match fuel with
  | O => acc
  | S fuel' =>
      let acc' := String (digit_char (n mod 10)) acc in
      if n <? 10 then acc' else decimal_fuel fuel' (n / 10) acc'
  end.

Definition decimal (n : N) : string :=
  decimal_fuel (S (N.to_nat (N.log2 n))) n EmptyString.

(** The number of [adb pull] commands in a trace. *)
Definition is_pull (c : call) : bool :=
  match c with
  | AdbPull _ _ => true
  | _ => false
  end.

Fixpoint count_pulls (t : list call) : nat :=
  match t with
  | [] => 0%nat
  | c :: t' => ((if is_pull c then 1 else 0) + count_pulls t')%nat
  end.

(** What the loop may do to the progress value: a dictionary keeps every
    key, each entry either as it was or replaced by a record for the local
    path of its key; a value of another shape is never changed. *)
Definition grown (p0 p : progress_t) : Prop :=
  match p0, p with
  | PDict m0, PDict m =>
      forall k, m !! k = m0 !! k \/
                exists t, m !! k = Some (ProgressRecord t (local_path_of k))
  | _, _ => p = p0
  end.

(** How many transfers an iteration that ended by an exception made
    without counting them. *)
Definition raised_step (s : step) : nat :=
  match s with
  | Raised _ => 1%nat
  | Next | Break => 0%nat
  end.

(** The exception that ended the loop counts for one more transfer. *)
Definition uncounted (exit : loop_exit) : nat :=
  match exit with
  | Caught _ => 1%nat
  | Exhausted | Broke => 0%nat
  end.

(** A string that does not begin with a character satisfying [p]. *)
Definition clean_head (p : ascii -> bool) (s : string) : Prop :=
  match s with
  | String c _ => p c = false
  | EmptyString => True
  end.

(** A device that [adb devices] lists as offline; every other command
    exceeds its timeout. *)
Definition offline_device_env : Env :=
  mkEnv (fun _ => Completed 0 (devices_header +:+ "0123456789ABCDEF	offline
"))
        (fun _ _ => Expired) (fun _ _ => Expired) (fun _ _ _ => (Expired, None))
        (fun _ => 0%Q).

(** The locals [main] ended with, when it got to the statistics. *)
Definition final_locals (o : outcome) : Locals :=
  match o with
  | Summary _ _ l => l
  | _ => initial_locals (PDict ∅)
  end.


(** A working directory in which the listing file may not be written. *)
Definition listing_protected_world : World :=
  mkWorld ∅ {[ FILE_LIST ]} ∅ Absent None [].

(** What [os.makedirs] may do to a world: nothing but adding directories,
    each at a path that satisfies [P]. *)
Definition adds_dirs (P : string -> Prop) (w w' : World) : Prop :=
  same_store w w' /\ trace w' = trace w /\
  (forall k, is_Some (fs w !! k) -> fs w' !! k = fs w !! k) /\
  (forall k, fs w !! k = None ->
     fs w' !! k = None \/ (fs w' !! k = Some (Directory 4096) /\ P k)).

(** The paths [os.makedirs] goes through for [name]: [name] itself, its
    parent, the parent of that, and so on. *)
Fixpoint ancestors (fuel : nat) (name : string) : list string :=
  name ::
  (let '(head, tail) := makedirs_split name in
   if negb (PyStr.is_empty head) && negb (PyStr.is_empty tail) then
     match fuel with
     | O => []
     | S fuel' => ancestors fuel' head
     end
   else []).

(** Nothing stands in the way of [os.makedirs(name)]: on the way to [name]
    no path is a regular file, no creation is refused, and no component
    is [.]. *)
Definition clear_way (w : World) (name : string) : Prop :=
  forall a, a ∈ ancestors (String.length name) name ->
    (os_entry_key a ∉ denied w) /\
    (forall sz, fs w !! os_entry_key a <> Some (RegFile sz)) /\
    snd (makedirs_split a) <> ".".

(** A working directory in which the progress file can be opened for
    writing, but every write to it fails. *)
Definition full_disk_world : World :=
  mkWorld ∅ {[ PROGRESS_FILE ]} {[ PROGRESS_FILE ]} Absent None [].

(** * Properties *)

(** ** Unfolding computations *)

Arguments check_adb_connection : simpl never.
Arguments get_file_size_on_device : simpl never.
Arguments get_all_files_from_device : simpl never.
Arguments create_local_directory_structure : simpl never.
Arguments file_needs_backup : simpl never.
Arguments pull_file : simpl never.
Arguments save_progress : simpl never.
Arguments load_progress : simpl never.
Arguments os_remove : simpl never.
Arguments os_makedirs : simpl never.
Arguments loop_body : simpl never.
Arguments periodic_check : simpl never.
Arguments local_path_of : simpl never.

Ltac unfold_M := unfold bind, ret, raise, try_except in *.

Ltac case_step :=
  match goal with
  | |- context [match ?x with _ => _ end] =>
      lazymatch x with
      | context [match _ with _ => _ end] => fail
      | _ => destruct x eqn:?
      end
  | |- context [if ?x then _ else _] =>
      lazymatch x with
      | context [if _ then _ else _] => fail
      | _ => destruct x eqn:?
      end
  end.

(** ** The functions that catch every exception return a value *)

Lemma subprocess_run_world (c : call) (behaviour : nat -> proc) (w : World) :
  snd (subprocess_run c behaviour w) = log_call c w.
Proof. unfold subprocess_run. destruct (behaviour _); reflexivity. Qed.

Lemma check_adb_connection_returns (env : Env) (w : World) :
  exists b, check_adb_connection env w = (Ok b, log_call AdbDevices w).
Proof.
  unfold check_adb_connection, subprocess_run. unfold_M.
  destruct (adb_devices env _) as [rc out| |]; simpl; eauto.
  repeat case_step; eauto.
Qed.

Lemma get_file_size_on_device_returns (env : Env) (file_path : string) (w : World) :
  exists size,
    get_file_size_on_device env file_path w = (Ok size, log_call (AdbStat file_path) w).
Proof.
  unfold get_file_size_on_device, subprocess_run. unfold_M.
  destruct (adb_stat env _ _) as [rc out| |]; simpl; eauto.
  repeat case_step; eauto.
Qed.

Lemma save_progress_returns (p : progress_t) (w : World) :
  save_progress p w =
    (Ok tt, if bool_decide (PROGRESS_FILE ∈ denied w) then
              if bool_decide (PROGRESS_FILE ∈ torn w) then set_pfile Malformed w else w
            else set_pfile (Valid (dump p)) w).
Proof.
  unfold save_progress, write_progress_file. unfold_M.
  destruct (bool_decide (PROGRESS_FILE ∈ denied w)); [|reflexivity].
  destruct (bool_decide (PROGRESS_FILE ∈ torn w)); reflexivity.
Qed.

Lemma load_progress_returns (w : World) :
  exists p, load_progress w = (Ok p, w).
Proof.
  unfold load_progress, read_progress_file, py_len. unfold_M.
  destruct (pfile w) as [| | |doc] eqn:E; simpl; rewrite ?E; simpl; eauto.
  destruct doc; simpl; eauto.
Qed.

Lemma load_progress_loaded (w : World) :
  load_progress w = (Ok (loaded (pfile w)), w).
Proof.
  unfold load_progress, read_progress_file, py_len. unfold_M.
  destruct (pfile w) as [| | |doc] eqn:E; simpl; rewrite ?E; simpl; try reflexivity.
  destruct doc; reflexivity.
Qed.

Lemma os_remove_cases (p : string) (w : World) :
  os_remove p w =
    match fs w !! p with
    | Some (RegFile _) =>
        if bool_decide (p ∈ denied w) then (Raise PermissionError, w)
        else (Ok tt, set_fs (delete p (fs w)) w)
    | Some (Directory _) => (Raise IsADirectoryError, w)
    | None => (Raise FileNotFoundError, w)
    end.
Proof. reflexivity. Qed.

(** ** The sync decision engine *)

Lemma file_needs_backup_unrecorded (env : Env) (android_path local_path : string)
    (progress : progress_t) (w : World) :
  py_in android_path progress = false ->
  file_needs_backup env android_path local_path progress w = (Ok true, w).
Proof.
  intros H. unfold file_needs_backup, os_path_exists. unfold_M.
  rewrite H. reflexivity.
Qed.

Lemma file_needs_backup_missing (env : Env) (android_path local_path : string)
    (progress : progress_t) (w : World) :
  fs w !! local_path = None ->
  file_needs_backup env android_path local_path progress w = (Ok true, w).
Proof.
  intros H. unfold file_needs_backup, os_path_exists. unfold_M.
  destruct (py_in android_path progress); [|reflexivity].
  rewrite H. rewrite bool_decide_eq_false_2 by (intros [? ?]; discriminate).
  reflexivity.
Qed.

Lemma file_needs_backup_checked (env : Env) (android_path local_path : string)
    (progress : progress_t) (w : World) (e : entry) (device_size : option N) :
  py_in android_path progress = true ->
  fs w !! local_path = Some e ->
  get_file_size_on_device env android_path w
    = (Ok device_size, log_call (AdbStat android_path) w) ->
  file_needs_backup env android_path local_path progress w =
    if bool_decide (Some (entry_size e) = device_size)
    then (Ok false, log_call (AdbStat android_path) w)
    else (Ok true, snd (os_remove local_path (log_call (AdbStat android_path) w))).
Proof.
  intros Hin Hfs Hsz. unfold file_needs_backup, os_path_exists, size_check, os_path_getsize.
  unfold_M. rewrite Hin, Hfs.
  rewrite bool_decide_eq_true_2 by eauto. simpl.
  destruct e; simpl; rewrite Hfs; simpl; rewrite Hsz;
    destruct (bool_decide _); try reflexivity;
    destruct (os_remove _ _) as [[[]|x] w2]; reflexivity.
Qed.

(** C1 (as amended).  [file_needs_backup] answers true and touches nothing
    when the remote path is not in the progress value or nothing exists at
    the local path.  Otherwise it spawns the remote size query; it answers
    false exactly when that query yields a size equal to the local size; on
    an unequal or unobtainable size it answers true after calling
    [os.remove], which deletes the local file unless the removal raises
    (a path that may not be unlinked, or a directory), in which case the
    entry stays. *)
Theorem file_needs_backup_decision (env : Env) (android_path local_path : string)
    (progress : progress_t) (w : World) :
  exists (b : bool) (w' : World),
    file_needs_backup env android_path local_path progress w = (Ok b, w') /\
    (py_in android_path progress = false \/ fs w !! local_path = None ->
       b = true /\ w' = w) /\
    (forall e, py_in android_path progress = true -> fs w !! local_path = Some e ->
       let w1 := log_call (AdbStat android_path) w in
       exists device_size,
         get_file_size_on_device env android_path w = (Ok device_size, w1) /\
         (b = false <-> device_size = Some (entry_size e)) /\
         (b = false -> w' = w1) /\
         (b = true ->
            match e with
            | RegFile _ =>
                if bool_decide (local_path ∈ denied w) then w' = w1
                else w' = set_fs (delete local_path (fs w)) w1
            | Directory _ => w' = w1
            end)).
Proof.
  destruct (py_in android_path progress) eqn:Hin.
  2:{ exists true, w. rewrite file_needs_backup_unrecorded by assumption.
      repeat split; intros; discriminate. }
  destruct (fs w !! local_path) as [e|] eqn:Hfs.
  2:{ exists true, w. rewrite file_needs_backup_missing by assumption.
      repeat split; intros; discriminate. }
  destruct (get_file_size_on_device_returns env android_path w) as [dsz Hsz].
  rewrite (file_needs_backup_checked env _ _ _ _ e dsz Hin Hfs Hsz).
  destruct (bool_decide (Some (entry_size e) = dsz)) eqn:Heq.
  - apply bool_decide_eq_true_1 in Heq. eexists _, _. split; [reflexivity|].
    split; [intros [?|?]; discriminate|].
    intros e' _ He'. injection He' as <-. exists dsz. repeat split; auto; discriminate.
  - apply bool_decide_eq_false_1 in Heq. eexists _, _. split; [reflexivity|].
    split; [intros [?|?]; discriminate|].
    intros e' _ He'. injection He' as <-. exists dsz.
    split; [assumption|]. split; [split; [discriminate | intros ->; contradiction]|].
    split; [discriminate|]. intros _.
    rewrite os_remove_cases. simpl. rewrite Hfs.
    destruct e; [destruct (bool_decide _)|]; reflexivity.
Qed.

(** C1, the claim as written fails: with a recorded path, an existing local
    copy of 3 bytes that may not be unlinked and a remote size of 5, the
    answer is true but the local file is still there afterwards. *)
Lemma file_needs_backup_keeps_undeletable :
  let env := steady_env "/sdcard/a" "5" 5 in
  let local_path := "android_backup/sdcard/a" in
  let r := file_needs_backup env "/sdcard/a" local_path recorded_a stale_locked_world in
  py_in "/sdcard/a" recorded_a = true /\
  fs stale_locked_world !! local_path = Some (RegFile 3) /\
  fst (get_file_size_on_device env "/sdcard/a" stale_locked_world) = Ok (Some 5) /\
  fst r = Ok true /\
  fs (snd r) !! local_path = Some (RegFile 3).
Proof. vm_compute. repeat split. Qed.

(** C9.  [file_needs_backup] always returns a boolean, never an exception;
    whenever the guarded block (local size, remote size query, comparison,
    removal) raises, the answer is true; in particular when the removal of
    a mismatched local entry raises, the answer is true and the entry is
    still in place. *)
Theorem file_needs_backup_total (env : Env) (android_path local_path : string)
    (progress : progress_t) (w : World) :
  exists (b : bool) (w' : World),
    file_needs_backup env android_path local_path progress w = (Ok b, w') /\
    (forall x w1,
       py_in android_path progress = true -> is_Some (fs w !! local_path) ->
       size_check env android_path local_path w = (Raise x, w1) ->
       b = true /\ w' = w1) /\
    (forall x w1,
       py_in android_path progress = true -> is_Some (fs w !! local_path) ->
       fst (get_file_size_on_device env android_path w) <>
         Ok (entry_size <$> fs w !! local_path) ->
       os_remove local_path (log_call (AdbStat android_path) w) = (Raise x, w1) ->
       b = true /\ fs w' !! local_path = fs w !! local_path).
Proof.
  destruct (py_in android_path progress) eqn:Hin.
  2:{ exists true, w. rewrite file_needs_backup_unrecorded by assumption.
      repeat split; intros; discriminate. }
  destruct (fs w !! local_path) as [e|] eqn:Hfs.
  2:{ exists true, w. rewrite file_needs_backup_missing by assumption.
      split; [reflexivity|]. split; intros ? ? _ [? ?]; discriminate. }
  destruct (get_file_size_on_device_returns env android_path w) as [dsz Hsz].
  rewrite (file_needs_backup_checked env _ _ _ _ e dsz Hin Hfs Hsz).
  assert (Hbody : size_check env android_path local_path w =
            if bool_decide (Some (entry_size e) = dsz)
            then (Ok (Some false), log_call (AdbStat android_path) w)
            else match os_remove local_path (log_call (AdbStat android_path) w) with
                 | (Ok _, w2) => (Ok None, w2)
                 | (Raise x, w2) => (Raise x, w2)
                 end).
  { unfold size_check, os_path_getsize. unfold_M. rewrite Hfs.
    destruct e; simpl; rewrite Hsz; destruct (bool_decide _); reflexivity. }
  rewrite Hsz. simpl.
  destruct (bool_decide (Some (entry_size e) = dsz)) eqn:Heq.
  - apply bool_decide_eq_true_1 in Heq. eexists _, _. split; [reflexivity|]. split.
    + intros x w1 _ _ Hr. rewrite Hbody in Hr. discriminate.
    + intros x w1 _ _ Hne. subst dsz. contradiction.
  - eexists _, _. split; [reflexivity|]. split.
    + intros x w1 _ _ Hr. rewrite Hbody in Hr.
      destruct (os_remove _ _) as [[[]|y] w2]; inversion Hr; subst; auto.
    + intros x w1 _ _ _ Hr. rewrite Hr. simpl. split; [reflexivity|].
      rewrite os_remove_cases in Hr. simpl in Hr. rewrite Hfs in Hr.
      destruct e; [destruct (bool_decide (local_path ∈ denied w))|];
        inversion Hr; subst; simpl; assumption.
Qed.

(** ** Path conversion *)

Lemma lstrip_slash_no_leading_slash (s : string) :
  OsPath.startswith_slash (PyStr.lstrip_slash s) = false.
Proof.
  unfold PyStr.lstrip_slash. induction s as [|c s IH]; [reflexivity|].
  cbn [PyStr.lstrip_by]. destruct (Ascii.eqb PyStr.slash c) eqn:E; [exact IH|].
  cbn [OsPath.startswith_slash]. rewrite Ascii.eqb_sym. exact E.
Qed.

Lemma local_path_under_root (rest : string) :
  local_path_of (ANDROID_ROOT +:+ rest) = "android_backup/sdcard/" +:+ rest.
Proof.
  unfold local_path_of, rel_path_of, OsPath.join.
  rewrite lstrip_slash_no_leading_slash. reflexivity.
Qed.

Lemma local_path_under_root_inj (p q : string) :
  (exists r, p = ANDROID_ROOT +:+ r) -> (exists r, q = ANDROID_ROOT +:+ r) ->
  local_path_of p = local_path_of q -> p = q.
Proof.
  intros [r ->] [r' ->]. rewrite !local_path_under_root. intros H.
  cbn in H. simplify_eq. reflexivity.
Qed.

Lemma local_path_not_root (p : string) :
  (exists r, p = ANDROID_ROOT +:+ r) -> local_path_of p <> LOCAL_BACKUP_DIR.
Proof. intros [r ->]. rewrite local_path_under_root. cbn. intros H. simplify_eq. Qed.

(** C5 (as amended).  The local path is a function of the remote path
    alone: the remote path without its leading slashes, joined under the
    local mirror root.  The remote root prefix [/sdcard/] is not removed:
    its directory name stays as the first component under the mirror root. *)
Theorem local_path_derivation (android_path rest : string) :
  local_path_of android_path =
    LOCAL_BACKUP_DIR +:+ "/" +:+ PyStr.lstrip_slash android_path /\
  local_path_of (ANDROID_ROOT +:+ rest) = "android_backup/sdcard/" +:+ rest.
Proof.
  split.
  - unfold local_path_of, rel_path_of, OsPath.join.
    rewrite lstrip_slash_no_leading_slash. reflexivity.
  - apply local_path_under_root.
Qed.

(** C5, the claim as written fails: for [/sdcard/a.txt] the script mirrors
    to [android_backup/sdcard/a.txt], while stripping the remote root prefix
    and reparenting the remainder gives [android_backup/a.txt]. *)
Lemma local_path_keeps_remote_root :
  local_path_of "/sdcard/a.txt" = "android_backup/sdcard/a.txt" /\
  spec_local_path "/sdcard/a.txt" = "android_backup/a.txt" /\
  local_path_of "/sdcard/a.txt" <> spec_local_path "/sdcard/a.txt".
Proof. repeat split. discriminate. Qed.

(** ** The transfer executor *)

Lemma run_adb_pull_world (env : Env) (android_path local_path : string) (w : World) :
  snd (run_adb_pull env android_path local_path w) = after_pull env android_path local_path w.
Proof.
  unfold run_adb_pull, after_pull.
  destruct (adb_pull env _ _ _) as [p written]. rewrite subprocess_run_world.
  destruct written; reflexivity.
Qed.

Lemma run_adb_pull_result (env : Env) (android_path local_path : string) (w : World) :
  fst (run_adb_pull env android_path local_path w) =
    match fst (adb_pull env (length (trace w)) android_path local_path) with
    | Completed rc out => Ok (rc, out)
    | Expired => Raise TimeoutExpired
    | SpawnFailed => Raise FileNotFoundError
    end.
Proof.
  unfold run_adb_pull, subprocess_run.
  destruct (adb_pull env _ _ _) as [[rc out| |] written]; reflexivity.
Qed.

(** What [pull_file] does, case by case. *)
Lemma pull_file_cases (env : Env) (android_path local_path : string) (w : World) :
  let w1 := after_pull env android_path local_path w in
  pull_file env android_path local_path w =
    match fst (adb_pull env (length (trace w)) android_path local_path) with
    | Completed rc _ =>
        (Ok ((rc =? 0)%Z && bool_decide (is_Some (fs w1 !! local_path))), w1)
    | Expired =>
        (Ok false,
         match fs w1 !! local_path with
         | Some _ => snd (os_remove local_path w1)
         | None => w1
         end)
    | SpawnFailed => (Ok false, w1)
    end.
Proof.
  intros w1. unfold pull_file. unfold_M.
  pose proof (run_adb_pull_world env android_path local_path w) as Hw.
  pose proof (run_adb_pull_result env android_path local_path w) as Hr.
  destruct (run_adb_pull env android_path local_path w) as [r w1'].
  simpl in Hw, Hr. subst w1' r. fold w1. clearbody w1.
  destruct (fst (adb_pull env _ _ _)) as [rc out| |]; simpl.
  - destruct (rc =? 0)%Z; simpl; [|reflexivity].
    unfold os_path_exists. destruct (bool_decide _); reflexivity.
  - unfold os_path_exists.
    destruct (fs w1 !! local_path) as [e|] eqn:Hfs.
    + rewrite bool_decide_eq_true_2 by eauto.
      destruct (os_remove local_path w1) as [[[]|x] w2]; reflexivity.
    + rewrite bool_decide_eq_false_2 by (intros [? ?]; discriminate). reflexivity.
  - reflexivity.
Qed.

(** C3 (as amended).  When [adb pull] exceeds its timeout, [pull_file]
    returns failure.  Afterwards nothing exists at the local path provided
    the removal is not refused (the path may be unlinked and holds no
    directory); when the path may not be unlinked the error is swallowed
    and what the subprocess left there stays. *)
Theorem pull_file_timeout (env : Env) (android_path local_path : string) (w : World)
    (H : fst (adb_pull env (length (trace w)) android_path local_path) = Expired) :
  let w1 := after_pull env android_path local_path w in
  exists w',
    pull_file env android_path local_path w = (Ok false, w') /\
    (local_path ∉ denied w -> (forall sz, fs w1 !! local_path <> Some (Directory sz)) ->
       fs w' !! local_path = None) /\
    (local_path ∈ denied w -> w' = w1).
Proof.
  intros w1. rewrite pull_file_cases. rewrite H. fold w1.
  assert (Hd : denied w1 = denied w).
  { unfold w1, after_pull. destruct (snd _); reflexivity. }
  eexists. split; [reflexivity|].
  destruct (fs w1 !! local_path) as [e|] eqn:Hfs.
  - rewrite os_remove_cases, Hfs, Hd. destruct e as [sz|sz].
    + split; intros Hin.
      * intros _. rewrite bool_decide_eq_false_2 by assumption.
        simpl. apply lookup_delete_eq.
      * rewrite bool_decide_eq_true_2 by assumption. reflexivity.
    + split; intros Hin; [|reflexivity]. intros Hnd. exfalso. exact (Hnd sz eq_refl).
  - split; intros; [assumption|reflexivity].
Qed.

Lemma pull_file_timeout_witness :
  fst (pull_file (stalled_pull_env (Some 2)) "/sdcard/a" "android_backup/sdcard/a"
         empty_world) = Ok false /\
  fs (after_pull (stalled_pull_env (Some 2)) "/sdcard/a" "android_backup/sdcard/a"
        empty_world) !! "android_backup/sdcard/a" = Some (RegFile 2) /\
  fs (snd (pull_file (stalled_pull_env (Some 2)) "/sdcard/a" "android_backup/sdcard/a"
             empty_world)) !! "android_backup/sdcard/a" = None.
Proof.
  destruct (pull_file_timeout (stalled_pull_env (Some 2)) "/sdcard/a"
              "android_backup/sdcard/a" empty_world eq_refl) as [w' [E [Hgone _]]].
  rewrite E. split; [reflexivity|]. split; [reflexivity|].
  apply Hgone.
  - vm_compute. discriminate.
  - intros sz. vm_compute. discriminate.
Defined.

(** C3, the claim as written fails: the pull times out after overwriting a
    local file that may not be unlinked with 2 bytes; [pull_file] returns
    failure and the partial file is still there. *)
Lemma pull_file_timeout_leaves_undeletable :
  let env := stalled_pull_env (Some 2) in
  let r := pull_file env "/sdcard/a" "android_backup/sdcard/a" stale_locked_world in
  fst (adb_pull env 0 "/sdcard/a" "android_backup/sdcard/a") = Expired /\
  fst r = Ok false /\
  fs (snd r) !! "android_backup/sdcard/a" = Some (RegFile 2).
Proof. vm_compute. repeat split. Qed.

(** ** Frame properties: what each function leaves alone *)

Lemma same_store_refl (w : World) : same_store w w.
Proof. repeat split. Qed.

Lemma same_store_trans (w1 w2 w3 : World) :
  same_store w1 w2 -> same_store w2 w3 -> same_store w1 w3.
Proof. unfold same_store. intros (? & ? & ? & ?) (? & ? & ? & ?). repeat split; congruence. Qed.

Lemma os_remove_frame (p : string) (w : World) :
  same_store w (snd (os_remove p w)) /\ trace (snd (os_remove p w)) = trace w.
Proof.
  rewrite os_remove_cases.
  destruct (fs w !! p) as [[?|?]|]; [destruct (bool_decide _)| |]; repeat split.
Qed.

Lemma periodic_check_returns (env : Env) (l : Locals) (w : World) :
  exists alive,
    periodic_check env l w
      = (Ok alive, if connection_check_due l then log_call AdbDevices w else w) /\
    (connection_check_due l = false -> alive = true).
Proof.
  unfold periodic_check. destruct (connection_check_due l).
  - destruct (check_adb_connection_returns env w) as [b Hb]. exists b. split; [exact Hb|].
    discriminate.
  - exists true. split; reflexivity.
Qed.

Lemma file_needs_backup_returns (env : Env) (android_path local_path : string)
    (progress : progress_t) (w : World) :
  exists (b : bool) (w' : World),
    file_needs_backup env android_path local_path progress w = (Ok b, w') /\
    same_store w w' /\
    (trace w' = trace w \/ trace w' = AdbStat android_path :: trace w).
Proof.
  destruct (py_in android_path progress) eqn:Hin.
  2:{ exists true, w. rewrite file_needs_backup_unrecorded by assumption.
      split; [reflexivity|]. split; [apply same_store_refl|]. left; reflexivity. }
  destruct (fs w !! local_path) as [e|] eqn:Hfs.
  2:{ exists true, w. rewrite file_needs_backup_missing by assumption.
      split; [reflexivity|]. split; [apply same_store_refl|]. left; reflexivity. }
  destruct (get_file_size_on_device_returns env android_path w) as [dsz Hsz].
  rewrite (file_needs_backup_checked env _ _ _ _ e dsz Hin Hfs Hsz).
  destruct (bool_decide _); eexists _, _; (split; [reflexivity|]).
  - split; [repeat split|]. right; reflexivity.
  - destruct (os_remove_frame local_path (log_call (AdbStat android_path) w)) as [Hs Ht].
    split; [exact Hs|]. right. rewrite Ht. reflexivity.
Qed.

Lemma after_pull_frame (env : Env) (android_path local_path : string) (w : World) :
  same_store w (after_pull env android_path local_path w) /\
  trace (after_pull env android_path local_path w)
    = AdbPull android_path local_path :: trace w.
Proof. unfold after_pull. destruct (snd _); repeat split. Qed.

Lemma pull_file_returns (env : Env) (android_path local_path : string) (w : World) :
  exists (b : bool) (w' : World),
    pull_file env android_path local_path w = (Ok b, w') /\
    same_store w w' /\
    trace w' = AdbPull android_path local_path :: trace w.
Proof.
  rewrite pull_file_cases.
  destruct (after_pull_frame env android_path local_path w) as [Hs Ht].
  destruct (fst (adb_pull env _ _ _)) as [rc out| |]; eexists _, _;
    (split; [reflexivity|]); try (split; assumption).
  destruct (fs _ !! local_path); [|split; assumption].
  destruct (os_remove_frame local_path (after_pull env android_path local_path w))
    as [Hs' Ht'].
  split; [eapply same_store_trans; eassumption|]. rewrite Ht'. exact Ht.
Qed.

(** ** One iteration of the loop *)

Lemma loop_body_iterates (env : Env) (android_path : string) (l : Locals) (w : World) :
  iterates env android_path l w (loop_body env android_path l w).
Proof.
  unfold loop_body, within.
  destruct (periodic_check_returns env l w) as [alive [Hc _]].
  rewrite Hc. destruct alive; simpl; [|apply it_break; assumption].
  set (w1 := if connection_check_due l then log_call AdbDevices w else w) in *.
  destruct (file_needs_backup_returns env android_path (local_path_of android_path)
              (progress l) w1) as [needed [w2 [Hn _]]].
  rewrite Hn. destruct needed; simpl; [|eapply it_skip; eassumption].
  destruct (pull_file_returns env android_path (local_path_of android_path) w2)
    as [success [w3 [Hp _]]].
  rewrite Hp. destruct success; simpl; [|eapply it_failed; eassumption].
  destruct (py_setitem _ _ _) as [progress'|e] eqn:Hset.
  - rewrite save_progress_returns.
    pose proof (it_successful env android_path l w _ _ _ _ Hc Hn Hp Hset) as Hit.
    rewrite save_progress_returns in Hit. exact Hit.
  - eapply it_raised; eassumption.
Qed.

(** C2 (as amended).  In an iteration that reaches [pull_file] with a
    progress value that is a dictionary: when the pull succeeds, the record
    (completed, the clock reading, the local path) is stored under the
    remote path, the file counts as successful and [save_progress] is called
    at once with the whole dictionary, which replaces the snapshot on disk
    unless the write raises; the error is swallowed, and the file stays as
    it was when it could not be opened, or is left cut short and
    unparsable when the write failed after it was opened; when the pull
    fails, the file counts as failed and neither the dictionary nor the
    snapshot on disk changes. *)
Theorem transfer_updates_progress (env : Env) (android_path : string) (l : Locals)
    (w w1 w2 w3 : World) (success : bool) (m : gmap string json)
    (Hcheck : periodic_check env l w = (Ok true, w1))
    (Hneeded : file_needs_backup env android_path (local_path_of android_path)
                 (progress l) w1 = (Ok true, w2))
    (Hpull : pull_file env android_path (local_path_of android_path) w2 = (Ok success, w3))
    (Hdict : progress l = PDict m) :
  let record :=
    ProgressRecord (time_time env (length (trace w3))) (local_path_of android_path) in
  if success then
    loop_body env android_path l w =
      (Next, count_successful (PDict (<[android_path := record]> m)) l,
       if bool_decide (PROGRESS_FILE ∈ denied w) then
         if bool_decide (PROGRESS_FILE ∈ torn w) then set_pfile Malformed w3 else w3
       else set_pfile (Valid (JObj (<[android_path := record]> m))) w3)
  else
    loop_body env android_path l w = (Next, count_failed l, w3) /\
    progress (count_failed l) = PDict m /\
    pfile w3 = pfile w.
Proof.
  intros record.
  assert (Hstore : same_store w w3).
  { destruct (periodic_check_returns env l w) as [a [Ha _]].
    rewrite Ha in Hcheck. injection Hcheck as _ <-.
    destruct (file_needs_backup_returns env android_path (local_path_of android_path)
                (progress l) (if connection_check_due l then log_call AdbDevices w else w))
      as [b [w2' [Hb [Hs2 _]]]].
    rewrite Hb in Hneeded. injection Hneeded as _ <-.
    destruct (pull_file_returns env android_path (local_path_of android_path) w2')
      as [c [w3' [Hc [Hs3 _]]]].
    rewrite Hc in Hpull. injection Hpull as _ <-.
    eapply same_store_trans; [|exact Hs3]. eapply same_store_trans; [|exact Hs2].
    destruct (connection_check_due l); repeat split. }
  destruct Hstore as (Hden & Hpf & _ & Htorn).
  pose proof (loop_body_iterates env android_path l w) as Hit.
  inversion Hit as [w1' Hc' | w1' w2' Hc' Hn' | w1' w2' w3' Hc' Hn' Hp'
                    | w1' w2' w3' p' Hc' Hn' Hp' Hset | w1' w2' w3' e Hc' Hn' Hp' Hset];
    rewrite Hcheck in Hc'; try discriminate; injection Hc' as <-;
    rewrite Hneeded in Hn'; try discriminate; injection Hn' as <-;
    rewrite Hpull in Hp'; injection Hp' as -> <-.
  - repeat split. exact Hdict. exact Hpf.
  - rewrite Hdict in Hset. simpl in Hset. injection Hset as <-.
    rewrite save_progress_returns. rewrite Hden, Htorn. reflexivity.
  - rewrite Hdict in Hset. discriminate.
Qed.

Lemma transfer_updates_progress_witness :
  loop_body (steady_env "/sdcard/a" "5" 5) "/sdcard/a" (initial_locals (PDict ∅)) empty_world
  = (Next,
     count_successful
       (PDict (<["/sdcard/a" := ProgressRecord 1 "android_backup/sdcard/a"]> ∅))
       (initial_locals (PDict ∅)),
     set_pfile
       (Valid (JObj (<["/sdcard/a" := ProgressRecord 1 "android_backup/sdcard/a"]> ∅)))
       (after_pull (steady_env "/sdcard/a" "5" 5) "/sdcard/a" "android_backup/sdcard/a"
          empty_world)).
Proof.
  exact (transfer_updates_progress (steady_env "/sdcard/a" "5" 5) "/sdcard/a"
           (initial_locals (PDict ∅)) empty_world empty_world empty_world
           (after_pull (steady_env "/sdcard/a" "5" 5) "/sdcard/a" "android_backup/sdcard/a"
              empty_world)
           true ∅ eq_refl eq_refl eq_refl eq_refl).
Defined.

(** C2, the claim as written fails: the pull succeeds and the record is
    stored in memory, but the progress file cannot be opened for writing, so nothing
    is persisted: the snapshot on disk is still absent after the iteration. *)
Lemma transfer_not_persisted_when_write_fails :
  let env := steady_env "/sdcard/a" "5" 5 in
  let r := loop_body env "/sdcard/a" (initial_locals (PDict ∅)) write_protected_world in
  fst (pull_file env "/sdcard/a" (local_path_of "/sdcard/a") write_protected_world)
    = Ok true /\
  fst (fst r) = Next /\
  successful_files (snd (fst r)) = 1%nat /\
  py_in "/sdcard/a" (progress (snd (fst r))) = true /\
  pfile (snd r) = Absent.
Proof. vm_compute. repeat split. Qed.

(** ** The loop *)

Lemma iterates_counters (env : Env) (android_path : string) (l l' : Locals)
    (w w' : World) (s : step) :
  iterates env android_path l w (s, l', w') ->
  match s with
  | Next => processed_files l' = S (processed_files l) /\ accounted l' = S (accounted l)
  | Break | Raised _ => l' = l
  end.
Proof.
  unfold accounted. intros H. inversion H; subst; simpl; try reflexivity; split; lia.
Qed.

Lemma run_loop_boundary (env : Env) (files rest : list string) (l l1 : Locals)
    (w w1 : World) :
  boundary env files l w rest l1 w1 ->
  run_loop env files l w = run_loop env rest l1 w1.
Proof.
  induction 1 as [|p rest l1 w1 l2 w2 Hb IH Hstep]; [reflexivity|].
  rewrite IH. simpl. rewrite Hstep. reflexivity.
Qed.

(** The loop ends at a boundary: either the list is exhausted there, or
    the iteration started there breaks or raises, leaving the locals as
    they were. *)
Lemma run_loop_final (env : Env) (files : list string) (l : Locals) (w : World) :
  forall rest l1 w1,
    boundary env files l w rest l1 w1 ->
    exists rest' l2 w2,
      boundary env files l w rest' l2 w2 /\
      match run_loop env rest l1 w1 with
      | (Exhausted, l', w') => rest' = [] /\ l' = l2 /\ w' = w2
      | (Broke, l', w') =>
          l' = l2 /\ exists p r, rest' = p :: r /\ loop_body env p l2 w2 = (Break, l2, w')
      | (Caught e, l', w') =>
          l' = l2 /\ exists p r, rest' = p :: r /\ loop_body env p l2 w2 = (Raised e, l2, w')
      end.
Proof.
  induction rest as [|p rest IH]; intros l1 w1 Hb.
  - exists [], l1, w1. split; [assumption|]. simpl. auto.
  - simpl. pose proof (loop_body_iterates env p l1 w1) as Hit.
    destruct (loop_body env p l1 w1) as [[s l2] w2] eqn:Hstep.
    pose proof (iterates_counters _ _ _ _ _ _ _ Hit) as Hc.
    destruct s as [| |e].
    + apply IH. eapply boundary_next; eassumption.
    + subst l2. exists (p :: rest), l1, w1. split; [assumption|].
      split; [reflexivity|]. eauto.
    + subst l2. exists (p :: rest), l1, w1. split; [assumption|].
      split; [reflexivity|]. eauto.
Qed.

Lemma boundary_counters (env : Env) (files rest : list string) (l l1 : Locals)
    (w w1 : World) :
  boundary env files l w rest l1 w1 ->
  (processed_files l1 + length rest = processed_files l + length files)%nat /\
  (accounted l1 + length rest = accounted l + length files)%nat.
Proof.
  induction 1 as [|p rest l1 w1 l2 w2 Hb [IH1 IH2] Hstep]; [split; reflexivity|].
  pose proof (loop_body_iterates env p l1 w1) as Hit. rewrite Hstep in Hit.
  apply iterates_counters in Hit. destruct Hit as [Hp Ha]. simpl in IH1, IH2. lia.
Qed.

(** [main] prints its statistics exactly when it gets to the loop. *)
Lemma main_summary_inv (env : Env) (w w' : World) (total : nat) (exit : loop_exit)
    (l : Locals) :
  main env w = (Summary total exit l, w') ->
  exists files w2 w3 progress0 w5,
    get_all_files_from_device env ANDROID_ROOT w2 = (Ok files, w3) /\
    files <> [] /\
    total = length files /\
    run_loop env files (initial_locals progress0) w5 = (exit, l, w').
Proof.
  unfold main, toplevel. intros H.
  destruct (check_adb_connection env w) as [[[|]|?] w1]; try discriminate. simpl in H.
  destruct (os_makedirs LOCAL_BACKUP_DIR w1) as [[?|?] w2]; try discriminate.
  destruct (get_all_files_from_device env ANDROID_ROOT w2) as [[files|?] w3] eqn:Hfiles;
    try discriminate.
  destruct files as [|f files]; try discriminate.
  destruct (create_local_directory_structure (f :: files) w3) as [[?|?] w4];
    try discriminate.
  destruct (load_progress w4) as [[progress0|?] w5]; try discriminate.
  destruct (run_loop env (f :: files) (initial_locals progress0) w5) as [[exit' l'] w6]
    eqn:Hloop.
  injection H as <- <- <- <-.
  exists (f :: files), w2, w3, progress0, w5. repeat split; auto.
Qed.

(** C10.  At every iteration boundary of the loop the counters satisfy
    successful + skipped + failed = processed and processed <= total, where
    total is the length of the enumerated list; the same holds for the
    counters of the final statistics. *)
Theorem counters_invariant (env : Env) :
  (forall files progress0 w0 rest l w,
     boundary env files (initial_locals progress0) w0 rest l w ->
     counters_consistent (length files) l /\
     (processed_files l + length rest = length files)%nat) /\
  (forall w total exit l w',
     main env w = (Summary total exit l, w') ->
     counters_consistent total l /\
     exists files w2 w3,
       get_all_files_from_device env ANDROID_ROOT w2 = (Ok files, w3) /\
       total = length files).
Proof.
  assert (Hinv : forall files progress0 w0 rest l w,
     boundary env files (initial_locals progress0) w0 rest l w ->
     counters_consistent (length files) l /\
     (processed_files l + length rest = length files)%nat).
  { intros files progress0 w0 rest l w Hb.
    apply boundary_counters in Hb. unfold accounted, counters_consistent in *.
    simpl in Hb. lia. }
  split; [exact Hinv|].
  intros w total exit l w' Hmain.
  apply main_summary_inv in Hmain.
  destruct Hmain as (files & w2 & w3 & progress0 & w5 & Hfiles & _ & -> & Hloop).
  split; [|eauto].
  destruct (run_loop_final env files (initial_locals progress0) w5 files
              (initial_locals progress0) w5 (boundary_start _ _ _ _))
    as (rest' & l2 & w2' & Hb & Hend).
  rewrite Hloop in Hend. apply Hinv in Hb. destruct Hb as [Hb _].
  destruct exit; destruct Hend as [? ?]; [destruct H0|..]; subst; assumption.
Qed.

Ltac solve_calls :=
  repeat (apply List.Forall_cons; [solve [left; reflexivity | right; reflexivity] |]);
  apply List.Forall_nil.

Lemma iteration_trace (env : Env) (android_path : string) (l l' : Locals)
    (w w' : World) (s : step) :
  loop_body env android_path l w = (s, l', w') ->
  exists evs,
    trace w' = (evs ++ (if connection_check_due l then [AdbDevices] else []) ++ trace w)%list /\
    Forall (transfer_call android_path) evs.
Proof.
  intros Hstep. pose proof (loop_body_iterates env android_path l w) as Hit.
  rewrite Hstep in Hit.
  assert (Hchk : forall a w1, periodic_check env l w = (Ok a, w1) ->
            trace w1 = ((if connection_check_due l then [AdbDevices] else []) ++ trace w)%list).
  { intros a w1 H. destruct (periodic_check_returns env l w) as [a' [Ha _]].
    rewrite Ha in H. injection H as _ <-. destruct (connection_check_due l); reflexivity. }
  assert (Hfnb : forall b w1 w2,
            file_needs_backup env android_path (local_path_of android_path) (progress l) w1
              = (Ok b, w2) ->
            trace w2 = trace w1 \/ trace w2 = AdbStat android_path :: trace w1).
  { intros b w1 w2 H.
    destruct (file_needs_backup_returns env android_path (local_path_of android_path)
                (progress l) w1) as [b' [w2' [Hb [_ Ht]]]].
    rewrite Hb in H. injection H as _ <-. exact Ht. }
  assert (Hpull : forall b w2 w3,
            pull_file env android_path (local_path_of android_path) w2 = (Ok b, w3) ->
            trace w3 = AdbPull android_path (local_path_of android_path) :: trace w2).
  { intros b w2 w3 H.
    destruct (pull_file_returns env android_path (local_path_of android_path) w2)
      as [b' [w3' [Hb [_ Ht]]]].
    rewrite Hb in H. injection H as _ <-. exact Ht. }
  assert (Hsave : forall p w3, trace (snd (save_progress p w3)) = trace w3).
  { intros p w3. rewrite save_progress_returns. simpl.
    repeat destruct (bool_decide _); reflexivity. }
  unfold transfer_call.
  inversion Hit as [w1 Hc | w1 w2 Hc Hn | w1 w2 w3 Hc Hn Hp
                    | w1 w2 w3 p' Hc Hn Hp Hset | w1 w2 w3 e Hc Hn Hp Hset]; subst;
    rewrite ?Hsave;
    try (rewrite (Hpull _ _ _ Hp));
    try (destruct (Hfnb _ _ _ Hn) as [-> | ->]);
    rewrite (Hchk _ _ Hc);
    first [ exists (@nil call); split; [reflexivity | apply List.Forall_nil]
          | exists [AdbStat android_path]; split; [reflexivity | solve_calls]
          | exists [AdbPull android_path (local_path_of android_path)];
            split; [reflexivity | solve_calls]
          | exists [AdbPull android_path (local_path_of android_path); AdbStat android_path];
            split; [reflexivity | solve_calls] ].
Qed.

(** ** [os.makedirs] *)

Lemma mkdir_exist_ok_cases (name : string) (w : World) :
  mkdir_exist_ok name w =
    if PyStr.is_empty (os_entry_key name) then (Raise FileNotFoundError, w)
    else
      match fs w !! os_entry_key name with
      | Some (Directory _) => (Ok tt, w)
      | Some (RegFile _) => (Raise FileExistsError, w)
      | None =>
          match parent_entry (os_entry_key name) w with
          | None => (Raise FileNotFoundError, w)
          | Some (RegFile _) => (Raise NotADirectoryError, w)
          | Some (Directory _) =>
              if bool_decide (os_entry_key name ∈ denied w) then (Raise PermissionError, w)
              else (Ok tt, set_fs (<[os_entry_key name := Directory 4096]> (fs w)) w)
          end
      end.
Proof.
  unfold mkdir_exist_ok, os_mkdir, os_path_isdir, try_except, bind, ret, raise.
  destruct (PyStr.is_empty (os_entry_key name)) eqn:Hk; [reflexivity|]. cbn [negb andb].
  destruct (fs w !! os_entry_key name) as [[?|?]|] eqn:E; rewrite ?E; try reflexivity.
  destruct (parent_entry _ w) as [[?|?]|]; rewrite ?E; try reflexivity.
  destruct (bool_decide _); rewrite ?E; reflexivity.
Qed.

Lemma makedirs_unfold (fuel : nat) (name : string) (w : World) :
  makedirs fuel name w =
    if negb (PyStr.is_empty (fst (makedirs_split name)))
       && negb (PyStr.is_empty (snd (makedirs_split name)))
       && negb (bool_decide (is_Some (fs w !! fst (makedirs_split name))))
    then
      match fuel with
      | O => mkdir_exist_ok name w
      | S fuel' =>
          match makedirs fuel' (fst (makedirs_split name)) w with
          | (Ok _, w1) | (Raise FileExistsError, w1) =>
              if String.eqb (snd (makedirs_split name)) "." then (Ok tt, w1)
              else mkdir_exist_ok name w1
          | (Raise e, w1) => (Raise e, w1)
          end
      end
    else mkdir_exist_ok name w.
Proof.
  destruct fuel; cbn [makedirs]; destruct (makedirs_split name) as [head tail];
    cbn [fst snd]; unfold bind, ret, try_except, raise, os_path_exists;
    destruct (PyStr.is_empty head), (PyStr.is_empty tail); cbn [negb andb]; try reflexivity;
    destruct (bool_decide (is_Some (fs w !! head))); cbn [negb]; try reflexivity.
  destruct (makedirs fuel head w) as [[[]|e] w1];
    [destruct (String.eqb tail "."); reflexivity|].
  destruct e; try reflexivity. destruct (String.eqb tail "."); reflexivity.
Qed.

Lemma adds_dirs_refl (P : string -> Prop) (w : World) : adds_dirs P w w.
Proof. refine (conj (same_store_refl w) (conj eq_refl (conj _ _))); auto. Qed.

Lemma adds_dirs_trans (P : string -> Prop) (w1 w2 w3 : World) :
  adds_dirs P w1 w2 -> adds_dirs P w2 w3 -> adds_dirs P w1 w3.
Proof.
  intros (Hs & Ht & Hk & Hn) (Hs' & Ht' & Hk' & Hn').
  refine (conj (same_store_trans _ _ _ Hs Hs') (conj _ (conj _ _))).
  - congruence.
  - intros k Hin. rewrite <- (Hk k Hin). apply Hk'. rewrite (Hk k Hin). exact Hin.
  - intros k Hnone. destruct (Hn k Hnone) as [H2|[H2 HP]].
    + apply Hn'. exact H2.
    + right. split; [|exact HP]. rewrite <- H2. apply Hk'. rewrite H2. eauto.
Qed.

Lemma adds_dirs_weaken (P Q : string -> Prop) (w w' : World) :
  (forall k, P k -> Q k) -> adds_dirs P w w' -> adds_dirs Q w w'.
Proof.
  intros HPQ (Hs & Ht & Hk & Hn). refine (conj Hs (conj Ht (conj Hk _))).
  intros k Hnone. destruct (Hn k Hnone) as [?|[? ?]]; auto.
Qed.

Lemma mkdir_exist_ok_adds (name : string) (w : World) :
  adds_dirs (fun k => k = os_entry_key name) w (snd (mkdir_exist_ok name w)).
Proof.
  rewrite mkdir_exist_ok_cases.
  destruct (PyStr.is_empty _); [apply adds_dirs_refl|].
  destruct (fs w !! os_entry_key name) as [[?|?]|] eqn:E; try apply adds_dirs_refl.
  destruct (parent_entry _ w) as [[?|?]|]; try apply adds_dirs_refl.
  destruct (bool_decide _); [apply adds_dirs_refl|].
  refine (conj _ (conj eq_refl (conj _ _))); cbn.
  - repeat split.
  - intros k [e Hk]. apply lookup_insert_ne. congruence.
  - intros k Hk. destruct (decide (k = os_entry_key name)) as [->|Hne].
    + right. rewrite lookup_insert_eq. auto.
    + left. rewrite lookup_insert_ne by congruence. exact Hk.
Qed.

(** *** Prefixes *)

Lemma prefix_nil (s : string) : String.prefix EmptyString s = true.
Proof. destruct s; reflexivity. Qed.

Lemma prefix_cons (c : ascii) (a b : string) :
  String.prefix (String c a) (String c b) = String.prefix a b.
Proof. cbn. destruct (ascii_dec c c); [reflexivity|contradiction]. Qed.

Lemma prefix_refl (s : string) : String.prefix s s = true.
Proof. induction s as [|c s IH]; [reflexivity|]. rewrite prefix_cons. exact IH. Qed.

Lemma prefix_trans (a b c : string) :
  String.prefix a b = true -> String.prefix b c = true -> String.prefix a c = true.
Proof.
  revert b c. induction a as [|x a IH]; intros b c Hab Hbc; [apply prefix_nil|].
  destruct b as [|y b]; [discriminate|]. destruct c as [|z c]; [discriminate|].
  cbn in Hab, Hbc |- *.
  destruct (ascii_dec x y) as [->|]; [|discriminate].
  destruct (ascii_dec y z) as [->|]; [|discriminate].
  eapply IH; eassumption.
Qed.

Lemma prefix_rstrip_by (p : ascii -> bool) (s : string) :
  String.prefix (PyStr.rstrip_by p s) s = true.
Proof.
  induction s as [|c s IH]; [reflexivity|]. cbn [PyStr.rstrip_by].
  destruct (PyStr.rstrip_by p s) as [|c' r].
  - destruct (p c); [apply prefix_nil|]. rewrite prefix_cons. apply prefix_nil.
  - rewrite prefix_cons. exact IH.
Qed.

Lemma prefix_head_of (p : string) : String.prefix (OsPath.head_of p) p = true.
Proof.
  induction p as [|c p IH]; [reflexivity|]. cbn [OsPath.head_of].
  destruct (OsPath.head_of p) as [|c' h].
  - destruct (Ascii.eqb c PyStr.slash); [|apply prefix_nil].
    rewrite prefix_cons. apply prefix_nil.
  - rewrite prefix_cons. exact IH.
Qed.

Lemma prefix_dirname (p : string) : String.prefix (OsPath.dirname p) p = true.
Proof.
  unfold OsPath.dirname. destruct (_ && _).
  - eapply prefix_trans; [apply prefix_rstrip_by | apply prefix_head_of].
  - apply prefix_head_of.
Qed.

Lemma prefix_entry_key (p : string) : String.prefix (os_entry_key p) p = true.
Proof.
  unfold os_entry_key. destruct p as [|c p]; [reflexivity|].
  cbn [PyStr.is_empty negb andb].
  destruct (PyStr.is_empty (PyStr.lstrip_slash (String c p))) eqn:E.
  - unfold PyStr.lstrip_slash in E. cbn [PyStr.lstrip_by] in E.
    destruct (Ascii.eqb PyStr.slash c) eqn:Hc; [|discriminate].
    apply Ascii.eqb_eq in Hc. subst c. apply prefix_nil.
  - apply prefix_rstrip_by.
Qed.

Lemma prefix_makedirs_split (name : string) :
  String.prefix (fst (makedirs_split name)) name = true.
Proof.
  unfold makedirs_split, OsPath.split.
  destruct (PyStr.is_empty (OsPath.tail_of name)); cbn [fst].
  - eapply prefix_trans; apply prefix_dirname.
  - apply prefix_dirname.
Qed.

(** [os.makedirs] only adds directories, on the way to [name]. *)
Lemma makedirs_adds (fuel : nat) :
  forall name w,
    adds_dirs (fun k => String.prefix k name = true) w (snd (makedirs fuel name w)).
Proof.
  induction fuel as [|fuel IH]; intros name w; rewrite makedirs_unfold.
  - assert (Hleaf : adds_dirs (fun k => String.prefix k name = true) w
                      (snd (mkdir_exist_ok name w))).
    { eapply adds_dirs_weaken; [|apply mkdir_exist_ok_adds].
      intros k ->. apply prefix_entry_key. }
    destruct (_ && _); exact Hleaf.
  - assert (Hleaf : forall w1, adds_dirs (fun k => String.prefix k name = true) w1
                      (snd (mkdir_exist_ok name w1))).
    { intros w1. eapply adds_dirs_weaken; [|apply mkdir_exist_ok_adds].
      intros k ->. apply prefix_entry_key. }
    destruct (_ && _); [|apply Hleaf].
    assert (Hup : adds_dirs (fun k => String.prefix k name = true) w
                    (snd (makedirs fuel (fst (makedirs_split name)) w))).
    { eapply adds_dirs_weaken; [|apply IH].
      intros k Hk. cbn beta in Hk. eapply prefix_trans; [exact Hk|].
      apply prefix_makedirs_split. }
    destruct (makedirs fuel (fst (makedirs_split name)) w) as [[[]|e] w1]; cbn [snd] in Hup.
    + destruct (String.eqb _ _); [exact Hup|].
      eapply adds_dirs_trans; [exact Hup | apply Hleaf].
    + destruct e; try exact Hup.
      destruct (String.eqb _ _); [exact Hup|].
      eapply adds_dirs_trans; [exact Hup | apply Hleaf].
Qed.

Lemma os_makedirs_adds (p : string) (w : World) :
  adds_dirs (fun k => String.prefix k p = true) w (snd (os_makedirs p w)).
Proof. apply makedirs_adds. Qed.

(** For the mirror root, which has no parent to make, [os.makedirs] is a
    single [mkdir]. *)
Lemma os_makedirs_root (w : World) :
  os_makedirs LOCAL_BACKUP_DIR w =
    match fs w !! LOCAL_BACKUP_DIR with
    | Some (Directory _) => (Ok tt, w)
    | Some (RegFile _) => (Raise FileExistsError, w)
    | None =>
        if bool_decide (LOCAL_BACKUP_DIR ∈ denied w) then (Raise PermissionError, w)
        else (Ok tt, set_fs (<[LOCAL_BACKUP_DIR := Directory 4096]> (fs w)) w)
    end.
Proof.
  unfold os_makedirs. rewrite makedirs_unfold.
  change (makedirs_split LOCAL_BACKUP_DIR) with (EmptyString, LOCAL_BACKUP_DIR).
  cbn [fst snd PyStr.is_empty negb andb]. rewrite mkdir_exist_ok_cases.
  change (os_entry_key LOCAL_BACKUP_DIR) with LOCAL_BACKUP_DIR.
  change (parent_entry LOCAL_BACKUP_DIR w) with (Some (Directory 4096)).
  reflexivity.
Qed.

Lemma create_dirs_returns (files : list string) :
  forall created w,
    exists created' w',
      create_dirs files created w = (Ok created', w') /\
      same_store w w' /\ trace w' = trace w.
Proof.
  induction files as [|f files IH]; intros created w; simpl.
  - exists created, w. repeat split.
  - destruct (bool_decide _); [apply IH|].
    unfold bind at 1. unfold try_except, bind, ret.
    assert (Hmk : exists r w1, os_makedirs (local_dir_of f) w = (r, w1) /\
                    same_store w w1 /\ trace w1 = trace w).
    { destruct (os_makedirs_adds (local_dir_of f) w) as (Hs & Ht & _).
      destruct (os_makedirs (local_dir_of f) w) as [r w1]. exists r, w1. auto. }
    destruct Hmk as (r & w1 & -> & Hs & Ht).
    destruct r as [[]|e];
      [destruct (IH ({[local_dir_of f]} ∪ created) w1) as (c' & w' & -> & Hs' & Ht')
      |destruct (IH created w1) as (c' & w' & -> & Hs' & Ht')];
      exists c', w'; (split; [reflexivity|]);
      (split; [eapply same_store_trans; eassumption | congruence]).
Qed.

Lemma create_local_directory_structure_returns (files : list string) (w : World) :
  exists w',
    create_local_directory_structure files w = (Ok tt, w') /\
    same_store w w' /\ trace w' = trace w.
Proof.
  unfold create_local_directory_structure, bind, ret.
  destruct (create_dirs_returns files ∅ w) as (c & w' & -> & Hs & Ht).
  exists w'. repeat split; try apply Hs; assumption.
Qed.

(** Once the enumeration has produced a non-empty list, [main] runs the
    loop and ends with the statistics, whatever the loop did. *)
Lemma main_reaches_summary (env : Env) (w w1 w2 w3 : World) (files : list string) :
  check_adb_connection env w = (Ok true, w1) ->
  os_makedirs LOCAL_BACKUP_DIR w1 = (Ok tt, w2) ->
  get_all_files_from_device env ANDROID_ROOT w2 = (Ok files, w3) ->
  files <> [] ->
  let w5 := snd (create_local_directory_structure files w3) in
  let progress0 := loaded (pfile w5) in
  same_store w3 w5 /\ trace w5 = trace w3 /\
  main env w =
    (Summary (length files)
       (fst (fst (run_loop env files (initial_locals progress0) w5)))
       (snd (fst (run_loop env files (initial_locals progress0) w5))),
     snd (run_loop env files (initial_locals progress0) w5)).
Proof.
  intros Hc Hm Hf Hne. unfold main, toplevel. rewrite Hc. simpl. rewrite Hm, Hf.
  destruct files as [|f files]; [contradiction|].
  destruct (create_local_directory_structure_returns (f :: files) w3)
    as (w4 & Hcr & Hs & Ht).
  rewrite Hcr. cbn [snd]. rewrite load_progress_loaded.
  split; [exact Hs|]. split; [exact Ht|].
  destruct (run_loop env (f :: files) (initial_locals (loaded (pfile w4))) w4)
    as [[exit l] w6].
  reflexivity.
Qed.

(** C7.  The liveness check is due exactly when the number of processed
    files is a positive multiple of 10, hence never before the first file;
    an iteration spawns [adb devices] exactly when the check is due, as its
    first subprocess, and never otherwise; in the loop [main] starts, the
    number processed at the head of an iteration is the number of files
    iterated so far.  When a due check fails, the loop ends at once with the
    locals as they stand, and [main] goes on to the final statistics with
    exactly the counts the loop ended with. *)
Theorem connection_revalidation (env : Env) :
  (forall l, connection_check_due l = true <->
             (0 < processed_files l /\ processed_files l mod 10 = 0)%nat) /\
  (forall progress0, connection_check_due (initial_locals progress0) = false) /\
  (forall android_path l w,
     exists evs,
       trace (snd (loop_body env android_path l w)) =
         (evs ++ (if connection_check_due l then [AdbDevices] else []) ++ trace w)%list /\
       AdbDevices ∉ evs) /\
  (forall files progress0 w0 android_path rest l w,
     boundary env files (initial_locals progress0) w0 (android_path :: rest) l w ->
     (processed_files l + length (android_path :: rest) = length files)%nat) /\
  (forall files l0 w0 android_path rest l w,
     boundary env files l0 w0 (android_path :: rest) l w ->
     connection_check_due l = true ->
     check_adb_connection env w = (Ok false, log_call AdbDevices w) ->
     run_loop env files l0 w0 = (Broke, l, log_call AdbDevices w)) /\
  (forall w w1 w2 w3 files,
     check_adb_connection env w = (Ok true, w1) ->
     os_makedirs LOCAL_BACKUP_DIR w1 = (Ok tt, w2) ->
     get_all_files_from_device env ANDROID_ROOT w2 = (Ok files, w3) ->
     files <> [] ->
     exists progress0 w5,
       main env w =
         (Summary (length files)
            (fst (fst (run_loop env files (initial_locals progress0) w5)))
            (snd (fst (run_loop env files (initial_locals progress0) w5))),
          snd (run_loop env files (initial_locals progress0) w5))).
Proof.
  repeat apply conj.
  - intros l. unfold connection_check_due.
    rewrite andb_true_iff, Nat.eqb_eq, Nat.ltb_lt. tauto.
  - reflexivity.
  - intros android_path l w.
    destruct (loop_body env android_path l w) as [[s l'] w'] eqn:Hstep.
    destruct (iteration_trace env _ _ _ _ _ _ Hstep) as [evs [Ht HF]].
    exists evs. split; [exact Ht|].
    intros Hin. rewrite Forall_forall in HF. destruct (HF _ Hin); discriminate.
  - intros files progress0 w0 android_path rest l w Hb.
    apply boundary_counters in Hb. simpl in *. lia.
  - intros files l0 w0 android_path rest l w Hb Hdue Hfail.
    rewrite (run_loop_boundary _ _ _ _ _ _ _ Hb). simpl.
    unfold loop_body, within, periodic_check. rewrite Hdue, Hfail. reflexivity.
  - intros w w1 w2 w3 files Hc Hm Hf Hne.
    destruct (main_reaches_summary env w w1 w2 w3 files Hc Hm Hf Hne)
      as (_ & _ & Hmain).
    eauto.
Qed.

(** ** How [main] ends *)

Lemma get_all_files_from_device_returns (env : Env) (path : string) (w : World) :
  exists files w', get_all_files_from_device env path w = (Ok files, w').
Proof.
  unfold get_all_files_from_device, subprocess_run, write_file_list. unfold_M.
  destruct (adb_find env _ _) as [rc out| |]; simpl; eauto.
  destruct (rc =? 0)%Z; simpl; eauto.
  repeat (destruct (bool_decide _); simpl; eauto).
Qed.

(** X1.  The ways [main] can end, with the condition for each: the failed
    connection check, the exception of [os.makedirs] on the mirror root,
    the empty enumeration, and the final statistics. *)
Lemma main_outcome_cases (env : Env) (w : World) :
  match fst (main env w) with
  | ExitNoConnection =>
      check_adb_connection env w = (Ok false, snd (main env w))
  | Uncaught e =>
      exists w1, check_adb_connection env w = (Ok true, w1) /\
                 os_makedirs LOCAL_BACKUP_DIR w1 = (Raise e, snd (main env w))
  | ExitNoFiles =>
      exists w1 w2, check_adb_connection env w = (Ok true, w1) /\
                    os_makedirs LOCAL_BACKUP_DIR w1 = (Ok tt, w2) /\
                    get_all_files_from_device env ANDROID_ROOT w2 = (Ok [], snd (main env w))
  | Summary total _ _ =>
      exists w1 w2 files w3,
        check_adb_connection env w = (Ok true, w1) /\
        os_makedirs LOCAL_BACKUP_DIR w1 = (Ok tt, w2) /\
        get_all_files_from_device env ANDROID_ROOT w2 = (Ok files, w3) /\
        files <> [] /\ total = length files
  end.
Proof.
  unfold main, toplevel.
  destruct (check_adb_connection_returns env w) as [connected Hc]. rewrite Hc.
  destruct connected; simpl; [|reflexivity].
  destruct (os_makedirs LOCAL_BACKUP_DIR _) as [[[]|e] w2] eqn:Hm; simpl; [|eauto].
  destruct (get_all_files_from_device_returns env ANDROID_ROOT w2) as (files & w3 & Hf).
  rewrite Hf. destruct files as [|f files]; [simpl; eauto|].
  destruct (create_local_directory_structure_returns (f :: files) w3) as (w4 & -> & _).
  destruct (load_progress_returns w4) as [progress0 ->].
  destruct (run_loop env (f :: files) (initial_locals progress0) w4) as [[exit l] w6].
  cbn [fst snd]. exists (log_call AdbDevices w), w2, (f :: files), w3. repeat split; auto.
Qed.

(** C8, where the code departs from the claim.  When [os.makedirs] of the
    local mirror root raises after a successful connection check, the
    exception leaves [main]: the run ends before the enumeration and the
    loop, without the final statistics.  This is a third way for the run to
    end outright, besides the failed connection check and the empty
    enumeration. *)
Theorem main_propagates_makedirs_error (env : Env) (w w1 w2 : World) (e : exn)
    (Hconnected : check_adb_connection env w = (Ok true, w1))
    (Hmakedirs : os_makedirs LOCAL_BACKUP_DIR w1 = (Raise e, w2)) :
  main env w = (Uncaught e, w2).
Proof. unfold main, toplevel. rewrite Hconnected. simpl. rewrite Hmakedirs. reflexivity. Qed.

Lemma main_crashes_when_root_is_a_file :
  main (steady_env "/sdcard/a" "5" 5) blocked_root_world
    = (Uncaught FileExistsError, log_call AdbDevices blocked_root_world).
Proof.
  exact (main_propagates_makedirs_error (steady_env "/sdcard/a" "5" 5) blocked_root_world
           (log_call AdbDevices blocked_root_world) (log_call AdbDevices blocked_root_world)
           FileExistsError eq_refl eq_refl).
Defined.

(** ** The progress store *)

Lemma ignores_ret {A} (a : A) : ignores_pfile (ret a).
Proof. intros s w. reflexivity. Qed.

Lemma ignores_raise {A} (e : exn) : ignores_pfile (@raise A e).
Proof. intros s w. reflexivity. Qed.

Lemma ignores_bind {A B} (m : M A) (k : A -> M B) :
  ignores_pfile m -> (forall a, ignores_pfile (k a)) -> ignores_pfile (bind m k).
Proof.
  intros Hm Hk s w. unfold bind. rewrite Hm.
  destruct (m w) as [[a|e] w1]; simpl; [apply Hk | reflexivity].
Qed.

Lemma ignores_try_except {A} (m : M A) (h : exn -> M A) :
  ignores_pfile m -> (forall e, ignores_pfile (h e)) -> ignores_pfile (try_except m h).
Proof.
  intros Hm Hh s w. unfold try_except. rewrite Hm.
  destruct (m w) as [[a|e] w1]; simpl; [reflexivity | apply Hh].
Qed.

Lemma ignores_subprocess_run (c : call) (behaviour : nat -> proc) :
  ignores_pfile (subprocess_run c behaviour).
Proof. intros s w. unfold subprocess_run. simpl. destruct (behaviour _); reflexivity. Qed.

Lemma ignores_run_adb_pull (env : Env) (android_path local_path : string) :
  ignores_pfile (run_adb_pull env android_path local_path).
Proof.
  intros s w. unfold run_adb_pull. simpl.
  destruct (adb_pull env _ _ _) as [p [sz|]]; unfold subprocess_run; simpl;
    destruct p; reflexivity.
Qed.

Lemma ignores_os_path_exists (p : string) : ignores_pfile (os_path_exists p).
Proof. intros s w. reflexivity. Qed.

Lemma ignores_os_path_getsize (p : string) : ignores_pfile (os_path_getsize p).
Proof.
  intros s w. unfold os_path_getsize. simpl. destruct (fs w !! p) as [[?|?]|]; reflexivity.
Qed.

Lemma ignores_os_remove (p : string) : ignores_pfile (os_remove p).
Proof.
  intros s w. rewrite !os_remove_cases. simpl.
  destruct (fs w !! p) as [[?|?]|]; [destruct (bool_decide _)| |]; reflexivity.
Qed.

Lemma ignores_mkdir_exist_ok (name : string) : ignores_pfile (mkdir_exist_ok name).
Proof.
  intros s w. rewrite !mkdir_exist_ok_cases. unfold parent_entry. cbn [fs denied set_pfile].
  destruct (PyStr.is_empty (os_entry_key name)); [reflexivity|].
  destruct (fs w !! os_entry_key name) as [[?|?]|]; try reflexivity.
  destruct (if PyStr.is_empty _ then _ else _) as [[?|?]|]; try reflexivity.
  destruct (bool_decide _); reflexivity.
Qed.

Lemma ignores_makedirs (fuel : nat) : forall name, ignores_pfile (makedirs fuel name).
Proof.
  pose proof ignores_mkdir_exist_ok as Hleaf. unfold ignores_pfile in Hleaf.
  induction fuel as [|fuel IH]; intros name s w;
    rewrite (makedirs_unfold _ name (set_pfile s w)), (makedirs_unfold _ name w);
    cbn [fs set_pfile]; destruct (_ && _); try apply Hleaf.
  rewrite IH. destruct (makedirs fuel (fst (makedirs_split name)) w) as [[[]|e] w1];
    cbn [fst snd].
  - destruct (String.eqb _ _); [reflexivity|apply Hleaf].
  - destruct e; try reflexivity.
    destruct (String.eqb _ _); [reflexivity|apply Hleaf].
Qed.

Lemma ignores_os_makedirs (p : string) : ignores_pfile (os_makedirs p).
Proof. apply ignores_makedirs. Qed.

Lemma ignores_write_file_list (files : list string) : ignores_pfile (write_file_list files).
Proof.
  intros s w. unfold write_file_list. simpl. repeat destruct (bool_decide _); reflexivity.
Qed.

Ltac ignores_step :=
  first
    [ apply ignores_ret | apply ignores_raise
    | apply ignores_subprocess_run | apply ignores_run_adb_pull
    | apply ignores_os_path_exists | apply ignores_os_path_getsize
    | apply ignores_os_remove | apply ignores_os_makedirs | apply ignores_write_file_list
    | apply ignores_bind; [|intros]
    | apply ignores_try_except; [|intros]
    | match goal with
      | |- ignores_pfile (if ?b then _ else _) => destruct b
      | |- ignores_pfile (match ?x with _ => _ end) => destruct x
      | |- ignores_pfile (let '(_, _) := ?x in _) => destruct x
      end ].

Lemma ignores_check_adb_connection (env : Env) : ignores_pfile (check_adb_connection env).
Proof. unfold check_adb_connection. repeat ignores_step. Qed.

Lemma ignores_get_all_files_from_device (env : Env) (path : string) :
  ignores_pfile (get_all_files_from_device env path).
Proof. unfold get_all_files_from_device. repeat ignores_step. Qed.

Lemma ignores_get_file_size_on_device (env : Env) (file_path : string) :
  ignores_pfile (get_file_size_on_device env file_path).
Proof. unfold get_file_size_on_device. repeat ignores_step. Qed.

Lemma ignores_file_needs_backup (env : Env) (android_path local_path : string)
    (progress : progress_t) :
  ignores_pfile (file_needs_backup env android_path local_path progress).
Proof.
  unfold file_needs_backup, size_check.
  repeat first [apply ignores_get_file_size_on_device | ignores_step].
Qed.

Lemma ignores_pull_file (env : Env) (android_path local_path : string) :
  ignores_pfile (pull_file env android_path local_path).
Proof. unfold pull_file. repeat ignores_step. Qed.

Lemma ignores_periodic_check (env : Env) (l : Locals) : ignores_pfile (periodic_check env l).
Proof.
  unfold periodic_check. destruct (connection_check_due l);
    [apply ignores_check_adb_connection | apply ignores_ret].
Qed.

Lemma ignores_create_dirs (files : list string) :
  forall created, ignores_pfile (create_dirs files created).
Proof.
  induction files as [|f files IH]; intros created; simpl.
  - apply ignores_ret.
  - destruct (bool_decide _); [apply IH|].
    apply ignores_bind; [repeat ignores_step | intros; apply IH].
Qed.

Lemma ignores_create_local_directory_structure (files : list string) :
  ignores_pfile (create_local_directory_structure files).
Proof.
  unfold create_local_directory_structure.
  apply ignores_bind; [apply ignores_create_dirs | intros; apply ignores_ret].
Qed.

Lemma load_progress_fresh (w : World) :
  pfile w = Absent \/ pfile w = Malformed \/ pfile w = Unreadable ->
  load_progress w = (Ok (PDict ∅), w).
Proof.
  unfold load_progress, read_progress_file. unfold_M.
  intros [H|[H|H]]; rewrite H; simpl; rewrite ?H; reflexivity.
Qed.

Lemma same_but_snapshot_refl {A} (s : snapshot) (r : A * World) : same_but_snapshot s r r.
Proof. split; [reflexivity | left; reflexivity]. Qed.

Lemma loop_body_snapshot (env : Env) (android_path : string) (l : Locals)
    (s : snapshot) (w : World) :
  same_but_snapshot s (loop_body env android_path l w)
                      (loop_body env android_path l (set_pfile s w)).
Proof.
  unfold loop_body, within.
  rewrite ignores_periodic_check.
  destruct (periodic_check env l w) as [[alive|e] w1]; simpl;
    [|split; [reflexivity | right; reflexivity]].
  destruct alive; simpl; [|split; [reflexivity | right; reflexivity]].
  rewrite ignores_file_needs_backup.
  destruct (file_needs_backup env android_path _ (progress l) w1) as [[needed|e] w2];
    simpl; [|split; [reflexivity | right; reflexivity]].
  destruct needed; simpl; [|split; [reflexivity | right; reflexivity]].
  rewrite ignores_pull_file.
  destruct (pull_file env android_path _ w2) as [[success|e] w3];
    simpl; [|split; [reflexivity | right; reflexivity]].
  destruct success; simpl; [|split; [reflexivity | right; reflexivity]].
  destruct (py_setitem _ _ _) as [progress'|e];
    [|split; [reflexivity | right; reflexivity]].
  rewrite !save_progress_returns. simpl.
  repeat destruct (bool_decide _); split; try reflexivity;
    first [left; reflexivity | right; reflexivity].
Qed.

Lemma run_loop_snapshot (env : Env) (files : list string) :
  forall l s w,
    same_but_snapshot s (run_loop env files l w) (run_loop env files l (set_pfile s w)).
Proof.
  induction files as [|p files IH]; intros l s w; simpl.
  - split; [reflexivity | right; reflexivity].
  - destruct (loop_body_snapshot env p l s w) as [Hfst Hsnd].
    destruct (loop_body env p l w) as [[st l1] w1].
    destruct (loop_body env p l (set_pfile s w)) as [[st' l1'] w1'].
    simpl in Hfst, Hsnd. injection Hfst as -> ->.
    destruct Hsnd as [-> | ->].
    + apply same_but_snapshot_refl.
    + destruct st; [apply IH | |]; split; try reflexivity; right; reflexivity.
Qed.

Lemma main_snapshot (env : Env) (s : snapshot) (w : World) :
  (forall w', pfile w' = pfile w ->
              fst (load_progress w') = fst (load_progress (set_pfile s w'))) ->
  same_but_snapshot s (main env w) (main env (set_pfile s w)).
Proof.
  intros Hload. unfold main, toplevel.
  rewrite ignores_check_adb_connection.
  destruct (check_adb_connection_returns env w) as [connected ->]. simpl.
  destruct connected; simpl; [|split; [reflexivity | right; reflexivity]].
  rewrite ignores_os_makedirs.
  destruct (os_makedirs LOCAL_BACKUP_DIR _) as [[[]|e] w2] eqn:Hm; simpl;
    [|split; [reflexivity | right; reflexivity]].
  assert (Hp2 : pfile w2 = pfile w).
  { destruct (os_makedirs_adds LOCAL_BACKUP_DIR (log_call AdbDevices w))
      as ((_ & Hpf & _) & _).
    rewrite Hm in Hpf. exact Hpf. }
  rewrite ignores_get_all_files_from_device.
  destruct (get_all_files_from_device env ANDROID_ROOT w2) as [[files|e] w3] eqn:Hf; simpl;
    [|split; [reflexivity | right; reflexivity]].
  assert (Hp3 : pfile w3 = pfile w).
  { pose proof (ignores_get_all_files_from_device env ANDROID_ROOT (pfile w) w2) as Hi.
    replace (set_pfile (pfile w) w2) with w2 in Hi
      by (destruct w2; simpl in *; subst; reflexivity).
    rewrite Hf in Hi. simpl in Hi. injection Hi as Hi. rewrite Hi. reflexivity. }
  destruct files as [|f files]; [split; [reflexivity | right; reflexivity]|].
  rewrite ignores_create_local_directory_structure.
  destruct (create_local_directory_structure_returns (f :: files) w3)
    as (w4 & -> & (_ & Hp4 & _) & _). cbn [fst snd].
  destruct (load_progress_returns w4) as [p0 Hl].
  destruct (load_progress_returns (set_pfile s w4)) as [p0' Hl'].
  assert (p0' = p0).
  { specialize (Hload w4 ltac:(congruence)). rewrite Hl, Hl' in Hload.
    simpl in Hload. congruence. }
  subst p0'. rewrite Hl, Hl'.
  destruct (run_loop_snapshot env (f :: files) (initial_locals p0) s w4) as [Hfst Hsnd].
  destruct (run_loop env (f :: files) (initial_locals p0) w4) as [[exit l] w6].
  destruct (run_loop env (f :: files) (initial_locals p0) (set_pfile s w4))
    as [[exit' l'] w6'].
  simpl in Hfst, Hsnd. injection Hfst as -> ->.
  split; [reflexivity | exact Hsnd].
Qed.

(** C6.  [load_progress] never raises and leaves the world as it is; it
    returns the empty dictionary when the progress file is absent, fails to
    parse or cannot be read.  A run started on an unparsable snapshot ends
    exactly as the run started without any snapshot: the same outcome and
    the same final world, except that a snapshot which is never rewritten
    is still the one the run started with. *)
Theorem load_progress_tolerant :
  (forall w, exists p, load_progress w = (Ok p, w)) /\
  (forall w, pfile w = Absent \/ pfile w = Malformed \/ pfile w = Unreadable ->
             load_progress w = (Ok (PDict ∅), w)) /\
  (forall env w, pfile w = Malformed ->
                 same_but_snapshot Absent (main env w) (main env (set_pfile Absent w))).
Proof.
  split; [exact load_progress_returns|]. split; [exact load_progress_fresh|].
  intros env w Hmal. apply main_snapshot.
  intros w' Hw'. rewrite !load_progress_fresh; simpl; auto.
  right; left. congruence.
Qed.

(** ** Two runs in succession *)

Lemma load_progress_pfile (w w' : World) (p : progress_t) :
  pfile w' = pfile w -> load_progress w = (Ok p, w) -> load_progress w' = (Ok p, w').
Proof.
  intros Hpf Hl. rewrite load_progress_loaded in *. rewrite Hpf. congruence.
Qed.

Lemma file_needs_backup_effect (env : Env) (android_path local_path : string)
    (progress : progress_t) (w : World) :
  exists (b : bool) (w' : World),
    file_needs_backup env android_path local_path progress w = (Ok b, w') /\
    same_store w w' /\
    (forall k, k <> local_path -> fs w' !! k = fs w !! k) /\
    (b = false ->
       py_in android_path progress = true /\
       fs w' = fs w /\
       exists e, fs w !! local_path = Some e /\
                 fst (get_file_size_on_device env android_path w) = Ok (Some (entry_size e))).
Proof.
  destruct (py_in android_path progress) eqn:Hin.
  2:{ exists true, w. rewrite file_needs_backup_unrecorded by assumption.
      split; [reflexivity|]. split; [apply same_store_refl|]. split; [reflexivity|].
      discriminate. }
  destruct (fs w !! local_path) as [e|] eqn:Hfs.
  2:{ exists true, w. rewrite file_needs_backup_missing by assumption.
      split; [reflexivity|]. split; [apply same_store_refl|]. split; [reflexivity|].
      discriminate. }
  destruct (get_file_size_on_device_returns env android_path w) as [dsz Hsz].
  rewrite (file_needs_backup_checked env _ _ _ _ e dsz Hin Hfs Hsz).
  destruct (bool_decide (Some (entry_size e) = dsz)) eqn:Heq; eexists _, _;
    (split; [reflexivity|]).
  - apply bool_decide_eq_true_1 in Heq. split; [repeat split|]. split; [reflexivity|].
    intros _. split; [reflexivity|]. split; [reflexivity|].
    exists e. rewrite Hsz. simpl. split; congruence.
  - destruct (os_remove_frame local_path (log_call (AdbStat android_path) w)) as [Hs _].
    split; [exact Hs|]. split; [|discriminate].
    intros k Hk. rewrite os_remove_cases. simpl. rewrite Hfs.
    destruct e; [destruct (bool_decide (local_path ∈ denied w))|]; simpl; try reflexivity.
    apply lookup_delete_ne. congruence.
Qed.

Lemma file_needs_backup_skips (env : Env) (android_path local_path : string)
    (progress : progress_t) (w : World) (e : entry) :
  py_in android_path progress = true ->
  fs w !! local_path = Some e ->
  fst (get_file_size_on_device env android_path w) = Ok (Some (entry_size e)) ->
  file_needs_backup env android_path local_path progress w
    = (Ok false, log_call (AdbStat android_path) w).
Proof.
  intros Hin Hfs Hsz.
  destruct (get_file_size_on_device_returns env android_path w) as [dsz Hd].
  rewrite Hd in Hsz. simpl in Hsz. injection Hsz as ->.
  rewrite (file_needs_backup_checked env _ _ _ _ e _ Hin Hfs Hd).
  rewrite bool_decide_eq_true_2 by reflexivity. reflexivity.
Qed.

Lemma pull_file_delivers (env : Env) (android_path local_path out : string) (sz : N)
    (w : World) :
  adb_pull env (length (trace w)) android_path local_path = (Completed 0 out, Some sz) ->
  pull_file env android_path local_path w =
    (Ok true, log_call (AdbPull android_path local_path)
                (set_fs (<[local_path := RegFile sz]> (fs w)) w)).
Proof.
  intros H. rewrite pull_file_cases. unfold after_pull. rewrite H. simpl.
  rewrite lookup_insert_eq. rewrite bool_decide_eq_true_2 by eauto. reflexivity.
Qed.

Lemma os_makedirs_ok (w : World) :
  fst (os_makedirs LOCAL_BACKUP_DIR w) = Ok tt ->
  let w' := snd (os_makedirs LOCAL_BACKUP_DIR w) in
  (exists sz, fs w' !! LOCAL_BACKUP_DIR = Some (Directory sz)) /\
  (forall k, is_Some (fs w !! k) -> fs w' !! k = fs w !! k) /\
  same_store w w' /\ trace w' = trace w.
Proof.
  destruct (os_makedirs_adds LOCAL_BACKUP_DIR w) as (Hs & Ht & Hk & _).
  intros Hok w'. refine (conj _ (conj Hk (conj Hs Ht))).
  revert Hok. unfold w'. rewrite os_makedirs_root.
  destruct (fs w !! LOCAL_BACKUP_DIR) as [[sz|sz]|] eqn:Hfs; simpl; try discriminate.
  - intros _. rewrite Hfs. eauto.
  - destruct (bool_decide _); simpl; try discriminate. intros _.
    rewrite lookup_insert_eq. eauto.
Qed.

Lemma get_all_files_from_device_frame (env : Env) (path : string) (w : World) :
  let w' := snd (get_all_files_from_device env path w) in
  fs w' = fs w /\ denied w' = denied w /\ pfile w' = pfile w /\
  trace w' = AdbFind path :: trace w.
Proof.
  unfold get_all_files_from_device, subprocess_run, write_file_list. unfold_M.
  destruct (adb_find env _ _) as [rc out| |]; simpl; try (repeat split; reflexivity).
  destruct (rc =? 0)%Z; simpl; try (repeat split; reflexivity).
  repeat destruct (bool_decide _); simpl; repeat split; reflexivity.
Qed.

Lemma create_dirs_fs (files : list string) :
  forall created w k,
    is_Some (fs w !! k) ->
    fs (snd (create_dirs files created w)) !! k = fs w !! k.
Proof.
  induction files as [|f files IH]; intros created w k Hk; simpl; [reflexivity|].
  destruct (bool_decide _); [apply IH; assumption|].
  unfold bind at 1. unfold try_except, bind, ret.
  destruct (os_makedirs_adds (local_dir_of f) w) as (_ & _ & Hkeep & _).
  destruct (os_makedirs (local_dir_of f) w) as [[[]|e] w1] eqn:Hm; cbn [snd] in Hkeep;
    (rewrite IH by (rewrite Hkeep; assumption)); apply Hkeep; assumption.
Qed.

Section Idempotence.

Variable env : Env.
Variable files : list string.
Variable rsize : string -> N.
Hypothesis Hdev : steady_device env files rsize.

Lemma periodic_check_alive (l : Locals) (w : World) :
  periodic_check env l w
    = (Ok true, if connection_check_due l then log_call AdbDevices w else w).
Proof.
  destruct (periodic_check_returns env l w) as [alive [Ha Hnd]]. rewrite Ha.
  destruct (connection_check_due l) eqn:Hd.
  - unfold periodic_check in Ha. rewrite Hd in Ha.
    pose proof (steady_connected _ _ _ Hdev w) as Hc. rewrite Ha in Hc.
    simpl in Hc. congruence.
  - rewrite (Hnd eq_refl). reflexivity.
Qed.

Lemma mirrored_weaken (dset : gset string) (done done' : list string)
    (l : Locals) (w : World) :
  (forall q, q ∈ done' -> q ∈ done) ->
  mirrored rsize dset done l w -> mirrored rsize dset done' l w.
Proof.
  intros Hsub ((m & Hprog & Hrec) & Hload & Hfs & Hden & Hroot).
  repeat split; auto. exists m. split; auto.
Qed.

(** One iteration of the first run: the file ends up recorded and mirrored
    with the remote size, whether it was skipped or pulled. *)
Lemma mirrored_step (dset : gset string) (android_path : string) (done : list string)
    (l : Locals) (w : World) :
  PROGRESS_FILE ∉ dset ->
  android_path ∈ files ->
  (forall q, q ∈ done -> q ∈ files) ->
  mirrored rsize dset done l w ->
  exists l' w',
    loop_body env android_path l w = (Next, l', w') /\
    mirrored rsize dset (android_path :: done) l' w' /\
    failed_files l' = failed_files l.
Proof.
  intros Hwr Hp Hdone ((m & Hprog & Hrec) & Hload & Hfs & Hden & [rsz Hroot]).
  unfold loop_body, within. rewrite periodic_check_alive.
  set (w1 := if connection_check_due l then log_call AdbDevices w else w).
  assert (Hfs1 : fs w1 = fs w) by (unfold w1; destruct (connection_check_due l); reflexivity).
  assert (Hs1 : same_store w w1)
    by (unfold w1; destruct (connection_check_due l); repeat split).
  cbn [negb].
  destruct (file_needs_backup_effect env android_path (local_path_of android_path)
              (progress l) w1) as (b & w2 & Hb & Hs2 & Hk2 & Hskip).
  rewrite Hb.
  assert (Hs : same_store w w2) by (eapply same_store_trans; eassumption).
  destruct Hs as (Hden2 & Hpf2 & Hfl2).
  pose proof (steady_under_root _ _ _ Hdev) as Hunder.
  destruct b; cbn [negb].
  - destruct (steady_pulls _ _ _ Hdev (length (trace w2)) android_path
                (local_path_of android_path) Hp) as [out Hout].
    rewrite (pull_file_delivers _ _ _ _ _ _ Hout). rewrite Hprog. cbn [py_setitem].
    rewrite save_progress_returns. cbn [denied log_call set_fs].
    rewrite bool_decide_eq_false_2 by congruence.
    eexists _, _. split; [reflexivity|]. split; [|reflexivity].
    refine (conj _ (conj _ (conj _ (conj _ _)))); cbn.
    + eexists. split; [reflexivity|]. intros q Hq.
      destruct (decide (q = android_path)) as [->|Hne].
      * rewrite lookup_insert_eq. eauto.
      * rewrite lookup_insert_ne by congruence. apply Hrec.
        apply elem_of_cons in Hq as [?|?]; [contradiction|assumption].
    + rewrite load_progress_loaded. reflexivity.
    + intros q Hq.
      destruct (decide (local_path_of q = local_path_of android_path)) as [Heq|Hne].
      * assert (q = android_path) as ->.
        { apply local_path_under_root_inj; auto. apply Hunder.
          apply elem_of_cons in Hq as [->|?]; auto. }
        rewrite lookup_insert_eq. eauto.
      * rewrite lookup_insert_ne by congruence. rewrite Hk2 by assumption. rewrite Hfs1.
        apply Hfs. apply elem_of_cons in Hq as [->|?]; [contradiction|assumption].
    + congruence.
    + exists rsz. rewrite lookup_insert_ne by (apply local_path_not_root; auto).
      rewrite Hk2 by (apply not_eq_sym, local_path_not_root; auto).
      rewrite Hfs1. assumption.
  - destruct (Hskip eq_refl) as (Hin & Hfs2 & e & He & Hsz).
    eexists _, _. split; [reflexivity|]. split; [|reflexivity].
    refine (conj _ (conj _ (conj _ (conj _ _)))); cbn.
    + exists m. split; [assumption|]. intros q Hq.
      apply elem_of_cons in Hq as [->|?]; [|auto].
      rewrite Hprog in Hin. cbn in Hin. apply bool_decide_eq_true_1 in Hin. exact Hin.
    + eapply load_progress_pfile; [|exact Hload]. assumption.
    + intros q Hq. rewrite Hfs2, Hfs1.
      apply elem_of_cons in Hq as [->|?]; [|auto].
      exists e. rewrite <- Hfs1. split; [assumption|].
      rewrite (steady_sizes _ _ _ Hdev w1 android_path Hp) in Hsz. congruence.
    + congruence.
    + exists rsz. rewrite Hfs2, Hfs1. assumption.
Qed.

Lemma mirrored_loop (dset : gset string) (rest : list string) :
  PROGRESS_FILE ∉ dset ->
  (forall q, q ∈ rest -> q ∈ files) ->
  forall done l w,
    (forall q, q ∈ done -> q ∈ files) ->
    mirrored rsize dset done l w ->
    exists l' w',
      run_loop env rest l w = (Exhausted, l', w') /\
      mirrored rsize dset (rest ++ done)%list l' w' /\
      failed_files l' = failed_files l.
Proof.
  intros Hwr. induction rest as [|p rest IH]; intros Hrest done l w Hdone Hm.
  - exists l, w. split; [reflexivity|]. split; [exact Hm | reflexivity].
  - assert (Hp : p ∈ files) by (apply Hrest, elem_of_cons; left; reflexivity).
    destruct (mirrored_step dset p done l w Hwr Hp Hdone Hm) as (l1 & w1 & Hstep & Hm1 & Hf1).
    destruct (IH (fun q Hq => Hrest q (proj2 (elem_of_cons rest q p) (or_intror Hq)))
                 (p :: done) l1 w1)
      as (l' & w' & Hloop & Hm' & Hf').
    { intros q Hq. apply elem_of_cons in Hq as [->|?]; auto. }
    { assumption. }
    exists l', w'. simpl. rewrite Hstep. split; [assumption|]. split; [|congruence].
    eapply mirrored_weaken; [|exact Hm'].
    intros q Hq. rewrite elem_of_app, elem_of_cons.
    apply elem_of_cons in Hq as [->|Hq]; [auto|].
    apply elem_of_app in Hq as [?|?]; auto.
Qed.

(** One iteration of the second run: the file is skipped by the size
    match, and nothing but the liveness check and the size query is spawned. *)
Lemma settled_step (m : gmap string json) (android_path : string) (e : entry)
    (l : Locals) (w : World) :
  android_path ∈ files ->
  progress l = PDict m ->
  is_Some (m !! android_path) ->
  fs w !! local_path_of android_path = Some e ->
  entry_size e = rsize android_path ->
  loop_body env android_path l w =
    (Next, count_skipped l,
     log_call (AdbStat android_path)
       (if connection_check_due l then log_call AdbDevices w else w)).
Proof.
  intros Hp Hprog Hrec Hfs Hsz.
  unfold loop_body, within. rewrite periodic_check_alive. cbn [negb].
  set (w1 := if connection_check_due l then log_call AdbDevices w else w).
  assert (Hfs1 : fs w1 = fs w) by (unfold w1; destruct (connection_check_due l); reflexivity).
  rewrite (file_needs_backup_skips env android_path _ (progress l) w1 e).
  - reflexivity.
  - rewrite Hprog. cbn. apply bool_decide_eq_true_2. assumption.
  - rewrite Hfs1. assumption.
  - rewrite (steady_sizes _ _ _ Hdev w1 android_path Hp). congruence.
Qed.

Lemma settled_loop (m : gmap string json) (F : gmap string entry) (rest : list string) :
  (forall p, p ∈ rest ->
     p ∈ files /\ is_Some (m !! p) /\
     exists e, F !! local_path_of p = Some e /\ entry_size e = rsize p) ->
  forall l w,
    progress l = PDict m -> fs w = F ->
    exists l' w' evs,
      run_loop env rest l w = (Exhausted, l', w') /\
      skipped_files l' = (skipped_files l + length rest)%nat /\
      successful_files l' = successful_files l /\
      failed_files l' = failed_files l /\
      trace w' = (evs ++ trace w)%list /\ Forall no_pull evs.
Proof.
  induction rest as [|p rest IH]; intros Hrest l w Hprog HF.
  - exists l, w, []. repeat split; auto.
  - destruct (Hrest p ltac:(apply elem_of_cons; left; reflexivity))
      as (Hp & Hrec & e & He & Hsz).
    simpl. rewrite (settled_step m p e l w Hp Hprog Hrec ltac:(rewrite HF; exact He) Hsz).
    destruct (IH (fun q Hq => Hrest q (proj2 (elem_of_cons rest q p) (or_intror Hq)))
                 (count_skipped l)
                 (log_call (AdbStat p)
                    (if connection_check_due l then log_call AdbDevices w else w)))
      as (l' & w' & evs & Hloop & Hsk & Hsu & Hfa & Htr & Hno).
    { exact Hprog. }
    { cbn. destruct (connection_check_due l); exact HF. }
    exists l', w',
      (evs ++ AdbStat p :: (if connection_check_due l then [AdbDevices] else []))%list.
    split; [exact Hloop|]. cbn in Hsk, Hsu, Hfa.
    split; [lia|]. split; [assumption|]. split; [assumption|]. split.
    + rewrite Htr. cbn. rewrite <- app_assoc. cbn.
      destruct (connection_check_due l); reflexivity.
    + apply Forall_app. split; [assumption|].
      apply List.Forall_cons; [intros a b; discriminate|].
      destruct (connection_check_due l);
        [apply List.Forall_cons; [intros a b; discriminate|]|]; apply List.Forall_nil.
Qed.

(** [main] up to the loop, on a steady device and a usable directory. *)
Lemma main_prelude (w : World) :
  FILE_LIST ∉ denied w ->
  fst (os_makedirs LOCAL_BACKUP_DIR w) = Ok tt ->
  exists w5 evs,
    main env w =
      (Summary (length files)
         (fst (fst (run_loop env files (initial_locals (loaded (pfile w))) w5)))
         (snd (fst (run_loop env files (initial_locals (loaded (pfile w))) w5))),
       snd (run_loop env files (initial_locals (loaded (pfile w))) w5)) /\
    denied w5 = denied w /\ pfile w5 = pfile w /\
    (forall k, is_Some (fs w !! k) -> fs w5 !! k = fs w !! k) /\
    (exists sz, fs w5 !! LOCAL_BACKUP_DIR = Some (Directory sz)) /\
    trace w5 = (evs ++ trace w)%list /\ Forall no_pull evs.
Proof.
  intros Hlist Hroot.
  destruct (check_adb_connection_returns env w) as [connected Hc].
  pose proof (steady_connected _ _ _ Hdev w) as Hok. rewrite Hc in Hok.
  simpl in Hok. injection Hok as ->.
  set (w1 := log_call AdbDevices w) in *.
  assert (Hroot1 : fst (os_makedirs LOCAL_BACKUP_DIR w1) = Ok tt).
  { revert Hroot. rewrite !os_makedirs_root. cbn.
    destruct (fs w !! LOCAL_BACKUP_DIR) as [[?|?]|]; [| |destruct (bool_decide _)]; auto. }
  destruct (os_makedirs_ok w1 Hroot1) as (Hdir & Hkeep2 & Hs2 & Ht2).
  destruct (os_makedirs LOCAL_BACKUP_DIR w1) as [r2 w2] eqn:Hm.
  cbn [fst snd] in *. subst r2.
  destruct Hs2 as (Hden2 & Hpf2 & _).
  pose proof (get_all_files_from_device_frame env ANDROID_ROOT w2) as Hfr.
  pose proof (steady_listing _ _ _ Hdev w2) as Hls.
  destruct (get_all_files_from_device env ANDROID_ROOT w2) as [r3 w3] eqn:Hf.
  cbn [fst snd] in *. rewrite Hls in Hf by (rewrite Hden2; exact Hlist).
  destruct Hfr as (Hfs3 & Hden3 & Hpf3 & Ht3).
  destruct (main_reaches_summary env w w1 w2 w3 files Hc Hm Hf
              (steady_nonempty _ _ _ Hdev)) as (Hs5 & Ht5 & Hmain).
  set (w5 := snd (create_local_directory_structure files w3)) in *.
  destruct Hs5 as (Hden5 & Hpf5 & _).
  assert (Hpf : pfile w5 = pfile w) by (cbn in *; congruence).
  assert (Hkeep5 : forall k, is_Some (fs w3 !! k) -> fs w5 !! k = fs w3 !! k).
  { intros k Hk. unfold w5, create_local_directory_structure, bind, ret.
    pose proof (create_dirs_fs files ∅ w3 k Hk) as Hcd.
    destruct (create_dirs files ∅ w3) as [[c|x] w4]; exact Hcd. }
  exists w5, [AdbFind ANDROID_ROOT; AdbDevices].
  split; [rewrite <- Hpf; exact Hmain|].
  split; [cbn in *; congruence|]. split; [exact Hpf|]. split.
  - intros k Hk. rewrite Hkeep5 by (rewrite Hfs3, Hkeep2; assumption).
    rewrite Hfs3. apply Hkeep2. assumption.
  - split.
    + destruct Hdir as [sz Hdir]. exists sz.
      rewrite Hkeep5 by (rewrite Hfs3, Hdir; eauto). rewrite Hfs3. exact Hdir.
    + split; [rewrite Ht5, Ht3, Ht2; reflexivity|].
      repeat (apply List.Forall_cons; [intros a b; discriminate|]). apply List.Forall_nil.
Qed.

(** C4 (as amended).  On a device that does not change, with the progress
    file and the listing writable, a snapshot that loads as a dictionary
    and a mirror root that can be created: the first run completes without
    a failed file, and the run started right after it spawns no [adb pull]
    at all: it counts every file as skipped and none as successful or failed. *)
Theorem second_run_transfers_nothing (w0 : World) (Hw0 : usable_workdir w0) :
  exists l1 w1 l2 w2 evs,
    main env w0 = (Summary (length files) Exhausted l1, w1) /\
    failed_files l1 = 0%nat /\
    main env w1 = (Summary (length files) Exhausted l2, w2) /\
    skipped_files l2 = length files /\
    successful_files l2 = 0%nat /\
    failed_files l2 = 0%nat /\
    trace w2 = (evs ++ trace w1)%list /\
    Forall no_pull evs.
Proof.
  destruct Hw0 as [Hwr Hlist [m0 Hsnap] Hroot].
  rewrite load_progress_loaded in Hsnap. cbn in Hsnap. injection Hsnap as Hsnap.
  (* the first run *)
  destruct (main_prelude w0 Hlist Hroot)
    as (w5 & evs0 & Hmain1 & Hden5 & Hpf5 & _ & Hdir5 & _ & _).
  rewrite Hsnap in Hmain1.
  destruct (mirrored_loop (denied w0) files Hwr (fun q Hq => Hq) []
              (initial_locals (PDict m0)) w5) as (l1 & w1 & Hloop1 & Hm1 & Hf1).
  { intros q Hq. apply elem_of_nil in Hq. contradiction. }
  { refine (conj _ (conj _ (conj _ (conj _ _)))).
    - exists m0. split; [reflexivity|]. intros p Hp. apply elem_of_nil in Hp. contradiction.
    - rewrite load_progress_loaded, Hpf5, Hsnap. reflexivity.
    - intros p Hp. apply elem_of_nil in Hp. contradiction.
    - exact Hden5.
    - exact Hdir5. }
  rewrite Hloop1 in Hmain1. cbn [fst snd] in Hmain1.
  rewrite app_nil_r in Hm1.
  destruct Hm1 as ((m1 & Hprog1 & Hrec1) & Hload1 & Hfs1 & Hden1 & [rsz Hdir1]).
  (* the second run *)
  destruct (main_prelude w1) as (w5' & evs1 & Hmain2 & Hden5' & Hpf5' & Hkeep & _ & Htr1 & Hno1).
  { rewrite Hden1. exact Hlist. }
  { rewrite os_makedirs_root, Hdir1. reflexivity. }
  rewrite load_progress_loaded in Hload1. injection Hload1 as Hload1.
  rewrite Hload1, Hprog1 in Hmain2.
  destruct (settled_loop m1 (fs w5') files) with (l := initial_locals (PDict m1)) (w := w5')
    as (l2 & w2 & evs2 & Hloop2 & Hsk & Hsu & Hfa & Htr2 & Hno2); auto.
  { intros p Hp. split; [assumption|]. split; [apply Hrec1; assumption|].
    destruct (Hfs1 p Hp) as (e & He & Hsz). exists e. split; [|assumption].
    rewrite Hkeep by eauto. assumption. }
  rewrite Hloop2 in Hmain2. cbn [fst snd] in Hmain2.
  exists l1, w1, l2, w2, (evs2 ++ evs1)%list.
  split; [exact Hmain1|]. split; [exact Hf1|]. split; [exact Hmain2|].
  split; [exact Hsk|]. split; [exact Hsu|]. split; [exact Hfa|]. split.
  - rewrite Htr2, Htr1. apply app_assoc.
  - apply Forall_app. split; assumption.
Qed.

End Idempotence.

Lemma steady_env_is_steady :
  steady_device (steady_env "/sdcard/a" "5" 5) ["/sdcard/a"] (fun _ => 5).
Proof.
  split.
  - intros w. reflexivity.
  - intros w Hw. unfold get_all_files_from_device, subprocess_run, write_file_list.
    unfold_M. cbn. rewrite bool_decide_eq_false_2 by assumption. reflexivity.
  - intros w p _. reflexivity.
  - intros n p local_path _. exists "". reflexivity.
  - intros p Hp. apply list_elem_of_singleton in Hp as ->. exists "a". reflexivity.
  - discriminate.
Qed.

Lemma empty_world_usable : usable_workdir empty_world.
Proof.
  split.
  - apply not_elem_of_empty.
  - apply not_elem_of_empty.
  - exists ∅. reflexivity.
  - reflexivity.
Qed.

Lemma second_run_transfers_nothing_witness :
  exists l1 w1 l2 w2 evs,
    main (steady_env "/sdcard/a" "5" 5) empty_world = (Summary 1 Exhausted l1, w1) /\
    failed_files l1 = 0%nat /\
    main (steady_env "/sdcard/a" "5" 5) w1 = (Summary 1 Exhausted l2, w2) /\
    skipped_files l2 = 1%nat /\
    successful_files l2 = 0%nat /\
    failed_files l2 = 0%nat /\
    trace w2 = (evs ++ trace w1)%list /\
    Forall no_pull evs.
Proof.
  exact (second_run_transfers_nothing (steady_env "/sdcard/a" "5" 5) ["/sdcard/a"]
           (fun _ => 5) steady_env_is_steady empty_world empty_world_usable).
Defined.

(** C4, the claim as written fails: same listing, same remote size and a
    successful transfer in the first run, but the progress file may not be
    written, so the second run finds no record and pulls the file again. *)
Lemma second_run_pulls_again_when_store_unwritable :
  (exists l1,
     fst (main (steady_env "/sdcard/a" "5" 5) write_protected_world)
       = Summary 1 Exhausted l1 /\
     successful_files l1 = 1%nat /\ failed_files l1 = 0%nat) /\
  (exists l2,
     fst (main (steady_env "/sdcard/a" "5" 5)
            (snd (main (steady_env "/sdcard/a" "5" 5) write_protected_world)))
       = Summary 1 Exhausted l2 /\
     successful_files l2 = 1%nat /\ skipped_files l2 = 0%nat) /\
  head (trace (snd (main (steady_env "/sdcard/a" "5" 5)
                      (snd (main (steady_env "/sdcard/a" "5" 5) write_protected_world)))))
    = Some (AdbPull "/sdcard/a" "android_backup/sdcard/a").
Proof.
  split; [|split].
  - eexists. vm_compute. repeat split.
  - eexists. vm_compute. repeat split.
  - vm_compute. reflexivity.
Qed.

(** ** A progress file that is not a JSON object *)

(** X2.  When the loaded progress value is a list or a string, the item
    assignment after a successful pull raises [TypeError]: the iteration
    ends by that exception with the locals as they were, and nothing is
    saved. *)
Lemma transfer_on_non_dict_raises (env : Env) (android_path : string) (l : Locals)
    (w w1 w2 w3 : World)
    (Hcheck : periodic_check env l w = (Ok true, w1))
    (Hneeded : file_needs_backup env android_path (local_path_of android_path)
                 (progress l) w1 = (Ok true, w2))
    (Hpull : pull_file env android_path (local_path_of android_path) w2 = (Ok true, w3))
    (Hshape : forall m, progress l <> PDict m) :
  loop_body env android_path l w = (Raised TypeError, l, w3).
Proof.
  unfold loop_body, within. rewrite Hcheck. cbn [negb]. rewrite Hneeded. cbn [negb].
  rewrite Hpull. destruct (progress l) as [m| |]; [destruct (Hshape m eq_refl)| |];
    reflexivity.
Qed.

Lemma transfer_on_non_dict_raises_witness :
  loop_body (steady_env "/sdcard/a" "5" 5) "/sdcard/a" (initial_locals (PList [])) empty_world
  = (Raised TypeError, initial_locals (PList []),
     after_pull (steady_env "/sdcard/a" "5" 5) "/sdcard/a" "android_backup/sdcard/a"
       empty_world).
Proof.
  apply (transfer_on_non_dict_raises (steady_env "/sdcard/a" "5" 5) "/sdcard/a"
           (initial_locals (PList [])) empty_world empty_world empty_world
           (after_pull (steady_env "/sdcard/a" "5" 5) "/sdcard/a" "android_backup/sdcard/a"
              empty_world) eq_refl eq_refl eq_refl).
  intros m. discriminate.
Defined.

(** ** The scenarios of the design document *)

(** Remote lists [/a, /b, /c], local mirror and progress store empty:
    three transfers, three records, all successful. *)
Example scenario_fresh_mirror :
  exists l w,
    main (steady_env "/a
/b
/c
" "5" 5) empty_world = (Summary 3 Exhausted l, w) /\
    successful_files l = 3%nat /\ skipped_files l = 0%nat /\ failed_files l = 0%nat /\
    py_in "/a" (progress l) && py_in "/b" (progress l) && py_in "/c" (progress l) = true /\
    rev (trace w) =
      [AdbDevices; AdbFind "/sdcard/";
       AdbPull "/a" "android_backup/a"; AdbPull "/b" "android_backup/b";
       AdbPull "/c" "android_backup/c"].
Proof. eexists _, _. split; [vm_compute; reflexivity|]. vm_compute. repeat split. Qed.

(** Remote lists [/a, /b]; [/a] is recorded and mirrored with the remote
    size: exactly one transfer, for [/b]. *)
Example scenario_one_recorded :
  exists l w,
    main (steady_env "/a
/b
" "5" 5)
         (mkWorld {[ "android_backup/a" := RegFile 5 ]} ∅ ∅
                  (Valid (JObj {[ "/a" := ProgressRecord 0 "android_backup/a" ]}))
                  None [])
      = (Summary 2 Exhausted l, w) /\
    successful_files l = 1%nat /\ skipped_files l = 1%nat /\ failed_files l = 0%nat /\
    rev (trace w) =
      [AdbDevices; AdbFind "/sdcard/"; AdbStat "/a"; AdbPull "/b" "android_backup/b"].
Proof. eexists _, _. split; [vm_compute; reflexivity|]. vm_compute. repeat split. Qed.

(** Corruption repair: a recorded local copy of 3 bytes against a remote
    size of 5 is deleted and fetched again. *)
Example scenario_repair :
  exists l w,
    main (steady_env "/sdcard/a" "5" 5)
         (mkWorld {[ "android_backup/sdcard/a" := RegFile 3 ]} ∅ ∅
                  (Valid (dump recorded_a)) None [])
      = (Summary 1 Exhausted l, w) /\
    successful_files l = 1%nat /\
    fs w !! "android_backup/sdcard/a" = Some (RegFile 5) /\
    rev (trace w) =
      [AdbDevices; AdbFind "/sdcard/"; AdbStat "/sdcard/a";
       AdbPull "/sdcard/a" "android_backup/sdcard/a"].
Proof. eexists _, _. split; [vm_compute; reflexivity|]. vm_compute. repeat split. Qed.

(** A progress file holding the JSON array [[]]: the first successful pull
    ends the loop by [TypeError]; the statistics count nothing. *)
Example scenario_array_snapshot :
  exists l w,
    main (steady_env "/sdcard/a" "5" 5) (mkWorld ∅ ∅ ∅ (Valid (JArr [])) None [])
      = (Summary 1 (Caught TypeError) l, w) /\
    processed_files l = 0%nat /\ successful_files l = 0%nat /\
    fs w !! "android_backup/sdcard/a" = Some (RegFile 5).
Proof. eexists _, _. split; [vm_compute; reflexivity|]. vm_compute. repeat split. Qed.

(** * Further properties of the functions of [main.py] *)

(** ** Strings *)

Lemma string_app_cons (c : ascii) (s t : string) :
  String c s +:+ t = String c (s +:+ t).
Proof. reflexivity. Qed.

Lemma string_app_nil (t : string) : EmptyString +:+ t = t.
Proof. reflexivity. Qed.

Ltac app_norm := rewrite ?string_app_cons, ?string_app_nil.

Lemma lstrip_by_all (p : ascii -> bool) (pre s : string) :
  PyStr.all_chars p pre = true ->
  PyStr.lstrip_by p (pre +:+ s) = PyStr.lstrip_by p s.
Proof.
  induction pre as [|c pre IH]; app_norm; cbn; [reflexivity|].
  intros H. apply andb_true_iff in H as [Hc Hpre]. rewrite Hc. auto.
Qed.

Lemma rstrip_by_all (p : ascii -> bool) (post : string) :
  PyStr.all_chars p post = true -> PyStr.rstrip_by p post = EmptyString.
Proof.
  induction post as [|c post IH]; cbn; [reflexivity|].
  intros H. apply andb_true_iff in H as [Hc Hpost]. rewrite IH by assumption.
  rewrite Hc. reflexivity.
Qed.

Lemma rstrip_by_app (p : ascii -> bool) (s post : string) :
  PyStr.all_chars p post = true ->
  PyStr.rstrip_by p (s +:+ post) = PyStr.rstrip_by p s.
Proof.
  intros Hpost. induction s as [|c s IH]; app_norm; cbn.
  - apply rstrip_by_all. assumption.
  - rewrite IH. reflexivity.
Qed.

Lemma rstrip_by_app_keep (p : ascii -> bool) (s t : string) :
  PyStr.rstrip_by p t <> EmptyString ->
  PyStr.rstrip_by p (s +:+ t) = s +:+ PyStr.rstrip_by p t.
Proof.
  intros Ht. induction s as [|c s IH]; app_norm; cbn; [reflexivity|].
  rewrite IH. destruct (s +:+ PyStr.rstrip_by p t) eqn:E; [|reflexivity].
  destruct s; [rewrite string_app_nil in E; contradiction|discriminate].
Qed.

Lemma lstrip_by_none (p : ascii -> bool) (s : string) :
  PyStr.all_chars (fun c => negb (p c)) s = true -> PyStr.lstrip_by p s = s.
Proof.
  destruct s as [|c s]; cbn; [reflexivity|].
  intros H. apply andb_true_iff in H as [Hc _].
  destruct (p c); [discriminate|reflexivity].
Qed.

Lemma rstrip_by_none (p : ascii -> bool) (s : string) :
  PyStr.all_chars (fun c => negb (p c)) s = true -> PyStr.rstrip_by p s = s.
Proof.
  induction s as [|c s IH]; cbn; [reflexivity|].
  intros H. apply andb_true_iff in H as [Hc Hs]. rewrite IH by assumption.
  destruct s; [|reflexivity]. destruct (p c); [discriminate|reflexivity].
Qed.

Lemma lstrip_by_all_empty (p : ascii -> bool) (s : string) :
  PyStr.all_chars p s = true -> PyStr.lstrip_by p s = EmptyString.
Proof.
  induction s as [|c s IH]; cbn; [reflexivity|].
  intros H. apply andb_true_iff in H as [Hc Hs]. rewrite Hc. auto.
Qed.

(** Surrounding whitespace is all that [strip] removes from a text without
    whitespace. *)
Lemma strip_padded (pre s post : string) :
  PyStr.all_chars PyStr.isspace pre = true ->
  PyStr.all_chars PyStr.isspace post = true ->
  PyStr.all_chars (fun c => negb (PyStr.isspace c)) s = true ->
  PyStr.strip (pre +:+ s +:+ post) = s.
Proof.
  intros Hpre Hpost Hs. unfold PyStr.strip.
  rewrite lstrip_by_all by assumption.
  destruct s as [|c s].
  - rewrite string_app_nil, lstrip_by_all_empty by assumption. reflexivity.
  - assert (Hl : PyStr.lstrip_by PyStr.isspace (String c s +:+ post) = String c s +:+ post).
    { cbn in Hs. apply andb_true_iff in Hs as [Hc _]. rewrite string_app_cons. cbn.
      destruct (PyStr.isspace c); [discriminate|reflexivity]. }
    rewrite Hl. rewrite rstrip_by_app by assumption. apply rstrip_by_none. assumption.
Qed.

(** ** Reading sizes *)

Lemma int_acc_pow (s : string) :
  forall a, PyStr.int_acc a s = a * 10 ^ N.of_nat (String.length s) + PyStr.int_acc 0 s.
Proof.
  induction s as [|c s IH]; intros a; cbn [PyStr.int_acc String.length].
  - cbn. lia.
  - rewrite (IH (10 * a + _)), (IH (10 * 0 + _)).
    rewrite Nat2N.inj_succ, N.pow_succ_r'. lia.
Qed.

Lemma digit_char_value (d : N) : d < 10 -> N_of_ascii (digit_char d) = 48 + d.
Proof. intros H. unfold digit_char. apply N_ascii_embedding. lia. Qed.

Lemma decimal_fuel_value (fuel : nat) :
  forall n acc,
    n < 10 ^ N.of_nat fuel ->
    PyStr.int_acc 0 (decimal_fuel fuel n acc)
      = n * 10 ^ N.of_nat (String.length acc) + PyStr.int_acc 0 acc.
Proof.
  induction fuel as [|fuel IH]; intros n acc Hn.
  - cbn in Hn. cbn [decimal_fuel]. assert (n = 0) as -> by lia. lia.
  - cbn [decimal_fuel].
    assert (Hd : n mod 10 < 10) by (apply N.mod_lt; lia).
    assert (Hacc : PyStr.int_acc 0 (String (digit_char (n mod 10)) acc)
                   = n mod 10 * 10 ^ N.of_nat (String.length acc) + PyStr.int_acc 0 acc).
    { cbn [PyStr.int_acc]. rewrite int_acc_pow, digit_char_value by assumption.
      f_equal. f_equal. generalize (n mod 10). intros m. lia. }
    destruct (N.ltb_spec n 10) as [Hlt|Hge].
    + rewrite Hacc. rewrite N.mod_small by assumption. reflexivity.
    + rewrite IH.
      * rewrite Hacc. cbn [String.length]. rewrite Nat2N.inj_succ, N.pow_succ_r'.
        pose proof (N.div_mod n 10 ltac:(lia)) as Hdm. nia.
      * rewrite Nat2N.inj_succ, N.pow_succ_r' in Hn.
        apply N.Div0.div_lt_upper_bound. lia.
Qed.

Lemma decimal_fuel_enough (n : N) : n < 10 ^ N.of_nat (S (N.to_nat (N.log2 n))).
Proof.
  rewrite Nat2N.inj_succ, N2Nat.id.
  destruct (N.eq_dec n 0) as [->|Hn]; [cbn; lia|].
  pose proof (N.log2_spec n ltac:(lia)) as [_ Hup].
  eapply N.lt_le_trans; [exact Hup|].
  apply N.pow_le_mono_l. lia.
Qed.

(** The digits of the numeral printed for [n] stand for [n]. *)
Lemma int_acc_decimal (n : N) : PyStr.int_acc 0 (decimal n) = n.
Proof.
  unfold decimal. rewrite decimal_fuel_value by apply decimal_fuel_enough. cbn. lia.
Qed.

(** The numeral of [n] has at most [d] digits exactly when [n < 10 ^ d]. *)
Lemma decimal_fuel_grows (fuel : nat) :
  forall n acc, (String.length acc <= String.length (decimal_fuel fuel n acc))%nat.
Proof.
  induction fuel as [|fuel IH]; intros n acc; cbn [decimal_fuel]; [lia|].
  destruct (n <? 10); [cbn [String.length]; lia|].
  etransitivity; [|apply IH]. cbn [String.length]. lia.
Qed.

Lemma decimal_fuel_short (fuel : nat) :
  forall n acc d,
    n < 10 ^ N.of_nat (S d) ->
    (String.length (decimal_fuel fuel n acc) <= String.length acc + S d)%nat.
Proof.
  induction fuel as [|fuel IH]; intros n acc d Hn; cbn [decimal_fuel]; [lia|].
  destruct (N.ltb_spec n 10) as [Hlt|Hge]; [cbn [String.length]; lia|].
  destruct d as [|d].
  - change (10 ^ N.of_nat 1) with 10 in Hn. lia.
  - etransitivity; [apply (IH _ _ d)|cbn [String.length]; lia].
    rewrite Nat2N.inj_succ, N.pow_succ_r' in Hn.
    apply N.Div0.div_lt_upper_bound. exact Hn.
Qed.

Lemma decimal_fuel_long (fuel : nat) :
  forall n acc d,
    n < 10 ^ N.of_nat fuel ->
    10 ^ N.of_nat d <= n ->
    (String.length acc + d < String.length (decimal_fuel fuel n acc))%nat.
Proof.
  induction fuel as [|fuel IH]; intros n acc d Hn Hd; cbn [decimal_fuel].
  - change (10 ^ N.of_nat 0) with 1 in Hn.
    assert (0 < 10 ^ N.of_nat d) by (apply N.neq_0_lt_0, N.pow_nonzero; discriminate).
    lia.
  - destruct (N.ltb_spec n 10) as [Hlt|Hge].
    + destruct d as [|d]; [cbn [String.length]; lia|].
      rewrite Nat2N.inj_succ, N.pow_succ_r' in Hd.
      assert (0 < 10 ^ N.of_nat d) by (apply N.neq_0_lt_0, N.pow_nonzero; discriminate).
      lia.
    + destruct d as [|d].
      * pose proof (decimal_fuel_grows fuel (n / 10)
                      (String (digit_char (n mod 10)) acc)) as Hg.
        cbn [String.length] in Hg. lia.
      * eapply Nat.lt_le_trans; [|apply Nat.eq_le_incl; reflexivity].
        pose proof (IH (n / 10) (String (digit_char (n mod 10)) acc) d) as Hl.
        cbn [String.length] in Hl.
        rewrite Nat2N.inj_succ, N.pow_succ_r' in Hn, Hd.
        assert (H1 : n / 10 < 10 ^ N.of_nat fuel)
          by (apply N.Div0.div_lt_upper_bound; exact Hn).
        assert (H2 : 10 ^ N.of_nat d <= n / 10)
          by (apply N.div_le_lower_bound; [discriminate|exact Hd]).
        specialize (Hl H1 H2). lia.
Qed.

Lemma decimal_length (n : N) (d : nat) :
  (String.length (decimal n) <=? S d)%nat = (n <? 10 ^ N.of_nat (S d)).
Proof.
  destruct (N.ltb_spec n (10 ^ N.of_nat (S d))) as [Hlt|Hge].
  - apply Nat.leb_le. unfold decimal.
    pose proof (decimal_fuel_short (S (N.to_nat (N.log2 n))) n EmptyString d Hlt) as H.
    cbn [String.length] in H. lia.
  - apply Nat.leb_gt. unfold decimal.
    pose proof (decimal_fuel_long (S (N.to_nat (N.log2 n))) n EmptyString (S d)
                  (decimal_fuel_enough n) Hge) as H.
    cbn [String.length] in H. lia.
Qed.

(** [int] reads back the numeral printed for [n] unless it has more than
    4300 digits. *)
Lemma int_decimal (n : N) :
  PyStr.int (decimal n) = if n <? 10 ^ 4300 then Some n else None.
Proof.
  unfold PyStr.int. rewrite int_acc_decimal.
  change PyStr.max_str_digits with (S 4299).
  rewrite decimal_length. reflexivity.
Qed.

Lemma digit_char_isdigit (d : N) : d < 10 -> PyStr.isdigit_char (digit_char d) = true.
Proof.
  intros H. unfold PyStr.isdigit_char. rewrite digit_char_value by assumption.
  apply andb_true_iff. split; apply N.leb_le; lia.
Qed.

Lemma decimal_fuel_digits (fuel : nat) :
  forall n acc,
    PyStr.all_chars PyStr.isdigit_char acc = true ->
    PyStr.all_chars PyStr.isdigit_char (decimal_fuel fuel n acc) = true.
Proof.
  induction fuel as [|fuel IH]; intros n acc Hacc; cbn [decimal_fuel]; [assumption|].
  assert (Hacc' : PyStr.all_chars PyStr.isdigit_char (String (digit_char (n mod 10)) acc)
                  = true).
  { cbn [PyStr.all_chars]. rewrite digit_char_isdigit by (apply N.mod_lt; lia). assumption. }
  destruct (n <? 10); [assumption | apply IH; assumption].
Qed.

Lemma decimal_fuel_nonempty (fuel : nat) :
  forall n acc, acc <> EmptyString -> decimal_fuel fuel n acc <> EmptyString.
Proof.
  induction fuel as [|fuel IH]; intros n acc Hacc; cbn [decimal_fuel]; [assumption|].
  destruct (n <? 10); [discriminate | apply IH; discriminate].
Qed.

Lemma isdigit_decimal (n : N) : PyStr.isdigit (decimal n) = true.
Proof.
  unfold PyStr.isdigit, decimal. apply andb_true_iff. split.
  - cbn [decimal_fuel].
    destruct (n <? 10); [reflexivity|].
    destruct (decimal_fuel _ _ _) eqn:E; [|reflexivity].
    exfalso. revert E. apply decimal_fuel_nonempty. discriminate.
  - apply decimal_fuel_digits. reflexivity.
Qed.

Lemma digits_not_space (s : string) :
  PyStr.all_chars PyStr.isdigit_char s = true ->
  PyStr.all_chars (fun c => negb (PyStr.isspace c)) s = true.
Proof.
  induction s as [|c s IH]; cbn [PyStr.all_chars]; [reflexivity|].
  intros H. apply andb_true_iff in H as [Hc Hs]. rewrite IH by assumption.
  rewrite andb_true_r. unfold PyStr.isdigit_char, PyStr.isspace in *.
  apply andb_true_iff in Hc as [H1 H2]. apply N.leb_le in H1, H2.
  apply negb_true_iff, orb_false_iff. split; apply andb_false_iff.
  - right. apply N.leb_gt. lia.
  - right. apply N.leb_gt. lia.
Qed.

(** X3.  The size query reads back every size below [10 ^ 4300] exactly:
    when [stat] prints the decimal numeral of [n], with any whitespace
    around it, the result is [n] if the command returned 0 and the numeral
    has at most 4300 digits, and "unobtainable" otherwise: [int] refuses a
    longer numeral, and the [ValueError] is swallowed. *)
Theorem get_file_size_reads_decimal (env : Env) (file_path : string) (w : World)
    (n : N) (rc : Z) (pre post : string)
    (Hpre : PyStr.all_chars PyStr.isspace pre = true)
    (Hpost : PyStr.all_chars PyStr.isspace post = true)
    (Hout : adb_stat env (length (trace w)) file_path
            = Completed rc (pre +:+ decimal n +:+ post)) :
  get_file_size_on_device env file_path w
    = (Ok (if (rc =? 0)%Z && (n <? 10 ^ 4300) then Some n else None),
       log_call (AdbStat file_path) w).
Proof.
  unfold get_file_size_on_device, subprocess_run. unfold_M. rewrite Hout.
  pose proof (isdigit_decimal n) as Hd.
  rewrite strip_padded; try assumption.
  - rewrite Hd, int_decimal.
    destruct (rc =? 0)%Z; [|reflexivity]. destruct (n <? 10 ^ 4300); reflexivity.
  - apply digits_not_space. unfold PyStr.isdigit in Hd.
    apply andb_true_iff in Hd as [_ Hd]. exact Hd.
Qed.

Lemma get_file_size_reads_decimal_witness :
  get_file_size_on_device (steady_env "/sdcard/a" " 1234567
" 5) "/sdcard/a" empty_world
    = (Ok (Some 1234567), log_call (AdbStat "/sdcard/a") empty_world).
Proof.
  exact (get_file_size_reads_decimal (steady_env "/sdcard/a" " 1234567
" 5) "/sdcard/a" empty_world 1234567 0 " " "
" eq_refl eq_refl eq_refl).
Defined.

(** ** The progress store, saved and loaded *)

(** X4.  What a save leaves for the next load.  [save_progress] never
    raises; loading after it yields the saved value when the write
    succeeded, what loading yielded before when the progress file could not
    be opened, and the empty dictionary when the write failed after the file
    was opened: the file is then cut short, and every earlier record is
    lost with it. *)
Theorem save_then_load (p : progress_t) (w : World) :
  fst (save_progress p w) = Ok tt /\
  load_progress (snd (save_progress p w))
    = (Ok (if bool_decide (PROGRESS_FILE ∈ denied w) then
             if bool_decide (PROGRESS_FILE ∈ torn w) then PDict ∅ else loaded (pfile w)
           else p),
       snd (save_progress p w)).
Proof.
  rewrite save_progress_returns, load_progress_loaded. cbn [fst snd].
  split; [reflexivity|].
  destruct (bool_decide (PROGRESS_FILE ∈ denied w)).
  - destruct (bool_decide (PROGRESS_FILE ∈ torn w)); reflexivity.
  - destruct p; reflexivity.
Qed.

(** On a full disk a successful pull costs the store: the record is kept in
    memory, the file on disk is cut short, and the next load starts from
    the empty dictionary. *)
Example scenario_full_disk :
  let env := steady_env "/sdcard/a" "5" 5 in
  let r := loop_body env "/sdcard/a" (initial_locals recorded_a) full_disk_world in
  fst (fst r) = Next /\
  successful_files (snd (fst r)) = 1%nat /\
  pfile (snd r) = Malformed /\
  fst (load_progress (snd r)) = Ok (PDict ∅).
Proof. vm_compute. repeat split. Qed.

(** ** The transfer executor, all outcomes *)

(** X5.  [pull_file] returns success exactly when the subprocess completed
    with return code 0 and something exists at the local path afterwards.
    It spawns exactly one [adb pull], and unless the subprocess exceeded its
    timeout it cleans nothing up: what a failed pull left at the local path
    stays there. *)
Theorem pull_file_outcome (env : Env) (android_path local_path : string) (w : World) :
  let w1 := after_pull env android_path local_path w in
  exists (b : bool) (w' : World),
    pull_file env android_path local_path w = (Ok b, w') /\
    (b = true <->
       (exists out, fst (adb_pull env (length (trace w)) android_path local_path)
                    = Completed 0 out) /\
       is_Some (fs w1 !! local_path)) /\
    (fst (adb_pull env (length (trace w)) android_path local_path) <> Expired -> w' = w1) /\
    trace w' = AdbPull android_path local_path :: trace w.
Proof.
  intros w1. destruct (pull_file_returns env android_path local_path w)
    as (b & w' & Hp & _ & Ht).
  exists b, w'. split; [exact Hp|]. split; [|split; [|exact Ht]].
  - rewrite pull_file_cases in Hp. fold w1 in Hp.
    destruct (fst (adb_pull env _ _ _)) as [rc out| |]; injection Hp as <- _.
    + rewrite andb_true_iff, Z.eqb_eq, bool_decide_eq_true. split.
      * intros [-> Hex]. eauto.
      * intros [[out' Hout] Hex]. injection Hout as -> _. auto.
    + split; [discriminate|]. intros [[out Hout] _]. discriminate.
    + split; [discriminate|]. intros [[out Hout] _]. discriminate.
  - intros Hne. rewrite pull_file_cases in Hp. fold w1 in Hp.
    destruct (fst (adb_pull env _ _ _)) as [rc out| |]; try contradiction;
      injection Hp as _ <-; reflexivity.
Qed.

(** ** The enumerator *)

Lemma rstrip_by_cons (p : ascii -> bool) (c : ascii) (s : string) :
  PyStr.rstrip_by p (String c s) =
    match PyStr.rstrip_by p s with
    | EmptyString => if p c then EmptyString else String c EmptyString
    | r => String c r
    end.
Proof. reflexivity. Qed.

Lemma rstrip_by_idem (p : ascii -> bool) (s : string) :
  PyStr.rstrip_by p (PyStr.rstrip_by p s) = PyStr.rstrip_by p s.
Proof.
  induction s as [|c s IH]; [reflexivity|].
  rewrite rstrip_by_cons.
  destruct (PyStr.rstrip_by p s) as [|c' r] eqn:E.
  - destruct (p c) eqn:Hc; [reflexivity|]. rewrite rstrip_by_cons. cbn.
    rewrite Hc. reflexivity.
  - rewrite rstrip_by_cons, IH. reflexivity.
Qed.

Lemma lstrip_by_clean_head (p : ascii -> bool) (s : string) :
  clean_head p (PyStr.lstrip_by p s).
Proof.
  induction s as [|c s IH]; cbn; [exact I|].
  destruct (p c) eqn:Hc; [exact IH | exact Hc].
Qed.

Lemma rstrip_by_clean_head (p : ascii -> bool) (s : string) :
  clean_head p s -> clean_head p (PyStr.rstrip_by p s).
Proof.
  destruct s as [|c s]; cbn; [auto|]. intros Hc.
  destruct (PyStr.rstrip_by p s); [rewrite Hc|]; exact Hc.
Qed.

Lemma lstrip_by_clean (p : ascii -> bool) (s : string) :
  clean_head p s -> PyStr.lstrip_by p s = s.
Proof. destruct s as [|c s]; cbn; [reflexivity|]. intros ->. reflexivity. Qed.

(** [strip] is idempotent. *)
Lemma strip_idem (s : string) : PyStr.strip (PyStr.strip s) = PyStr.strip s.
Proof.
  unfold PyStr.strip.
  rewrite (lstrip_by_clean PyStr.isspace (PyStr.rstrip_by _ _)).
  - apply rstrip_by_idem.
  - apply rstrip_by_clean_head, lstrip_by_clean_head.
Qed.

(** X6.  [get_all_files_from_device] never raises.  Every path it returns
    is non-empty and carries no leading or trailing whitespace (a remote
    name with surrounding whitespace is listed without it); a non-empty
    result has also been written to the listing file; the result is empty
    whenever the listing file may not be written; the local tree and the
    progress file are not touched. *)
Theorem enumeration_paths (env : Env) (path : string) (w : World) :
  exists files w',
    get_all_files_from_device env path w = (Ok files, w') /\
    (forall f, f ∈ files -> f <> EmptyString /\ PyStr.strip f = f) /\
    (files <> [] -> flist w' = Some (Lines files)) /\
    (FILE_LIST ∈ denied w -> files = []) /\
    fs w' = fs w /\ pfile w' = pfile w /\
    trace w' = AdbFind path :: trace w.
Proof.
  unfold get_all_files_from_device, subprocess_run, write_file_list. unfold_M.
  assert (Hnone : forall f : string, f ∈ @nil string -> f <> EmptyString /\ PyStr.strip f = f).
  { intros f Hf. apply elem_of_nil in Hf. contradiction. }
  assert (Hempty : forall w', fs w' = fs w -> pfile w' = pfile w ->
            trace w' = AdbFind path :: trace w ->
            exists files w'',
              (Ok (@nil string), w') = (Ok files, w'') /\
              (forall f, f ∈ files -> f <> EmptyString /\ PyStr.strip f = f) /\
              (files <> [] -> flist w'' = Some (Lines files)) /\
              (FILE_LIST ∈ denied w -> files = []) /\
              fs w'' = fs w /\ pfile w'' = pfile w /\
              trace w'' = AdbFind path :: trace w).
  { intros w' H1 H2 H3. exists [], w'. split; [reflexivity|]. split; [exact Hnone|].
    split; [intros H; destruct (H eq_refl)|]. split; [reflexivity|]. auto. }
  destruct (adb_find env _ _) as [rc out| |]; cbn.
  2,3: apply Hempty; reflexivity.
  destruct (rc =? 0)%Z; cbn.
  2: apply Hempty; reflexivity.
  destruct (bool_decide (FILE_LIST ∈ denied w)) eqn:Hden; cbn.
  - destruct (bool_decide (FILE_LIST ∈ torn w)); cbn; apply Hempty; reflexivity.
  - apply bool_decide_eq_false_1 in Hden.
    eexists _, _; split; [reflexivity|]. split; [|repeat split; auto; contradiction].
    intros f Hf. apply list_elem_of_In, in_map_iff in Hf as (line & <- & Hline).
    apply list_elem_of_In, list_elem_of_filter in Hline as [Hne _].
    split; [|apply strip_idem].
    destruct (PyStr.strip line); [discriminate|discriminate].
Qed.

(** ** The connection check *)

Lemma rstrip_by_empty_all (p : ascii -> bool) (s : string) :
  PyStr.rstrip_by p s = EmptyString -> PyStr.all_chars p s = true.
Proof.
  induction s as [|c s IH]; [reflexivity|].
  rewrite rstrip_by_cons. cbn [PyStr.all_chars].
  destruct (PyStr.rstrip_by p s); [|discriminate].
  destruct (p c); [|discriminate]. intros _. rewrite IH; reflexivity.
Qed.

Lemma split_length_cons (sep c : ascii) (s : string) :
  length (PyStr.split sep (String c s)) =
    if Ascii.eqb c sep then S (length (PyStr.split sep s)) else length (PyStr.split sep s).
Proof.
  cbn [PyStr.split]. destruct (Ascii.eqb c sep); [reflexivity|].
  destruct (PyStr.split sep s) eqn:E; [|reflexivity].
  destruct s; cbn in E; [discriminate|].
  destruct (Ascii.eqb _ _); [discriminate|]. destruct (PyStr.split sep s); discriminate.
Qed.

Lemma split_length_app (sep : ascii) (a b : string) :
  length (PyStr.split sep (a +:+ b)) =
    (length (PyStr.split sep a) + length (PyStr.split sep b) - 1)%nat.
Proof.
  induction a as [|c a IH].
  - rewrite string_app_nil. cbn. lia.
  - rewrite string_app_cons, !split_length_cons, IH.
    assert (1 <= length (PyStr.split sep a))%nat.
    { clear. induction a as [|c a IH]; [cbn; lia|].
      rewrite split_length_cons. destruct (Ascii.eqb c sep); lia. }
    destruct (Ascii.eqb c sep); lia.
Qed.

Lemma split_length_pos (sep : ascii) (s : string) :
  (1 <= length (PyStr.split sep s))%nat.
Proof.
  induction s as [|c s IH]; [cbn; lia|].
  rewrite split_length_cons. destruct (Ascii.eqb c sep); lia.
Qed.

(** X7.  When [adb devices] prints its header line, the connection check
    succeeds exactly when the command returned 0 and anything that is not
    blank follows the header, whatever that text says: the word "device"
    is found in the header itself, so a device listed as offline or
    unauthorized counts as connected. *)
Theorem check_adb_connection_header (env : Env) (w : World) (rc : Z) (rest : string)
    (Hout : adb_devices env (length (trace w)) = Completed rc (devices_header +:+ rest)) :
  check_adb_connection env w
    = (Ok ((rc =? 0)%Z && negb (PyStr.all_chars PyStr.isspace rest)),
       log_call AdbDevices w).
Proof.
  unfold check_adb_connection, subprocess_run. unfold_M. rewrite Hout.
  destruct (rc =? 0)%Z; cbn [negb andb]; [|reflexivity].
  assert (Hdev : PyStr.contains "device" (devices_header +:+ rest) = true) by reflexivity.
  rewrite Hdev. cbn [negb]. rewrite orb_false_r.
  assert (Hl : PyStr.lstrip_by PyStr.isspace (devices_header +:+ rest)
               = devices_header +:+ rest) by reflexivity.
  unfold PyStr.strip. rewrite Hl.
  destruct (PyStr.all_chars PyStr.isspace rest) eqn:Hrest.
  - rewrite rstrip_by_app by assumption. reflexivity.
  - assert (Hne : PyStr.rstrip_by PyStr.isspace rest <> EmptyString).
    { intros E. apply rstrip_by_empty_all in E. congruence. }
    rewrite rstrip_by_app_keep by assumption. rewrite split_length_app.
    pose proof (split_length_pos PyStr.newline (PyStr.rstrip_by PyStr.isspace rest)) as Hp.
    change (length (PyStr.split PyStr.newline devices_header)) with 2%nat.
    destruct (_ <=? 1)%nat eqn:E; [|reflexivity].
    apply Nat.leb_le in E. lia.
Qed.

Lemma check_adb_connection_header_witness :
  check_adb_connection offline_device_env empty_world
  = (Ok true, log_call AdbDevices empty_world).
Proof.
  exact (check_adb_connection_header offline_device_env empty_world 0
           "0123456789ABCDEF	offline
" eq_refl).
Defined.

(** ** What one iteration leaves alone *)

Lemma periodic_check_world (env : Env) (l : Locals) (w : World) :
  snd (periodic_check env l w) = if connection_check_due l then log_call AdbDevices w else w.
Proof. destruct (periodic_check_returns env l w) as [a [-> _]]. reflexivity. Qed.

Lemma file_needs_backup_frame (env : Env) (android_path local_path : string)
    (progress : progress_t) (w : World) :
  let w' := snd (file_needs_backup env android_path local_path progress w) in
  same_store w w' /\
  (forall k, k <> local_path -> fs w' !! k = fs w !! k) /\
  count_pulls (trace w') = count_pulls (trace w).
Proof.
  destruct (file_needs_backup_effect env android_path local_path progress w)
    as (b & w' & Hb & Hs & Hk & _).
  destruct (file_needs_backup_returns env android_path local_path progress w)
    as (b' & w'' & Hb' & _ & Ht).
  rewrite Hb in Hb'. injection Hb' as _ <-. rewrite Hb. cbn [snd].
  split; [exact Hs|]. split; [exact Hk|].
  destruct Ht as [-> | ->]; reflexivity.
Qed.

Lemma pull_file_frame (env : Env) (android_path local_path : string) (w : World) :
  let w' := snd (pull_file env android_path local_path w) in
  same_store w w' /\
  (forall k, k <> local_path -> fs w' !! k = fs w !! k) /\
  trace w' = AdbPull android_path local_path :: trace w.
Proof.
  destruct (pull_file_returns env android_path local_path w) as (b & w' & Hp & Hs & Ht).
  pose proof (pull_file_cases env android_path local_path w) as Hc. cbn zeta in Hc.
  rewrite Hp in *. cbn [snd]. split; [exact Hs|]. split; [|exact Ht].
  intros k Hk.
  assert (Hafter : fs (after_pull env android_path local_path w) !! k = fs w !! k).
  { unfold after_pull.
    destruct (snd (adb_pull env (length (trace w)) android_path local_path));
      cbn; [|reflexivity].
    apply lookup_insert_ne. congruence. }
  set (w1 := after_pull env android_path local_path w) in *. clearbody w1.
  destruct (fst (adb_pull env _ _ _)) as [rc out| |]; injection Hc as _ ->;
    try exact Hafter.
  destruct (fs w1 !! local_path) as [e|] eqn:Hfs; [|exact Hafter].
  rewrite os_remove_cases, Hfs.
  destruct e; [destruct (bool_decide _)|]; cbn; try exact Hafter.
  rewrite lookup_delete_ne by congruence. exact Hafter.
Qed.

Lemma grown_refl (p : progress_t) : grown p p.
Proof. destruct p; cbn; auto. Qed.

Lemma grown_trans (p0 p1 p2 : progress_t) : grown p0 p1 -> grown p1 p2 -> grown p0 p2.
Proof.
  destruct p0 as [m0| |], p1 as [m1| |], p2 as [m2| |]; cbn; try congruence.
  intros H1 H2 k. destruct (H2 k) as [E|[t E]]; [|eauto].
  rewrite E. apply H1.
Qed.

Ltac frame_facts Hf1 :=
  match goal with
  | Hc : periodic_check _ _ _ = (_, ?w1) |- _ =>
      destruct (Hf1 w1 ltac:(rewrite Hc; reflexivity))
        as ((?Hd1 & ?Hp1 & ?Hl1 & ?Hn1) & ?Hfs1 & ?Ht1)
  end;
  try match goal with
  | Hn : file_needs_backup ?env ?p ?lp ?pr ?w1 = (_, ?w2) |- _ =>
      let Hf2 := fresh "Hf2" in
      pose proof (file_needs_backup_frame env p lp pr w1) as Hf2; rewrite Hn in Hf2;
      destruct Hf2 as ((?Hd2 & ?Hp2 & ?Hl2 & ?Hn2) & ?Hfs2 & ?Ht2); cbn [snd] in *
  end;
  try match goal with
  | Hp : pull_file ?env ?p ?lp ?w2 = (_, ?w3) |- _ =>
      let Hf3 := fresh "Hf3" in
      pose proof (pull_file_frame env p lp w2) as Hf3; rewrite Hp in Hf3;
      destruct Hf3 as ((?Hd3 & ?Hp3 & ?Hl3 & ?Hn3) & ?Hfs3 & ?Ht3); cbn [snd] in *
  end.

Ltac frame_close :=
  try first
    [ congruence
    | lia
    | match goal with Ht3 : trace _ = AdbPull _ _ :: _ |- _ => rewrite Ht3; cbn; lia end
    | apply grown_refl
    | assumption
    | match goal with
      | Hfs1 : fs _ = fs _, Hfs2 : forall k, _ -> fs _ !! k = _,
        Hfs3 : forall k, _ -> fs _ !! k = _ |- _ =>
          intros k Hk; rewrite Hfs3, Hfs2, Hfs1 by assumption; reflexivity
      end
    | match goal with
      | Hfs1 : fs _ = fs _, Hfs2 : forall k, _ -> fs _ !! k = _ |- _ =>
          intros k Hk; rewrite Hfs2, Hfs1 by assumption; reflexivity
      end
    | match goal with
      | Hfs1 : fs _ = fs _ |- _ => intros k Hk; rewrite Hfs1; reflexivity
      end
    | (left; congruence)
    | (intros; congruence) ].

(** Everything one iteration guarantees about the world and the locals. *)
Lemma iteration_frame (env : Env) (android_path : string) (l l' : Locals)
    (w w' : World) (s : step) :
  loop_body env android_path l w = (s, l', w') ->
  denied w' = denied w /\ flist w' = flist w /\
  (forall k, k <> local_path_of android_path -> fs w' !! k = fs w !! k) /\
  (count_pulls (trace w') + successful_files l + failed_files l
   = count_pulls (trace w) + successful_files l' + failed_files l' + raised_step s)%nat /\
  (PROGRESS_FILE ∉ denied w -> loaded (pfile w) = progress l ->
   loaded (pfile w') = progress l') /\
  (pfile w' = pfile w \/ pfile w' = Valid (dump (progress l')) \/ pfile w' = Malformed) /\
  grown (progress l) (progress l').
Proof.
  intros Hstep. pose proof (loop_body_iterates env android_path l w) as Hit.
  rewrite Hstep in Hit.
  pose proof (periodic_check_world env l w) as Hw1.
  assert (Hf1 : forall w1, snd (periodic_check env l w) = w1 ->
            same_store w w1 /\ fs w1 = fs w /\ count_pulls (trace w1) = count_pulls (trace w)).
  { intros w1 <-. rewrite Hw1. destruct (connection_check_due l); repeat split. }
  clear Hstep Hw1.
  inversion Hit; subst; frame_facts Hf1.
  - refine (conj _ (conj _ (conj _ (conj _ (conj _ (conj _ _)))))); cbn; frame_close.
  - refine (conj _ (conj _ (conj _ (conj _ (conj _ (conj _ _)))))); cbn; frame_close.
  - refine (conj _ (conj _ (conj _ (conj _ (conj _ (conj _ _)))))); cbn; frame_close.
  - rewrite save_progress_returns. cbn [snd].
    match goal with
    | Hset : py_setitem _ _ _ = Ok ?p' |- _ =>
        assert (Hgrow : grown (progress l) p');
        [ destruct (progress l) as [m| |]; cbn in Hset; try discriminate;
          injection Hset as <-; cbn; intros k;
          destruct (decide (k = android_path)) as [->|Hne];
          [ right; rewrite lookup_insert_eq; eauto
          | left; apply lookup_insert_ne; congruence ]
        | ]
    end.
    match goal with
    | |- context [bool_decide (PROGRESS_FILE ∈ denied ?w3)] =>
        assert (Hden : denied w3 = denied w) by congruence;
        destruct (bool_decide (PROGRESS_FILE ∈ denied w3)) eqn:Hwr
    end.
    + apply bool_decide_eq_true_1 in Hwr.
      destruct (bool_decide (PROGRESS_FILE ∈ torn _));
        refine (conj _ (conj _ (conj _ (conj _ (conj _ (conj _ _)))))); cbn; frame_close;
        first [ right; right; reflexivity | intros Hno; contradict Hno; congruence ].
    + refine (conj _ (conj _ (conj _ (conj _ (conj _ (conj _ _)))))); cbn; frame_close;
        first [ right; left; reflexivity | intros _ _; destruct progress'; reflexivity ].
  - refine (conj _ (conj _ (conj _ (conj _ (conj _ (conj _ _)))))); cbn; frame_close.
Qed.

(** ** What a whole run guarantees *)

Lemma run_loop_frame (env : Env) (files : list string) :
  forall l w exit l' w',
    run_loop env files l w = (exit, l', w') ->
    denied w' = denied w /\ flist w' = flist w /\
    (forall k, (forall p, p ∈ files -> k <> local_path_of p) -> fs w' !! k = fs w !! k) /\
    (count_pulls (trace w') + successful_files l + failed_files l
     = count_pulls (trace w) + successful_files l' + failed_files l' + uncounted exit)%nat /\
    (PROGRESS_FILE ∉ denied w -> loaded (pfile w) = progress l ->
     loaded (pfile w') = progress l') /\
    grown (progress l) (progress l').
Proof.
  induction files as [|p files IH]; intros l w exit l' w' Hrun; cbn in Hrun.
  - injection Hrun as <- <- <-.
    refine (conj _ (conj _ (conj _ (conj _ (conj _ _))))); cbn;
      auto using grown_refl; lia.
  - destruct (loop_body env p l w) as [[s l1] w1] eqn:Hstep.
    destruct (iteration_frame env p l l1 w w1 s Hstep)
      as (Hd & Hl & Hfs & Hcnt & Hsync & _ & Hgrow).
    assert (Hhere : forall k, (forall q, q ∈ p :: files -> k <> local_path_of q) ->
              fs w1 !! k = fs w !! k).
    { intros k Hk. apply Hfs, Hk, elem_of_cons. left. reflexivity. }
    destruct s as [| |e].
    + destruct (IH l1 w1 exit l' w' Hrun) as (Hd' & Hl' & Hfs' & Hcnt' & Hsync' & Hgrow').
      refine (conj _ (conj _ (conj _ (conj _ (conj _ _))))); try congruence.
      * intros k Hk. rewrite Hfs', Hhere; auto.
        intros q Hq. apply Hk, elem_of_cons. right. exact Hq.
      * cbn in Hcnt. lia.
      * intros Hwr Hload. apply Hsync'; [congruence|]. apply Hsync; assumption.
      * eapply grown_trans; eassumption.
    + injection Hrun as <- <- <-.
      refine (conj _ (conj _ (conj _ (conj _ (conj _ _))))); auto.
    + injection Hrun as <- <- <-.
      refine (conj _ (conj _ (conj _ (conj _ (conj _ _))))); auto.
Qed.

Lemma create_local_directory_structure_fs (files : list string) (w : World) (k : string) :
  is_Some (fs w !! k) ->
  fs (snd (create_local_directory_structure files w)) !! k = fs w !! k.
Proof.
  intros Hk. unfold create_local_directory_structure, bind, ret.
  pose proof (create_dirs_fs files ∅ w k Hk) as Hcd.
  destruct (create_dirs files ∅ w) as [[c|x] w4]; exact Hcd.
Qed.

(** A run that gets to the statistics has run the loop on the enumerated
    list, from the loaded progress value, in a world that differs from the
    initial one by two spawned commands, the listing and new directories. *)
Lemma main_run (env : Env) (w w' : World) (total : nat) (exit : loop_exit) (l : Locals) :
  main env w = (Summary total exit l, w') ->
  exists files w5,
    run_loop env files (initial_locals (loaded (pfile w))) w5 = (exit, l, w') /\
    total = length files /\
    denied w5 = denied w /\ pfile w5 = pfile w /\
    trace w5 = AdbFind ANDROID_ROOT :: AdbDevices :: trace w /\
    (forall k, is_Some (fs w !! k) -> fs w5 !! k = fs w !! k) /\
    files <> [] /\
    exists w2, denied w2 = denied w /\
               fst (get_all_files_from_device env ANDROID_ROOT w2) = Ok files.
Proof.
  unfold main, toplevel. intros H.
  destruct (check_adb_connection_returns env w) as [connected Hc]. rewrite Hc in H.
  destruct connected; [|discriminate]. cbn [negb] in H.
  set (w1 := log_call AdbDevices w) in *.
  pose proof (os_makedirs_ok w1) as Hok.
  destruct (os_makedirs LOCAL_BACKUP_DIR w1) as [[[]|e] w2] eqn:Hm; [|discriminate].
  destruct (Hok eq_refl) as (_ & Hkeep2 & (Hd2 & Hp2 & _) & Ht2). cbn [snd] in *.
  pose proof (get_all_files_from_device_frame env ANDROID_ROOT w2) as Hfr.
  destruct (get_all_files_from_device env ANDROID_ROOT w2) as [[files|e] w3] eqn:Hf;
    [|discriminate].
  destruct Hfr as (Hfs3 & Hd3 & Hp3 & Ht3). cbn [snd] in *.
  destruct files as [|f files]; [discriminate|].
  pose proof (create_local_directory_structure_fs (f :: files) w3) as Hkeep4.
  destruct (create_local_directory_structure_returns (f :: files) w3)
    as (w4 & Hcr & (Hd4 & Hp4 & _) & Ht4).
  rewrite Hcr in H, Hkeep4. cbn [snd] in Hkeep4.
  rewrite load_progress_loaded in H.
  destruct (run_loop env (f :: files) (initial_locals (loaded (pfile w4))) w4)
    as [[exit' l''] w6] eqn:Hloop.
  injection H as <- <- <- <-.
  assert (Hpf : pfile w4 = pfile w) by (cbn in *; congruence).
  exists (f :: files), w4.
  split; [rewrite <- Hpf; exact Hloop|]. split; [reflexivity|].
  split; [cbn in *; congruence|].
  split; [exact Hpf|]. split; [rewrite Ht4, Ht3, Ht2; reflexivity|].
  split; [|split; [discriminate|]].
  - intros k Hk. rewrite Hkeep4 by (rewrite Hfs3, Hkeep2; assumption).
    rewrite Hfs3. apply Hkeep2. assumption.
  - exists w2. split; [exact Hd2|]. rewrite Hf. reflexivity.
Qed.

(** X8.  Every transfer is accounted for: in a run that reaches the final
    statistics, the number of [adb pull] commands spawned equals
    successful + failed, plus one when the loop was ended by an exception
    (the transfer that raised is counted nowhere). *)
Theorem run_transfers_accounted (env : Env) (w w' : World) (total : nat)
    (exit : loop_exit) (l : Locals)
    (Hrun : main env w = (Summary total exit l, w')) :
  count_pulls (trace w')
    = (count_pulls (trace w) + successful_files l + failed_files l + uncounted exit)%nat.
Proof.
  destruct (main_run env w w' total exit l Hrun) as (files & w5 & Hloop & _ & _ & _ & Ht & _).
  destruct (run_loop_frame env files _ _ _ _ _ Hloop) as (_ & _ & _ & Hcnt & _).
  rewrite Ht in Hcnt. cbn in Hcnt. lia.
Qed.

Lemma run_transfers_accounted_witness :
  count_pulls (trace (snd (main (steady_env "/sdcard/a" "5" 5) empty_world)))
    = (count_pulls (trace empty_world)
       + successful_files (final_locals (fst (main (steady_env "/sdcard/a" "5" 5) empty_world)))
       + failed_files (final_locals (fst (main (steady_env "/sdcard/a" "5" 5) empty_world)))
       + uncounted Exhausted)%nat.
Proof.
  apply (run_transfers_accounted (steady_env "/sdcard/a" "5" 5) empty_world _ 1).
  vm_compute. reflexivity.
Defined.

(** X9.  The statistics tell whether the loop ran to the end: when it did,
    the three counters add up to the number of enumerated files; when it
    was ended by a lost connection or an exception, they add up to strictly
    less. *)
Theorem run_accounts_for_files (env : Env) (w w' : World) (total : nat)
    (exit : loop_exit) (l : Locals)
    (Hrun : main env w = (Summary total exit l, w')) :
  match exit with
  | Exhausted => accounted l = total
  | Broke | Caught _ => (accounted l < total)%nat
  end.
Proof.
  destruct (main_run env w w' total exit l Hrun) as (files & w5 & Hloop & -> & _).
  destruct (run_loop_final env files (initial_locals (loaded (pfile w))) w5 files
              (initial_locals (loaded (pfile w))) w5 (boundary_start _ _ _ _))
    as (rest' & l2 & w2 & Hb & Hend).
  rewrite Hloop in Hend. apply boundary_counters in Hb. destruct Hb as [_ Hacc].
  unfold accounted in *. cbn in Hacc.
  destruct exit.
  - destruct Hend as (-> & -> & _). cbn in Hacc. lia.
  - destruct Hend as (-> & p & r & -> & _). cbn in Hacc. lia.
  - destruct Hend as (-> & p & r & -> & _). cbn in Hacc. lia.
Qed.

Lemma run_accounts_for_files_witness :
  accounted (final_locals (fst (main (steady_env "/sdcard/a" "5" 5) empty_world))) = 1%nat.
Proof.
  apply (run_accounts_for_files (steady_env "/sdcard/a" "5" 5) empty_world
           (snd (main (steady_env "/sdcard/a" "5" 5) empty_world)) 1 Exhausted).
  vm_compute. reflexivity.
Defined.

(** X10.  Progress is durable: when the progress file may be written, the
    snapshot on disk at the end of a run that reaches the statistics loads
    to exactly the progress value the run ended with, so every file counted
    as successful is recorded on disk. *)
Theorem store_on_disk (env : Env) (w w' : World) (total : nat)
    (exit : loop_exit) (l : Locals)
    (Hwritable : PROGRESS_FILE ∉ denied w)
    (Hrun : main env w = (Summary total exit l, w')) :
  load_progress w' = (Ok (progress l), w').
Proof.
  destruct (main_run env w w' total exit l Hrun)
    as (files & w5 & Hloop & _ & Hd & Hp & _ & _).
  destruct (run_loop_frame env files _ _ _ _ _ Hloop) as (_ & _ & _ & _ & Hsync & _).
  rewrite load_progress_loaded. rewrite Hsync; [reflexivity| |].
  - rewrite Hd. exact Hwritable.
  - rewrite Hp. reflexivity.
Qed.

Lemma store_on_disk_witness :
  load_progress (snd (main (steady_env "/sdcard/a" "5" 5) empty_world))
  = (Ok (progress (final_locals (fst (main (steady_env "/sdcard/a" "5" 5) empty_world)))),
     snd (main (steady_env "/sdcard/a" "5" 5) empty_world)).
Proof.
  apply (store_on_disk (steady_env "/sdcard/a" "5" 5) empty_world _ 1 Exhausted).
  - vm_compute. discriminate.
  - vm_compute. reflexivity.
Defined.

(** X11.  The loop never drops a record: starting from a dictionary, every
    key is still there at the end, either with the value it had or with a
    new record holding the local path of that key; a loaded value that is
    not a dictionary is never changed. *)
Theorem store_grows (env : Env) (w w' : World) (total : nat)
    (exit : loop_exit) (l : Locals)
    (Hrun : main env w = (Summary total exit l, w')) :
  grown (loaded (pfile w)) (progress l).
Proof.
  destruct (main_run env w w' total exit l Hrun) as (files & w5 & Hloop & _).
  destruct (run_loop_frame env files _ _ _ _ _ Hloop) as (_ & _ & _ & _ & _ & Hgrow).
  exact Hgrow.
Qed.

Lemma store_grows_witness :
  grown (loaded (pfile empty_world))
        (progress (final_locals (fst (main (steady_env "/sdcard/a" "5" 5) empty_world)))).
Proof.
  apply (store_grows (steady_env "/sdcard/a" "5" 5) empty_world
           (snd (main (steady_env "/sdcard/a" "5" 5) empty_world)) 1 Exhausted).
  vm_compute. reflexivity.
Defined.

Lemma local_path_of_eq (android_path : string) :
  local_path_of android_path = "android_backup/" +:+ PyStr.lstrip_slash android_path.
Proof.
  unfold local_path_of, rel_path_of, OsPath.join.
  rewrite lstrip_slash_no_leading_slash. reflexivity.
Qed.





(** X13.  A listing file that may not be written ends the run: the
    enumerator returns the empty list whatever the device lists, so [main]
    never gets to the loop and the statistics. *)
Theorem unwritable_listing_ends_run (env : Env) (w : World)
    (Hdenied : FILE_LIST ∈ denied w) :
  fst (get_all_files_from_device env ANDROID_ROOT w) = Ok [] /\
  forall total exit l, fst (main env w) <> Summary total exit l.
Proof.
  assert (Hempty : forall w2, denied w2 = denied w ->
            fst (get_all_files_from_device env ANDROID_ROOT w2) = Ok []).
  { intros w2 Hd. unfold get_all_files_from_device, subprocess_run, write_file_list.
    unfold_M. destruct (adb_find env _ _) as [rc out| |]; cbn; try reflexivity.
    destruct (rc =? 0)%Z; cbn; [|reflexivity].
    rewrite Hd, bool_decide_eq_true_2 by assumption.
    destruct (bool_decide _); reflexivity. }
  split; [apply Hempty; reflexivity|].
  intros total exit l Hsum.
  destruct (main env w) as [o w'] eqn:Hmain. cbn [fst] in Hsum. subst o.
  destruct (main_run env w w' total exit l Hmain)
    as (files & w5 & _ & _ & _ & _ & _ & _ & Hne & w2 & Hd & Hf).
  rewrite Hempty in Hf by assumption. injection Hf as <-. contradiction.
Qed.

Lemma unwritable_listing_ends_run_witness :
  fst (get_all_files_from_device (steady_env "/sdcard/a" "5" 5) ANDROID_ROOT
         listing_protected_world) = Ok [] /\
  forall total exit l,
    fst (main (steady_env "/sdcard/a" "5" 5) listing_protected_world)
      <> Summary total exit l.
Proof.
  apply (unwritable_listing_ends_run (steady_env "/sdcard/a" "5" 5)
           listing_protected_world).
  vm_compute. reflexivity.
Defined.

(** ** Local paths *)

(** X14.  Two remote paths are mirrored at the same local path exactly when
    they agree once their leading slashes are removed; paths listed under
    the remote root therefore never share a local path. *)
Theorem local_path_collisions (p q : string) :
  (local_path_of p = local_path_of q <-> PyStr.lstrip_slash p = PyStr.lstrip_slash q) /\
  (forall r r', local_path_of (ANDROID_ROOT +:+ r) = local_path_of (ANDROID_ROOT +:+ r') ->
                r = r').
Proof.
  split.
  - rewrite !local_path_of_eq. split; [|intros ->; reflexivity].
    intros H. cbn in H. simplify_eq. congruence.
  - intros r r' H.
    assert (ANDROID_ROOT +:+ r = ANDROID_ROOT +:+ r') as E
      by (apply local_path_under_root_inj; eauto).
    cbn in E. simplify_eq. reflexivity.
Qed.

Lemma head_of_cons (c : ascii) (p : string) :
  OsPath.head_of (String c p) =
    match OsPath.head_of p with
    | EmptyString => if Ascii.eqb c PyStr.slash then String c EmptyString else EmptyString
    | h => String c h
    end.
Proof. reflexivity. Qed.

Lemma head_of_app (a b : string) :
  OsPath.head_of b <> EmptyString ->
  OsPath.head_of (a +:+ b) = a +:+ OsPath.head_of b.
Proof.
  intros Hb. induction a as [|c a IH]; [reflexivity|].
  rewrite !string_app_cons, head_of_cons, IH.
  destruct (a +:+ OsPath.head_of b) eqn:E; [|reflexivity].
  destruct a; [rewrite string_app_nil in E; contradiction | discriminate].
Qed.

Lemma head_of_clean_head (p : string) :
  clean_head (Ascii.eqb PyStr.slash) p ->
  clean_head (Ascii.eqb PyStr.slash) (OsPath.head_of p).
Proof.
  destruct p as [|c p]; [auto|]. cbn [clean_head]. intros Hc. rewrite head_of_cons.
  destruct (OsPath.head_of p); [|exact Hc].
  rewrite Ascii.eqb_sym, Hc. exact I.
Qed.

Lemma rstrip_by_nonempty (p : ascii -> bool) (s : string) :
  clean_head p s -> s <> EmptyString -> PyStr.rstrip_by p s <> EmptyString.
Proof.
  destruct s as [|c s]; [contradiction|]. cbn [clean_head]. intros Hc _.
  rewrite rstrip_by_cons. destruct (PyStr.rstrip_by p s); [rewrite Hc|]; discriminate.
Qed.

Lemma startswith_slash_clean (s : string) :
  clean_head (Ascii.eqb PyStr.slash) s -> OsPath.startswith_slash s = false.
Proof.
  destruct s as [|c s]; [reflexivity|]. cbn [clean_head OsPath.startswith_slash].
  rewrite Ascii.eqb_sym. auto.
Qed.

Lemma local_dir_with_parent (android_path : string) :
  OsPath.head_of (rel_path_of android_path) <> EmptyString ->
  local_dir_of android_path = OsPath.dirname (local_path_of android_path).
Proof.
  intros Hh. rewrite local_path_of_eq. unfold local_dir_of, rel_path_of in *.
  set (rel := PyStr.lstrip_slash android_path) in *.
  assert (Hrel : clean_head (Ascii.eqb PyStr.slash) rel)
    by apply lstrip_by_clean_head.
  pose proof (head_of_clean_head rel Hrel) as Hclean.
  set (h := OsPath.head_of rel) in *.
  assert (Hr : PyStr.rstrip_slash h <> EmptyString)
    by (apply rstrip_by_nonempty; assumption).
  assert (Hd : OsPath.dirname rel = PyStr.rstrip_slash h).
  { unfold OsPath.dirname. fold h. unfold PyStr.lstrip_slash at 1.
    rewrite lstrip_by_clean by assumption.
    destruct h; [contradiction|reflexivity]. }
  rewrite Hd. unfold OsPath.join.
  rewrite startswith_slash_clean by (apply rstrip_by_clean_head; assumption).
  cbn [PyStr.is_empty LOCAL_BACKUP_DIR orb OsPath.endswith_slash].
  unfold OsPath.dirname. rewrite head_of_app by assumption. fold h.
  assert (Hne : ("android_backup/" +:+ h) <> EmptyString) by discriminate.
  destruct ("android_backup/" +:+ h) as [|c0 s0] eqn:E; [contradiction|].
  rewrite <- E.
  assert (Hl : PyStr.lstrip_slash ("android_backup/" +:+ h) = "android_backup/" +:+ h)
    by reflexivity.
  rewrite Hl, E. cbn [PyStr.is_empty negb andb]. rewrite <- E.
  unfold PyStr.rstrip_slash in *. rewrite rstrip_by_app_keep by assumption.
  reflexivity.
Qed.

(** X15.  The directory the mirror builder creates for a file is the parent
    directory of the file's local path whenever the path has a directory
    part, as every path under the remote root has; for a file directly
    under [/] it is the mirror root, written with a trailing slash. *)
Theorem local_dir_is_parent (android_path r : string) :
  (OsPath.head_of (rel_path_of android_path) <> EmptyString ->
   local_dir_of android_path = OsPath.dirname (local_path_of android_path)) /\
  (OsPath.head_of (rel_path_of android_path) = EmptyString ->
   local_dir_of android_path = "android_backup/") /\
  local_dir_of (ANDROID_ROOT +:+ r) = OsPath.dirname (local_path_of (ANDROID_ROOT +:+ r)).
Proof.
  split; [apply local_dir_with_parent|]. split.
  - intros Hh. unfold local_dir_of, OsPath.dirname. unfold rel_path_of in Hh.
    rewrite Hh. reflexivity.
  - apply local_dir_with_parent.
    change (rel_path_of (ANDROID_ROOT +:+ r)) with ("sdcard/" +:+ r).
    destruct (OsPath.head_of r) eqn:Hr.
    + clear Hr. induction r as [|c r IH].
      * discriminate.
      * change ("sdcard/" +:+ String c r) with ("sdcard" +:+ String "/" (String c r)).
        rewrite head_of_app; [discriminate|].
        rewrite head_of_cons. destruct (OsPath.head_of (String c r)); discriminate.
    + rewrite head_of_app by (rewrite Hr; discriminate). discriminate.
Qed.

(** ** The mirror builder *)

Lemma create_dirs_cons (f : string) (files : list string) (created : gset string)
    (w : World) :
  create_dirs (f :: files) created w =
    if bool_decide (local_dir_of f ∈ created) then create_dirs files created w
    else match os_makedirs (local_dir_of f) w with
         | (Ok _, w1) => create_dirs files ({[local_dir_of f]} ∪ created) w1
         | (Raise _, w1) => create_dirs files created w1
         end.
Proof.
  cbn [create_dirs]. destruct (bool_decide _); [reflexivity|].
  unfold bind at 1. unfold try_except, bind, ret.
  destruct (os_makedirs (local_dir_of f) w) as [[[]|e] w1]; reflexivity.
Qed.

(** The builder only adds directories, each on the way to the local
    directory of one of the files. *)
Lemma create_dirs_adds (files : list string) :
  forall created w,
    adds_dirs (fun k => exists f, f ∈ files /\ String.prefix k (local_dir_of f) = true)
              w (snd (create_dirs files created w)).
Proof.
  induction files as [|f files IH]; intros created w; [apply adds_dirs_refl|].
  assert (Hrest : forall c w1,
            adds_dirs (fun k => exists f0, f0 ∈ f :: files /\
                                           String.prefix k (local_dir_of f0) = true)
                      w1 (snd (create_dirs files c w1))).
  { intros c w1. eapply adds_dirs_weaken; [|apply IH].
    intros k (f0 & Hf0 & Hk). exists f0. split; [|exact Hk].
    apply elem_of_cons. right. exact Hf0. }
  rewrite create_dirs_cons. destruct (bool_decide _); [apply Hrest|].
  assert (Hhere : adds_dirs (fun k => exists f0, f0 ∈ f :: files /\
                                                 String.prefix k (local_dir_of f0) = true)
                    w (snd (os_makedirs (local_dir_of f) w))).
  { eapply adds_dirs_weaken; [|apply os_makedirs_adds].
    intros k Hk. exists f. split; [apply elem_of_cons; left; reflexivity | exact Hk]. }
  destruct (os_makedirs (local_dir_of f) w) as [[[]|e] w1]; cbn [snd] in Hhere;
    (eapply adds_dirs_trans; [exact Hhere | apply Hrest]).
Qed.

(** *** Paths that do not begin with a slash *)

Lemma length_head_tail (p : string) :
  (String.length (OsPath.head_of p) + String.length (OsPath.tail_of p)
   = String.length p)%nat.
Proof.
  induction p as [|c p IH]; [reflexivity|].
  cbn [OsPath.head_of OsPath.tail_of].
  destruct (OsPath.head_of p) as [|c' h] eqn:Hh.
  - cbn [String.length] in IH.
    destruct (Ascii.eqb c PyStr.slash); cbn [String.length]; lia.
  - cbn [String.length] in *. lia.
Qed.

Lemma length_rstrip_by (q : ascii -> bool) (s : string) :
  (String.length (PyStr.rstrip_by q s) <= String.length s)%nat.
Proof.
  induction s as [|c s IH]; [reflexivity|]. rewrite rstrip_by_cons.
  destruct (PyStr.rstrip_by q s); [destruct (q c)|]; cbn [String.length] in *; lia.
Qed.

Lemma length_dirname (p : string) :
  (String.length (OsPath.dirname p) <= String.length (OsPath.head_of p))%nat.
Proof.
  unfold OsPath.dirname. destruct (_ && _); [apply length_rstrip_by | reflexivity].
Qed.

Lemma makedirs_split_shorter (name : string) :
  snd (makedirs_split name) <> EmptyString ->
  (String.length (fst (makedirs_split name)) < String.length name)%nat.
Proof.
  unfold makedirs_split, OsPath.split.
  pose proof (length_head_tail name) as H1. pose proof (length_dirname name) as H2.
  destruct (OsPath.tail_of name) as [|c t] eqn:Ht; cbn [PyStr.is_empty fst snd].
  - intros Hne.
    pose proof (length_head_tail (OsPath.dirname name)) as H3.
    pose proof (length_dirname (OsPath.dirname name)) as H4.
    destruct (OsPath.tail_of (OsPath.dirname name)); [contradiction|].
    cbn [String.length] in *. lia.
  - intros _. cbn [String.length] in *. lia.
Qed.

(** The recursion of [os.makedirs] never runs out of fuel: every call is
    on a shorter path. *)
Lemma makedirs_fuel (fuel1 : nat) :
  forall fuel2 name w,
    (String.length name <= fuel1)%nat -> (String.length name <= fuel2)%nat ->
    makedirs fuel1 name w = makedirs fuel2 name w.
Proof.
  induction fuel1 as [|fuel1 IH]; intros fuel2 name w H1 H2;
    rewrite (makedirs_unfold _ name w), (makedirs_unfold fuel2 name w);
    destruct (negb (PyStr.is_empty (fst (makedirs_split name)))); cbn [andb];
      try reflexivity;
    destruct (PyStr.is_empty (snd (makedirs_split name))) eqn:Et; cbn [negb andb];
      try reflexivity;
    destruct (negb (bool_decide _)); try reflexivity;
    assert (Hs : (String.length (fst (makedirs_split name)) < String.length name)%nat)
      by (apply makedirs_split_shorter; intros E; rewrite E in Et; discriminate).
  - lia.
  - destruct fuel2 as [|fuel2]; [lia|].
    rewrite (IH fuel2) by lia. reflexivity.
Qed.

Lemma entry_key_clean (p : string) :
  clean_head (Ascii.eqb PyStr.slash) p -> os_entry_key p = PyStr.rstrip_slash p.
Proof.
  intros Hc. unfold os_entry_key. destruct p as [|c p]; [reflexivity|].
  cbn [clean_head] in Hc. unfold PyStr.lstrip_slash. cbn [PyStr.lstrip_by PyStr.is_empty negb].
  rewrite Hc. reflexivity.
Qed.

Lemma dirname_clean (p : string) :
  clean_head (Ascii.eqb PyStr.slash) p ->
  OsPath.dirname p = PyStr.rstrip_slash (OsPath.head_of p) /\
  clean_head (Ascii.eqb PyStr.slash) (OsPath.dirname p).
Proof.
  intros Hc. pose proof (head_of_clean_head p Hc) as Hh.
  assert (E : OsPath.dirname p = PyStr.rstrip_slash (OsPath.head_of p)).
  { unfold OsPath.dirname. destruct (OsPath.head_of p) as [|c h]; [reflexivity|].
    cbn [clean_head] in Hh. unfold PyStr.lstrip_slash.
    cbn [PyStr.is_empty negb andb PyStr.lstrip_by]. rewrite Hh. reflexivity. }
  split; [exact E|]. rewrite E. apply rstrip_by_clean_head. exact Hh.
Qed.

Lemma tail_of_empty (p : string) :
  OsPath.tail_of p = EmptyString -> OsPath.head_of p = p.
Proof.
  intros Ht. pose proof (length_head_tail p) as Hl. rewrite Ht in Hl.
  cbn [String.length] in Hl. rewrite Nat.add_0_r in Hl.
  pose proof (prefix_head_of p) as Hp. revert Hl Hp. generalize (OsPath.head_of p).
  clear Ht. induction p as [|c p IH]; intros h Hl Hp.
  - destruct h; [reflexivity|discriminate].
  - destruct h as [|c' h]; [discriminate|]. cbn in Hp.
    destruct (ascii_dec c' c) as [->|]; [|discriminate].
    f_equal. apply IH; [cbn [String.length] in Hl; lia | exact Hp].
Qed.

Lemma tail_of_rstrip (p : string) :
  OsPath.tail_of p <> EmptyString -> PyStr.rstrip_slash p = p.
Proof.
  unfold PyStr.rstrip_slash.
  induction p as [|c p IH]; [reflexivity|]. cbn [OsPath.tail_of]. rewrite rstrip_by_cons.
  destruct (OsPath.head_of p) as [|c' h] eqn:Hh.
  - destruct p as [|c2 p].
    + destruct (Ascii.eqb c PyStr.slash) eqn:Hc; [contradiction|]. intros _.
      cbn [PyStr.rstrip_by]. rewrite Ascii.eqb_sym, Hc. reflexivity.
    + intros _.
      assert (Ht : OsPath.tail_of (String c2 p) <> EmptyString).
      { pose proof (length_head_tail (String c2 p)) as Hl. rewrite Hh in Hl.
        destruct (OsPath.tail_of (String c2 p)); [discriminate|discriminate]. }
      rewrite (IH Ht). reflexivity.
  - intros Ht. rewrite (IH Ht). destruct p; [discriminate|reflexivity].
Qed.

Lemma makedirs_split_clean (name : string) :
  clean_head (Ascii.eqb PyStr.slash) name ->
  let head := fst (makedirs_split name) in
  clean_head (Ascii.eqb PyStr.slash) head /\
  os_entry_key head = head /\
  OsPath.dirname (os_entry_key name) = head.
Proof.
  intros Hc head. unfold head, makedirs_split, OsPath.split.
  destruct (dirname_clean name Hc) as [Ed Hd].
  destruct (OsPath.tail_of name) as [|c t] eqn:Ht; cbn [PyStr.is_empty fst].
  - destruct (dirname_clean _ Hd) as [Ed2 Hd2].
    split; [exact Hd2|]. split.
    + rewrite entry_key_clean by exact Hd2. rewrite Ed2. apply rstrip_by_idem.
    + rewrite entry_key_clean by exact Hc.
      rewrite Ed, (tail_of_empty name Ht). reflexivity.
  - split; [exact Hd|]. split.
    + rewrite entry_key_clean by exact Hd. rewrite Ed. apply rstrip_by_idem.
    + rewrite entry_key_clean by exact Hc.
      rewrite tail_of_rstrip by (rewrite Ht; discriminate). reflexivity.
Qed.

Lemma head_of_endswith_slash (p : string) :
  OsPath.head_of p <> EmptyString -> OsPath.endswith_slash (OsPath.head_of p) = true.
Proof.
  induction p as [|c p IH]; [contradiction|]. rewrite head_of_cons.
  destruct (OsPath.head_of p) as [|c' h].
  - destruct (Ascii.eqb c PyStr.slash) eqn:Hc; [|contradiction]. intros _. exact Hc.
  - intros _. cbn [OsPath.endswith_slash]. apply IH. discriminate.
Qed.

Lemma rstrip_slash_endswith (s : string) :
  OsPath.endswith_slash (PyStr.rstrip_slash s) = false.
Proof.
  unfold PyStr.rstrip_slash. induction s as [|c s IH]; [reflexivity|].
  rewrite rstrip_by_cons. destruct (PyStr.rstrip_by _ s) as [|c' r].
  - destruct (Ascii.eqb PyStr.slash c) eqn:Hc; [reflexivity|].
    cbn [OsPath.endswith_slash]. rewrite Ascii.eqb_sym. exact Hc.
  - cbn [OsPath.endswith_slash] in *. exact IH.
Qed.

Lemma makedirs_split_tail (name : string) :
  name <> EmptyString -> clean_head (Ascii.eqb PyStr.slash) name ->
  snd (makedirs_split name) <> EmptyString.
Proof.
  intros Hne Hc. unfold makedirs_split, OsPath.split.
  destruct (OsPath.tail_of name) as [|c t] eqn:Ht; cbn [PyStr.is_empty snd];
    [|discriminate].
  destruct (dirname_clean name Hc) as [Ed _].
  rewrite (tail_of_empty name Ht) in Ed. intros Ht2.
  apply tail_of_empty in Ht2.
  assert (Hr : OsPath.dirname name <> EmptyString).
  { rewrite Ed. apply rstrip_by_nonempty; assumption. }
  pose proof (head_of_endswith_slash (OsPath.dirname name)) as He.
  rewrite Ht2 in He. specialize (He Hr).
  rewrite Ed, rstrip_slash_endswith in He. discriminate.
Qed.

Lemma mkdir_exist_ok_succeeds (name : string) (w : World) :
  PyStr.is_empty (os_entry_key name) = false ->
  os_entry_key name ∉ denied w ->
  (forall sz, fs w !! os_entry_key name <> Some (RegFile sz)) ->
  (exists sz, parent_entry (os_entry_key name) w = Some (Directory sz)) ->
  fst (mkdir_exist_ok name w) = Ok tt /\
  exists sz, fs (snd (mkdir_exist_ok name w)) !! os_entry_key name = Some (Directory sz).
Proof.
  intros Hk Hden Hfile [psz Hpar]. rewrite mkdir_exist_ok_cases, Hk.
  destruct (fs w !! os_entry_key name) as [[sz|sz]|] eqn:E.
  - exfalso. eapply Hfile. reflexivity.
  - cbn [fst snd]. rewrite E. eauto.
  - rewrite Hpar, bool_decide_eq_false_2 by assumption. cbn [fst snd set_fs fs].
    rewrite lookup_insert_eq. eauto.
Qed.

(** With nothing in its way, [os.makedirs] succeeds and the directory is
    there afterwards. *)
Lemma makedirs_succeeds (fuel : nat) :
  forall name w,
    (String.length name <= fuel)%nat ->
    name <> EmptyString ->
    clean_head (Ascii.eqb PyStr.slash) name ->
    (forall a, a ∈ ancestors fuel name ->
       (os_entry_key a ∉ denied w) /\
       (forall sz, fs w !! os_entry_key a <> Some (RegFile sz)) /\
       snd (makedirs_split a) <> ".") ->
    fst (makedirs fuel name w) = Ok tt /\
    exists sz, fs (snd (makedirs fuel name w)) !! os_entry_key name = Some (Directory sz).
Proof.
  induction fuel as [|fuel IH]; intros name w Hlen Hne Hc Hclear.
  { destruct name; [contradiction | cbn [String.length] in Hlen; lia]. }
  destruct (makedirs_split_clean name Hc) as (Hhc & Hhk & Hpar).
  pose proof (makedirs_split_tail name Hne Hc) as Htail.
  assert (Hkey : PyStr.is_empty (os_entry_key name) = false).
  { rewrite entry_key_clean by exact Hc.
    pose proof (rstrip_by_nonempty _ name Hc Hne) as Hr.
    unfold PyStr.rstrip_slash. destruct (PyStr.rstrip_by _ name); [contradiction|reflexivity]. }
  assert (Hself : name ∈ ancestors (S fuel) name).
  { cbn [ancestors]. apply elem_of_cons. left. reflexivity. }
  destruct (Hclear name Hself) as (Hden & Hfile & Hdot).
  assert (Hleaf : forall w1,
            denied w1 = denied w ->
            (forall sz, fs w1 !! os_entry_key name <> Some (RegFile sz)) ->
            (fst (makedirs_split name) <> EmptyString ->
             exists sz, fs w1 !! fst (makedirs_split name) = Some (Directory sz)) ->
            fst (mkdir_exist_ok name w1) = Ok tt /\
            exists sz, fs (snd (mkdir_exist_ok name w1)) !! os_entry_key name
                       = Some (Directory sz)).
  { intros w1 Hd1 Hf1 Hp1. apply mkdir_exist_ok_succeeds; try assumption.
    - rewrite Hd1. exact Hden.
    - unfold parent_entry. rewrite Hpar.
      rewrite (lstrip_by_clean _ _ Hhc : PyStr.lstrip_slash _ = _).
      destruct (fst (makedirs_split name)) as [|c h] eqn:Eh; cbn [PyStr.is_empty]; [eauto|].
      apply Hp1. discriminate. }
  rewrite makedirs_unfold.
  destruct (fst (makedirs_split name)) as [|hc ht] eqn:Eh.
  { cbn [PyStr.is_empty negb andb]. apply Hleaf; [reflexivity | exact Hfile | contradiction]. }
  destruct (snd (makedirs_split name)) as [|tc tt'] eqn:Et; [contradiction|].
  cbn [PyStr.is_empty negb andb].
  assert (Hanc : forall a, a ∈ ancestors fuel (String hc ht) -> a ∈ ancestors (S fuel) name).
  { intros a Ha. cbn [ancestors]. apply elem_of_cons. right.
    destruct (makedirs_split name) as [h t]. cbn [fst snd] in Eh, Et. subst h t.
    cbn [PyStr.is_empty negb andb]. exact Ha. }
  assert (Hhlen : (String.length (String hc ht) <= fuel)%nat).
  { pose proof (makedirs_split_shorter name ltac:(rewrite Et; discriminate)) as Hs.
    rewrite Eh in Hs. lia. }
  assert (Hhead : String hc ht ∈ ancestors fuel (String hc ht)).
  { destruct fuel; cbn [ancestors]; apply elem_of_cons; left; reflexivity. }
  destruct (bool_decide (is_Some (fs w !! String hc ht))) eqn:Hex; cbn [negb].
  - (* the parent exists *)
    apply bool_decide_eq_true_1 in Hex. destruct Hex as [e He].
    apply Hleaf; [reflexivity | exact Hfile |]. intros _.
    destruct (Hclear _ (Hanc _ Hhead)) as (_ & Hf & _). rewrite Hhk in Hf.
    destruct e as [sz|sz]; [exfalso; eapply Hf; exact He | eauto].
  - (* the parent is made first *)
    destruct (IH (String hc ht) w Hhlen ltac:(discriminate) Hhc
                (fun a Ha => Hclear a (Hanc a Ha))) as (Hok & sz & Hdir).
    rewrite Hhk in Hdir.
    destruct (makedirs_adds fuel (String hc ht) w) as ((Hd1 & _) & _ & Hkeep & Hnew).
    destruct (makedirs fuel (String hc ht) w) as [r w1]. cbn [fst snd] in *. subst r.
    destruct (String.eqb (String tc tt') ".") eqn:Hdot'.
    { apply String.eqb_eq in Hdot'. contradiction. }
    apply Hleaf; [exact Hd1 | | eauto].
    intros sz' Hf'. destruct (fs w !! os_entry_key name) as [e|] eqn:E.
    + rewrite Hkeep in Hf' by eauto. rewrite E in Hf'. eapply Hfile. exact Hf'.
    + destruct (Hnew _ E) as [Hn|[Hn _]]; rewrite Hn in Hf'; discriminate.
Qed.

Lemma clear_way_adds (P : string -> Prop) (w w' : World) (name : string) :
  adds_dirs P w w' -> (clear_way w name <-> clear_way w' name).
Proof.
  intros ((Hd & _) & _ & Hkeep & Hnew). unfold clear_way.
  split; intros H a Ha; destruct (H a Ha) as (H1 & H2 & H3);
    (split; [congruence|]); (split; [|exact H3]); intros sz Hf.
  - destruct (fs w !! os_entry_key a) as [e|] eqn:E.
    + rewrite Hkeep in Hf by eauto. rewrite E in Hf. eapply H2. exact Hf.
    + destruct (Hnew _ E) as [Hn|[Hn _]]; rewrite Hn in Hf; discriminate.
  - apply (H2 sz). rewrite Hkeep by eauto. exact Hf.
Qed.

Lemma local_dir_relative (f : string) :
  local_dir_of f <> EmptyString /\ clean_head (Ascii.eqb PyStr.slash) (local_dir_of f).
Proof.
  unfold local_dir_of, OsPath.join.
  assert (Hd : clean_head (Ascii.eqb PyStr.slash) (OsPath.dirname (PyStr.lstrip_slash f))).
  { apply dirname_clean. apply lstrip_by_clean_head. }
  rewrite (startswith_slash_clean _ Hd). cbn. split; [discriminate|reflexivity].
Qed.

Lemma os_makedirs_succeeds (f : string) (w : World) :
  clear_way w (local_dir_of f) ->
  fst (os_makedirs (local_dir_of f) w) = Ok tt /\
  exists sz, fs (snd (os_makedirs (local_dir_of f) w)) !! os_entry_key (local_dir_of f)
             = Some (Directory sz).
Proof.
  intros Hclear. destruct (local_dir_relative f) as [Hne Hc].
  apply makedirs_succeeds; auto.
Qed.

Lemma create_dirs_builds (files : list string) :
  forall created w,
    (forall d, d ∈ created -> clear_way w d ->
               exists sz, fs w !! os_entry_key d = Some (Directory sz)) ->
    forall f, f ∈ files -> clear_way w (local_dir_of f) ->
      exists sz, fs (snd (create_dirs files created w)) !! os_entry_key (local_dir_of f)
                 = Some (Directory sz).
Proof.
  induction files as [|f0 files IH]; intros created w Hinv f Hf Hclear.
  { apply elem_of_nil in Hf. contradiction. }
  assert (Hlater : forall c w1 sz,
            fs w1 !! os_entry_key (local_dir_of f) = Some (Directory sz) ->
            exists sz', fs (snd (create_dirs files c w1)) !! os_entry_key (local_dir_of f)
                        = Some (Directory sz')).
  { intros c w1 sz H1. exists sz. rewrite create_dirs_fs by eauto. exact H1. }
  rewrite create_dirs_cons.
  destruct (bool_decide (local_dir_of f0 ∈ created)) eqn:Hin.
  - apply bool_decide_eq_true_1 in Hin. apply elem_of_cons in Hf as [->|Hf].
    + destruct (Hinv _ Hin Hclear) as [sz Hsz]. eapply Hlater. exact Hsz.
    + apply IH; assumption.
  - pose proof (os_makedirs_adds (local_dir_of f0) w) as Hadds.
    pose proof (os_makedirs_succeeds f0 w) as Hsucc.
    destruct (os_makedirs (local_dir_of f0) w) as [r w1]. cbn [fst snd] in *.
    assert (Hkeep : forall d sz, fs w !! os_entry_key d = Some (Directory sz) ->
              fs w1 !! os_entry_key d = Some (Directory sz)).
    { intros d sz H. destruct Hadds as (_ & _ & Hk & _). rewrite Hk by eauto. exact H. }
    assert (Hinv1 : forall d, d ∈ created -> clear_way w1 d ->
              exists sz, fs w1 !! os_entry_key d = Some (Directory sz)).
    { intros d Hd Hc1. apply (clear_way_adds _ _ _ d Hadds) in Hc1.
      destruct (Hinv d Hd Hc1) as [sz Hsz]. eauto. }
    assert (Hclear1 : clear_way w1 (local_dir_of f)).
    { apply (clear_way_adds _ _ _ _ Hadds). exact Hclear. }
    apply elem_of_cons in Hf as [->|Hf].
    + destruct (Hsucc Hclear) as (-> & sz & Hsz). eapply Hlater. exact Hsz.
    + destruct r as [[]|e]; [|apply IH; assumption].
      apply IH; try assumption.
      intros d Hd Hc1. apply elem_of_union in Hd as [Hd|Hd]; [|apply Hinv1; assumption].
      apply elem_of_singleton in Hd. subst d.
      apply (clear_way_adds _ _ _ _ Hadds) in Hc1.
      destruct (Hsucc Hc1) as (_ & sz & Hsz). eauto.
Qed.

(** X16.  [create_local_directory_structure] never raises and never changes
    or removes an existing entry; whatever it adds is a directory on the
    way to the local directory of one of the files (that directory or one
    of its ancestors, which [os.makedirs] creates as well); and the local
    directory of a file is a directory afterwards whenever nothing is in
    its way: no regular file where a directory is needed, no refused
    creation, no [.] component. *)
Theorem mirror_builder (files : list string) (w : World) :
  let w' := snd (create_local_directory_structure files w) in
  create_local_directory_structure files w = (Ok tt, w') /\
  (forall k, is_Some (fs w !! k) -> fs w' !! k = fs w !! k) /\
  (forall k, fs w !! k = None ->
     fs w' !! k = None \/
     (fs w' !! k = Some (Directory 4096) /\
      exists f, f ∈ files /\ String.prefix k (local_dir_of f) = true)) /\
  (forall f, f ∈ files -> clear_way w (local_dir_of f) ->
     exists sz, fs w' !! os_entry_key (local_dir_of f) = Some (Directory sz)).
Proof.
  intros w'.
  assert (Hsnd : w' = snd (create_dirs files ∅ w)).
  { unfold w', create_local_directory_structure, bind, ret.
    destruct (create_dirs_returns files ∅ w) as (c & w1 & -> & _). reflexivity. }
  destruct (create_dirs_adds files ∅ w) as (_ & _ & Hkeep & Hnew).
  rewrite <- Hsnd in Hkeep, Hnew.
  split; [|split; [exact Hkeep | split; [exact Hnew|]]].
  - destruct (create_local_directory_structure_returns files w) as (w1 & E & _).
    unfold w'. rewrite E. reflexivity.
  - intros f Hf Hclear. rewrite Hsnd. apply create_dirs_builds; try assumption.
    intros d Hd. apply elem_of_empty in Hd. contradiction.
Qed.

(** The four directories made for [/sdcard/x/y/z.txt]. *)
Example mirror_builder_nested :
  let w' := snd (main (steady_env "/sdcard/x/y/z.txt" "5" 5) empty_world) in
  fs w' !! "android_backup" = Some (Directory 4096) /\
  fs w' !! "android_backup/sdcard" = Some (Directory 4096) /\
  fs w' !! "android_backup/sdcard/x" = Some (Directory 4096) /\
  fs w' !! "android_backup/sdcard/x/y" = Some (Directory 4096) /\
  fs w' !! "android_backup/sdcard/x/y/z.txt" = Some (RegFile 5).
Proof. vm_compute. repeat split. Qed.

(** A regular file where a directory is needed: [os.makedirs] raises, the
    builder swallows the error and makes nothing. *)
Example mirror_builder_blocked :
  let w := set_fs {[ "android_backup" := Directory 4096;
                     "android_backup/sdcard" := RegFile 1 ]} empty_world in
  os_makedirs "android_backup/sdcard/x" w = (Raise NotADirectoryError, w) /\
  create_local_directory_structure ["/sdcard/x/z.txt"] w = (Ok tt, w).
Proof. vm_compute. repeat split. Qed.

(** ** A store that cannot be rewritten *)

Lemma iteration_torn (env : Env) (android_path : string) (l l' : Locals)
    (w w' : World) (s : step) :
  loop_body env android_path l w = (s, l', w') ->
  PROGRESS_FILE ∈ denied w -> PROGRESS_FILE ∈ torn w ->
  denied w' = denied w /\ torn w' = torn w /\
  ((successful_files l' = successful_files l /\ pfile w' = pfile w) \/
   (successful_files l' = S (successful_files l) /\ pfile w' = Malformed)).
Proof.
  intros Hstep Hden Htorn. pose proof (loop_body_iterates env android_path l w) as Hit.
  rewrite Hstep in Hit.
  pose proof (periodic_check_world env l w) as Hw1.
  assert (Hf1 : forall w1, snd (periodic_check env l w) = w1 ->
            same_store w w1 /\ fs w1 = fs w /\ count_pulls (trace w1) = count_pulls (trace w)).
  { intros w1 <-. rewrite Hw1. destruct (connection_check_due l); repeat split. }
  clear Hstep Hw1.
  inversion Hit; subst; frame_facts Hf1;
    try (refine (conj _ (conj _ (or_introl (conj eq_refl _)))); congruence).
  rewrite save_progress_returns. cbn [snd].
  rewrite !bool_decide_eq_true_2 by congruence.
  refine (conj _ (conj _ (or_intror (conj eq_refl eq_refl)))); cbn; congruence.
Qed.

Lemma run_loop_torn (env : Env) (files : list string) :
  forall l w exit l' w',
    run_loop env files l w = (exit, l', w') ->
    PROGRESS_FILE ∈ denied w -> PROGRESS_FILE ∈ torn w ->
    (successful_files l' = successful_files l /\ pfile w' = pfile w) \/
    ((successful_files l < successful_files l')%nat /\ pfile w' = Malformed).
Proof.
  induction files as [|p files IH]; intros l w exit l' w' Hrun Hden Htorn; cbn in Hrun.
  - injection Hrun as <- <- <-. left. split; reflexivity.
  - destruct (loop_body env p l w) as [[s l1] w1] eqn:Hstep.
    destruct (iteration_torn env p l l1 w w1 s Hstep Hden Htorn) as (Hd & Ht & Hcase).
    assert (Hhere : (successful_files l1 = successful_files l /\ pfile w1 = pfile w) \/
                    ((successful_files l < successful_files l1)%nat /\ pfile w1 = Malformed)).
    { destruct Hcase as [[E1 E2]|[E1 E2]]; [left; auto | right; split; [lia|exact E2]]. }
    destruct s as [| |e]; try (injection Hrun as <- <- <-; exact Hhere).
    assert (Hden1 : PROGRESS_FILE ∈ denied w1) by (rewrite Hd; exact Hden).
    assert (Htorn1 : PROGRESS_FILE ∈ torn w1) by (rewrite Ht; exact Htorn).
    destruct (IH l1 w1 exit l' w' Hrun Hden1 Htorn1) as [[E1 E2]|[E1 E2]].
    + destruct Hhere as [[F1 F2]|[F1 F2]].
      * left. split; congruence.
      * right. split; [lia | congruence].
    + right. split; [|exact E2]. destruct Hhere as [[F1 _]|[F1 _]]; lia.
Qed.

Lemma main_run_store (env : Env) (w w' : World) (total : nat) (exit : loop_exit)
    (l : Locals) :
  main env w = (Summary total exit l, w') ->
  exists files w5,
    run_loop env files (initial_locals (loaded (pfile w))) w5 = (exit, l, w') /\
    denied w5 = denied w /\ torn w5 = torn w /\ pfile w5 = pfile w.
Proof.
  unfold main, toplevel. intros H.
  destruct (check_adb_connection_returns env w) as [connected Hc]. rewrite Hc in H.
  destruct connected; [|discriminate]. cbn [negb] in H.
  set (w1 := log_call AdbDevices w) in *.
  destruct (os_makedirs_adds LOCAL_BACKUP_DIR w1) as ((Hd2 & Hp2 & _ & Hn2) & _).
  destruct (os_makedirs LOCAL_BACKUP_DIR w1) as [[[]|e] w2] eqn:Hm; [|discriminate].
  cbn [snd] in *.
  assert (Hfr : let w3 := snd (get_all_files_from_device env ANDROID_ROOT w2) in
                denied w3 = denied w2 /\ torn w3 = torn w2 /\ pfile w3 = pfile w2).
  { unfold get_all_files_from_device, subprocess_run, write_file_list. unfold_M.
    destruct (adb_find env _ _) as [rc out| |]; simpl; try (repeat split; reflexivity).
    destruct (rc =? 0)%Z; simpl; try (repeat split; reflexivity).
    repeat destruct (bool_decide _); simpl; repeat split; reflexivity. }
  destruct (get_all_files_from_device env ANDROID_ROOT w2) as [[files|e] w3] eqn:Hf;
    [|discriminate].
  destruct Hfr as (Hd3 & Hn3 & Hp3). cbn [snd] in *.
  destruct files as [|f files]; [discriminate|].
  destruct (create_local_directory_structure_returns (f :: files) w3)
    as (w4 & Hcr & (Hd4 & Hp4 & _ & Hn4) & Ht4).
  rewrite Hcr in H. rewrite load_progress_loaded in H.
  destruct (run_loop env (f :: files) (initial_locals (loaded (pfile w4))) w4)
    as [[exit' l''] w6] eqn:Hloop.
  injection H as <- <- <- <-.
  assert (Hpf : pfile w4 = pfile w) by (cbn in *; congruence).
  exists (f :: files), w4.
  split; [rewrite <- Hpf; exact Hloop|].
  split; [cbn in *; congruence|]. split; [cbn in *; congruence | exact Hpf].
Qed.

(** X17.  A progress file that can be opened but not written costs the
    whole store: in a run that reaches the statistics with at least one
    successful transfer, the file on disk is left cut short, so the next
    load yields the empty dictionary and every record, old or new, is
    lost; a run without a successful transfer leaves the file as it was. *)
Theorem torn_write_loses_store (env : Env) (w w' : World) (total : nat)
    (exit : loop_exit) (l : Locals)
    (Hrun : main env w = (Summary total exit l, w'))
    (Hdenied : PROGRESS_FILE ∈ denied w)
    (Htorn : PROGRESS_FILE ∈ torn w) :
  if (successful_files l =? 0)%nat then pfile w' = pfile w
  else pfile w' = Malformed /\ load_progress w' = (Ok (PDict ∅), w').
Proof.
  destruct (main_run_store env w w' total exit l Hrun) as (files & w5 & Hloop & Hd & Hn & Hp).
  destruct (run_loop_torn env files _ _ _ _ _ Hloop) as [[E1 E2]|[E1 E2]];
    try congruence; cbn [successful_files initial_locals] in E1.
  - rewrite E1. cbn. congruence.
  - destruct (successful_files l); [lia|]. cbn [Nat.eqb].
    split; [exact E2|]. apply load_progress_fresh. auto.
Qed.

Lemma torn_write_loses_store_witness :
  pfile (snd (main (steady_env "/sdcard/a" "5" 5) full_disk_world)) = Malformed /\
  load_progress (snd (main (steady_env "/sdcard/a" "5" 5) full_disk_world))
    = (Ok (PDict ∅), snd (main (steady_env "/sdcard/a" "5" 5) full_disk_world)).
Proof.
  apply (torn_write_loses_store (steady_env "/sdcard/a" "5" 5) full_disk_world
           _ 1 Exhausted
           (final_locals (fst (main (steady_env "/sdcard/a" "5" 5) full_disk_world)))).
  - vm_compute. reflexivity.
  - vm_compute. reflexivity.
  - vm_compute. reflexivity.
Defined.
